(** * VideoEditorTimeline: the crop-marker interaction of the video editor

    A shallow embedding of
    [src/streamlit_video_editor/frontend/src/VideoEditorTimeline.tsx].

    JavaScript numbers are IEEE 754 binary64 values; they are embedded as
    Rocq's primitive [float], so that [+], [-], [*], [/] and [<] are the very
    operations the browser performs (rounding, infinities, NaN and signed
    zeros included).  React state ([useState]) and refs ([useRef]) become
    the fields of one record; every handler is a function from the component
    to the component.  A handler created during a render reads the state
    values of that render: this closure environment is the argument [r] of
    each handler.  The listeners that a pointer-down puts on [document]
    stay those of its render until the pointer-up removes them, whatever
    re-renders happen in between. *)

From Stdlib Require Import Floats ZArith List Bool String Lia.
From Stdlib Require Import DecimalString.
From Stdlib Require Uint63.
Import ListNotations.

Local Open Scope float_scope.

(** ** JavaScript numbers *)

(** [-0] is told apart from [+0] by its class only. *)
Definition is_neg_zero (x : float) : bool :=
  match classify x with
  | NZero => true
  | _ => false
  end.

(** [Math.max(a, b)]: NaN if either argument is NaN, and [+0] counts as
    larger than [-0]. *)
Definition Math_max (a b : float) : float :=
  if is_nan a || is_nan b then nan
  else if a <? b then b
  else if b <? a then a
  else if is_neg_zero a then b else a.

(** [Math.min(a, b)]: NaN if either argument is NaN, and [-0] counts as
    smaller than [+0]. *)
Definition Math_min (a b : float) : float :=
  if is_nan a || is_nan b then nan
  else if a <? b then a
  else if b <? a then b
  else if is_neg_zero a then a else b.

(** [Math.ceil(x)]: the smallest integral number not below [x]; NaN, the
    infinities and the zeros are returned as they are, and a negative number
    above [-1] gives [-0].  A finite number is [m * 2^e]; with [e >= 0] it
    is integral already, and otherwise its integer part is below [2^53] and
    converts exactly. *)
Definition Math_ceil (x : float) : float :=
  match Prim2SF x with
  | S754_finite s m e =>
      if (0 <=? e)%Z then x
      else
        let d := (2 ^ (- e))%Z in
        let q := (Zpos m / d)%Z in
        let rem := (Zpos m mod d)%Z in
        if s then - (of_uint63 (Uint63.of_Z q))
        else of_uint63 (Uint63.of_Z (if (rem =? 0)%Z then q else q + 1))
  | _ => x
  end.

(** [ToLength(x)] of ECMAScript, which [Array.from({ length: x })] applies
    to the length it is given: NaN and everything below 1 give 0, the
    fraction is dropped, and the result is capped at [2^53 - 1]. *)
Definition ToLength (x : float) : Z :=
  match Prim2SF x with
  | S754_finite false m e =>
      Z.min (if (0 <=? e)%Z then Zpos m * 2 ^ e else Zpos m / 2 ^ (- e))
            (2 ^ 53 - 1)
  | S754_infinity false => (2 ^ 53 - 1)%Z
  | _ => 0%Z
  end.

(** [Array.from({ length: n })], as the list of its indices. *)
Definition Array_from_length (n : float) : list nat :=
  seq 0 (Z.to_nat (ToLength n)).

(** [Math.floor(x)]: the largest integral number not above [x]; NaN, the
    infinities and the zeros are returned as they are, and a positive
    number below 1 gives [+0]. *)
Definition Math_floor (x : float) : float :=
  match Prim2SF x with
  | S754_finite s m e =>
      if (0 <=? e)%Z then x
      else
        let d := (2 ^ (- e))%Z in
        let q := (Zpos m / d)%Z in
        let rem := (Zpos m mod d)%Z in
        if s then - (of_uint63 (Uint63.of_Z (if (rem =? 0)%Z then q else q + 1)))
        else of_uint63 (Uint63.of_Z q)
  | _ => x
  end.

(** [n % d] ([Number::remainder]): NaN for a NaN operand, an infinite [n]
    or a zero [d]; [n] itself for an infinite [d] or a zero [n]; and
    otherwise the exact remainder of the magnitudes, with the sign of [n]
    (a zero remainder of a negative [n] is [-0]).  Both magnitudes are
    brought to the smaller of the two exponents, where they are integers;
    the remainder is below the divisor and a multiple of the unit of [n],
    so that packing it loses nothing. *)
Definition Number_remainder (n d : float) : float :=
  match Prim2SF n, Prim2SF d with
  | S754_nan, _ | _, S754_nan => nan
  | S754_infinity _, _ => nan
  | _, S754_zero _ => nan
  | _, S754_infinity _ => n
  | S754_zero _, _ => n
  | S754_finite sn mn en, S754_finite _ md ed =>
      let e := Z.min en ed in
      let r := ((Zpos mn * 2 ^ (en - e)) mod (Zpos md * 2 ^ (ed - e)))%Z in
      SF2Prim (binary_normalize prec emax (cond_Zopp sn r) e sn)
  end.

(** The decimal digits of an integer, after a minus sign if it is
    negative. *)
Definition decimal (z : Z) : string := NilZero.string_of_int (Z.to_int z).

(** [Number::toString(x)], the conversion that template literals and
    string concatenation apply to a number, for the numbers [formatTime]
    can hand to it: NaN, the infinities, the zeros (both print as "0") and
    the integers of magnitude below [2^53], which print as their decimal
    digits.  For every other number the digits are those of the shortest
    decimal that reads back as the same number; that search is not
    embedded, and the result is [None]. *)
Definition Number_toString (x : float) : option string :=
  match Prim2SF x with
  | S754_nan => Some "NaN"%string
  | S754_infinity false => Some "Infinity"%string
  | S754_infinity true => Some "-Infinity"%string
  | S754_zero _ => Some "0"%string
  | S754_finite s m e =>
      if (e =? 0)%Z then Some (decimal (cond_Zopp s (Zpos m)))
      else if (e <? 0)%Z && (Zpos m mod 2 ^ (- e) =? 0)%Z
      then Some (decimal (cond_Zopp s (Zpos m / 2 ^ (- e))))
      else None
  end.

(** ** Data model *)

(** The two markers, ['start' | 'end'] in the source. *)
Inductive MarkerType : Set :=
| marker_start
| marker_end.

(** What [getBoundingClientRect()] of the timeline element gives; the
    handler reads [width] and [left] only. *)
Record DOMRect : Set := mkDOMRect {
  rect_width : float;
  rect_left : float
}.

(** The fields of the [<video>] element that the component touches. *)
Record HTMLVideoElement : Set := mkVideo {
  currentTime : float;
  duration : float
}.

Record MouseEvent : Set := mkMouseEvent {
  clientX : float
}.

(** The value handed to [Streamlit.setComponentValue]. *)
Record ComponentValue : Set := mkComponentValue {
  cv_start : float;
  cv_end : float;
  shouldRefreshTaskList : bool
}.

(** The state values a render hands to the closures it creates. *)
Record Render : Set := mkRender {
  r_cropMode : bool;
  r_cropStartTime : float;
  r_cropEndTime : float;
  r_videoDuration : float
}.

(** [args] of the component, as far as the lanes read them; [None] is an
    absent ([undefined]) array. *)
Record Args : Set := mkArgs {
  video_url : string;
  waveform_data : option (list float);
  frame_data : option (list string)
}.

(** One component instance: the [useState] values, the [useRef] cells, the
    [mousemove]/[mouseup] listener pairs registered on [document] (each
    stands for the closures of the render that registered it) and the
    values sent to the host so far. *)
Record Component : Set := mkComponent {
  cropMode : bool;
  cropStartTime : float;
  cropEndTime : float;
  videoDuration : float;
  dynamicThumbnailCount : float;
  dynamicWaveformCount : float;
  isDraggingRef : bool;
  activeMarkerRef : option MarkerType;
  videoRef : option HTMLVideoElement;
  timelineRef : option DOMRect;
  documentListeners : list Render;
  componentValues : list ComponentValue
}.

(** The closure environment of the current render. *)
Definition render (c : Component) : Render :=
  {| r_cropMode := cropMode c;
     r_cropStartTime := cropStartTime c;
     r_cropEndTime := cropEndTime c;
     r_videoDuration := videoDuration c |}.

(** *** State setters *)

Definition setCropMode (v : bool) (c : Component) : Component :=
  mkComponent v (cropStartTime c) (cropEndTime c) (videoDuration c)
    (dynamicThumbnailCount c) (dynamicWaveformCount c) (isDraggingRef c)
    (activeMarkerRef c) (videoRef c) (timelineRef c) (documentListeners c)
    (componentValues c).

Definition setCropStartTime (v : float) (c : Component) : Component :=
  mkComponent (cropMode c) v (cropEndTime c) (videoDuration c)
    (dynamicThumbnailCount c) (dynamicWaveformCount c) (isDraggingRef c)
    (activeMarkerRef c) (videoRef c) (timelineRef c) (documentListeners c)
    (componentValues c).

Definition setCropEndTime (v : float) (c : Component) : Component :=
  mkComponent (cropMode c) (cropStartTime c) v (videoDuration c)
    (dynamicThumbnailCount c) (dynamicWaveformCount c) (isDraggingRef c)
    (activeMarkerRef c) (videoRef c) (timelineRef c) (documentListeners c)
    (componentValues c).

Definition setVideoDuration (v : float) (c : Component) : Component :=
  mkComponent (cropMode c) (cropStartTime c) (cropEndTime c) v
    (dynamicThumbnailCount c) (dynamicWaveformCount c) (isDraggingRef c)
    (activeMarkerRef c) (videoRef c) (timelineRef c) (documentListeners c)
    (componentValues c).

Definition setDynamicThumbnailCount (v : float) (c : Component) : Component :=
  mkComponent (cropMode c) (cropStartTime c) (cropEndTime c) (videoDuration c)
    v (dynamicWaveformCount c) (isDraggingRef c)
    (activeMarkerRef c) (videoRef c) (timelineRef c) (documentListeners c)
    (componentValues c).

Definition setDynamicWaveformCount (v : float) (c : Component) : Component :=
  mkComponent (cropMode c) (cropStartTime c) (cropEndTime c) (videoDuration c)
    (dynamicThumbnailCount c) v (isDraggingRef c)
    (activeMarkerRef c) (videoRef c) (timelineRef c) (documentListeners c)
    (componentValues c).

(** *** Ref cells and the outside world *)

Definition setDragRefs (dragging : bool) (m : option MarkerType)
    (c : Component) : Component :=
  mkComponent (cropMode c) (cropStartTime c) (cropEndTime c) (videoDuration c)
    (dynamicThumbnailCount c) (dynamicWaveformCount c) dragging
    m (videoRef c) (timelineRef c) (documentListeners c)
    (componentValues c).

Definition setVideoRef (v : option HTMLVideoElement) (c : Component)
    : Component :=
  mkComponent (cropMode c) (cropStartTime c) (cropEndTime c) (videoDuration c)
    (dynamicThumbnailCount c) (dynamicWaveformCount c) (isDraggingRef c)
    (activeMarkerRef c) v (timelineRef c) (documentListeners c)
    (componentValues c).

Definition setTimelineRef (v : option DOMRect) (c : Component) : Component :=
  mkComponent (cropMode c) (cropStartTime c) (cropEndTime c) (videoDuration c)
    (dynamicThumbnailCount c) (dynamicWaveformCount c) (isDraggingRef c)
    (activeMarkerRef c) (videoRef c) v (documentListeners c)
    (componentValues c).

Definition setDocumentListeners (v : list Render) (c : Component)
    : Component :=
  mkComponent (cropMode c) (cropStartTime c) (cropEndTime c) (videoDuration c)
    (dynamicThumbnailCount c) (dynamicWaveformCount c) (isDraggingRef c)
    (activeMarkerRef c) (videoRef c) (timelineRef c) v
    (componentValues c).

(** [Streamlit.setComponentValue(v)]: one more value for the host. *)
Definition Streamlit_setComponentValue (v : ComponentValue) (c : Component)
    : Component :=
  mkComponent (cropMode c) (cropStartTime c) (cropEndTime c) (videoDuration c)
    (dynamicThumbnailCount c) (dynamicWaveformCount c) (isDraggingRef c)
    (activeMarkerRef c) (videoRef c) (timelineRef c) (documentListeners c)
    (componentValues c ++ [v]).

(** [if (videoRef.current) videoRef.current.currentTime = t]. *)
Definition seek (t : float) (c : Component) : Component :=
  match videoRef c with
  | Some video => setVideoRef (Some (mkVideo t (duration video))) c
  | None => c
  end.

(** Identity of listener closures: two closures are told apart by the state
    values they captured. *)
Definition Render_eqb (a b : Render) : bool :=
  Bool.eqb (r_cropMode a) (r_cropMode b)
  && Leibniz.eqb (r_cropStartTime a) (r_cropStartTime b)
  && Leibniz.eqb (r_cropEndTime a) (r_cropEndTime b)
  && Leibniz.eqb (r_videoDuration a) (r_videoDuration b).

(** [document.addEventListener]: a listener already registered is not
    registered twice. *)
Definition addEventListener (r : Render) (c : Component) : Component :=
  if existsb (Render_eqb r) (documentListeners c) then c
  else setDocumentListeners (documentListeners c ++ [r]) c.

Definition removeEventListener (r : Render) (c : Component) : Component :=
  setDocumentListeners
    (filter (fun r' => negb (Render_eqb r r')) (documentListeners c)) c.

(** The component as [useState] and [useRef] initialise it, with the video
    and timeline elements mounted; before its metadata arrives the video
    element reports NaN as its duration. *)
Definition mount (timeline : DOMRect) : Component :=
  {| cropMode := false;
     cropStartTime := 0;
     cropEndTime := 0;
     videoDuration := 0;
     dynamicThumbnailCount := 100;
     dynamicWaveformCount := 100;
     isDraggingRef := false;
     activeMarkerRef := None;
     videoRef := Some (mkVideo 0 nan);
     timelineRef := Some timeline;
     documentListeners := [];
     componentValues := [] |}.

(** ** Handlers *)

(** [handleCropApply]: send the crop times to the host, leave crop mode. *)
Definition handleCropApply (r : Render) (c : Component) : Component :=
  setCropMode false
    (Streamlit_setComponentValue
       {| cv_start := r_cropStartTime r;
          cv_end := r_cropEndTime r;
          shouldRefreshTaskList := true |} c).

(** [handleToggleCrop]: on entering crop mode the markers are placed at
    [1.0] and [Math.max(videoDuration - 1.0, videoDuration * 0.75)]. *)
Definition handleToggleCrop (r : Render) (c : Component) : Component :=
  let c :=
    if negb (r_cropMode r) then
      let startTime := 1.0 in
      let endTime :=
        Math_max (r_videoDuration r - 1.0) (r_videoDuration r * 0.75) in
      setCropEndTime endTime (setCropStartTime startTime c)
    else c in
  setCropMode (negb (r_cropMode r)) c.

(** [handleMarkerMouseDown(markerType)]: a drag session starts; the
    [mousemove] and [mouseup] listeners of this render go on [document]. *)
Definition handleMarkerMouseDown (r : Render) (markerType : MarkerType)
    (c : Component) : Component :=
  addEventListener r (setDragRefs true (Some markerType) c).

(** The fraction of the timeline under the pointer, lines 130-131. *)
Definition dragPosition (timeline : DOMRect) (e : MouseEvent) : float :=
  let timelineWidth := rect_width timeline in
  let timelineLeft := rect_left timeline in
  let position := (clientX e - timelineLeft) / timelineWidth in
  Math_max 0 (Math_min 1 position).

(** [newTime], line 132: the drag candidate. *)
Definition newTime (r : Render) (timeline : DOMRect) (e : MouseEvent)
    : float :=
  dragPosition timeline e * r_videoDuration r.

(** [handleMarkerDrag]: the [mousemove] listener of a drag session. *)
Definition handleMarkerDrag (r : Render) (e : MouseEvent) (c : Component)
    : Component :=
  match isDraggingRef c, timelineRef c, activeMarkerRef c with
  | true, Some timeline, Some marker =>
      let t := newTime r timeline e in
      match marker with
      | marker_start =>
          if t <? r_cropEndTime r
          then seek t (setCropStartTime t c)
          else c
      | marker_end =>
          if r_cropStartTime r <? t
          then seek t (setCropEndTime t c)
          else c
      end
  | _, _, _ => c
  end.

(** [handleMarkerMouseUp]: the session ends and its listeners are removed. *)
Definition handleMarkerMouseUp (r : Render) (c : Component) : Component :=
  removeEventListener r (setDragRefs false None c).

(** [handleMarkerDoubleClick(time)]: seek to the marker. *)
Definition handleMarkerDoubleClick (time : float) (c : Component)
    : Component :=
  seek time c.

(** The [loadedmetadata] listener of the effect, for the video element it
    was registered on. *)
Definition onLoadedMetadata (video : HTMLVideoElement) (c : Component)
    : Component :=
  let c := setVideoDuration (duration video) c in
  let thumbnailCount :=
    Math_min 300 (Math_max 50 (Math_ceil (duration video / 3))) in
  let c := setDynamicThumbnailCount thumbnailCount c in
  let waveformCount :=
    Math_min 1000 (Math_max 100 (Math_ceil (duration video * 2))) in
  setDynamicWaveformCount waveformCount c.

(** ** Events *)

(** What the browser can deliver to the component.  The three buttons and
    the markers exist only in the renders that show them. *)
Inductive Event : Set :=
| LoadedMetadata (d : float)
| TimelineLayout (rect : option DOMRect)
| ClickModoDeCorte
| ClickAplicarCorte
| ClickCancelar
| MarkerMouseDown (m : MarkerType)
| MarkerDoubleClick (m : MarkerType)
| DocumentMouseMove (e : MouseEvent)
| DocumentMouseUp.

(** Dispatch of one event.  Handlers attached through JSX are those of the
    current render; the listeners on [document] are those of the render
    that registered them. *)
Definition step (ev : Event) (c : Component) : Component :=
  match ev with
  | LoadedMetadata d =>
      match videoRef c with
      | Some video =>
          let video := mkVideo (currentTime video) d in
          onLoadedMetadata video (setVideoRef (Some video) c)
      | None => c
      end
  | TimelineLayout rect => setTimelineRef rect c
  | ClickModoDeCorte =>
      if cropMode c then c else handleToggleCrop (render c) c
  | ClickAplicarCorte =>
      if cropMode c then handleCropApply (render c) c else c
  | ClickCancelar =>
      if cropMode c then setCropMode false c else c
  | MarkerMouseDown m =>
      if cropMode c then handleMarkerMouseDown (render c) m c else c
  | MarkerDoubleClick m =>
      if cropMode c then
        handleMarkerDoubleClick
          (match m with
           | marker_start => cropStartTime c
           | marker_end => cropEndTime c
           end) c
      else c
  | DocumentMouseMove e =>
      fold_left (fun c r => handleMarkerDrag r e c) (documentListeners c) c
  | DocumentMouseUp =>
      fold_left (fun c r => handleMarkerMouseUp r c) (documentListeners c) c
  end.

Definition run (evs : list Event) (c : Component) : Component :=
  fold_left (fun c ev => step ev c) evs c.

(** The components after each event of a trace, in order. *)
Fixpoint runStates (evs : list Event) (c : Component) : list Component :=
  match evs with
  | [] => []
  | ev :: evs => step ev c :: runStates evs (step ev c)
  end.

(** The two placeholder counts of the component. *)
Definition counts (c : Component) : float * float :=
  (dynamicThumbnailCount c, dynamicWaveformCount c).

(** The events that bring metadata. *)
Definition isLoadedMetadata (ev : Event) : bool :=
  match ev with
  | LoadedMetadata _ => true
  | _ => false
  end.

(** The clicks on the apply button. *)
Definition isClickAplicarCorte (ev : Event) : bool :=
  match ev with
  | ClickAplicarCorte => true
  | _ => false
  end.

(** *** Drag sessions *)

(** What happens between the pointer-down on a marker and the pointer-up:
    pointer moves, and layout changes of the timeline. *)
Inductive SessionEvent : Set :=
| Move (e : MouseEvent)
| Layout (rect : option DOMRect).

Definition sessionEvent (s : SessionEvent) : Event :=
  match s with
  | Move e => DocumentMouseMove e
  | Layout rect => TimelineLayout rect
  end.

(** A drag session: the marker grasped and what happened until release. *)
Definition Session : Set := (MarkerType * list SessionEvent)%type.

Definition sessionTrace (s : Session) : list Event :=
  MarkerMouseDown (fst s) :: map sessionEvent (snd s) ++ [DocumentMouseUp].

Definition sessionsTrace (ss : list Session) : list Event :=
  flat_map sessionTrace ss.

(** ** What is rendered *)

Inductive Thumbnail : Set :=
| FrameThumbnail (frame : string)
| EmptyThumbnail (index : nat).

Inductive WaveformBar : Set :=
| DataBar (value : float)
| DefaultBar (index : nat).

(** [args.frame_data && args.frame_data.length > 0 ? ... : ...] *)
Definition frameThumbnails (args : Args) (c : Component) : list Thumbnail :=
  match frame_data args with
  | Some ((_ :: _) as frames) => map FrameThumbnail frames
  | _ => map EmptyThumbnail (Array_from_length (dynamicThumbnailCount c))
  end.

(** [args.waveform_data && args.waveform_data.length > 0 ? ... : ...] *)
Definition audioWaveform (args : Args) (c : Component) : list WaveformBar :=
  match waveform_data args with
  | Some ((_ :: _) as values) => map DataBar values
  | _ => map DefaultBar (Array_from_length (dynamicWaveformCount c))
  end.

(** The two markers, rendered in crop mode only, each with the percentage
    that positions it ([left] of its style). *)
Definition cropMarkers (c : Component) : list (MarkerType * float) :=
  if cropMode c then
    [ (marker_start, cropStartTime c / videoDuration c * 100);
      (marker_end, cropEndTime c / videoDuration c * 100) ]
  else [].

(** [Math.max(value, 0.2) * 100], lines 251-252: the height, in percent,
    of the bar of a supplied sample; the literal [0.2] denotes
    [0x1.999999999999ap-3], the number of the format nearest to two
    tenths. *)
Definition effectiveHeight (value : float) : float :=
  Math_max value 0x1.999999999999ap-3 * 100.

(** [formatTime(seconds)], lines 88-92: the label of a marker,
    [`${min}:${sec < 10 ? '0' + sec : sec}`] with
    [min = Math.floor(seconds / 60)] and [sec = Math.floor(seconds % 60)].
    The result is [None] where [Number_toString] is. *)
Definition formatTime (seconds : float) : option string :=
  let min := Math_floor (seconds / 60) in
  let sec := Math_floor (Number_remainder seconds 60) in
  match Number_toString min, Number_toString sec with
  | Some smin, Some ssec =>
      Some (String.append smin
              (String.append ":"
                 (if sec <? 10 then String.append "0" ssec else ssec)))
  | _, _ => None
  end.

(** The heights, in percent, of the bars that the waveform lane shows for
    supplied samples, lines 249-263: one bar for each sample, in their
    order.  Without supplied samples the lane shows placeholder bars of
    height [20 + 15 * Math.sin(index * Math.PI / 10)]; the sine is the
    platform's approximation and is not embedded, and the result is
    [None]. *)
Definition waveformHeights (args : Args) : option (list float) :=
  match waveform_data args with
  | Some ((_ :: _) as values) => Some (map effectiveHeight values)
  | _ => None
  end.

(** ** The specification's vocabulary *)

(** [clamp(x, lo, hi)] in the usual reading by cases. *)
Definition clamp (x lo hi : float) : float :=
  if x <? lo then lo else if hi <? x then hi else x.

(** The coordinate mapping as the specification words it. *)
Definition specTime (pointerX leftEdge width videoDuration : float) : float :=
  clamp ((pointerX - leftEdge) / width) 0 1 * videoDuration.

(** Equality of numbers as JavaScript's [===] has it, except that NaN is
    taken to agree with NaN. *)
Definition same_number (a b : float) : bool :=
  (a =? b) || (is_nan a && is_nan b).

(** [start < end] on the component. *)
Definition ordered (c : Component) : Prop :=
  (cropStartTime c <? cropEndTime c) = true.

(** Seconds of a minute as a label shows them: two digits. *)
Definition twoDigits (r : Z) : string :=
  if (r <? 10)%Z then String.append "0" (decimal r) else decimal r.

(** The integer [n] as a number of the format (exact below [2^53]). *)
Definition wholeNumber (n : Z) : float := of_uint63 (Uint63.of_Z n).

(** ** The order of numbers

    A finite number [m * 2^e] of the format has [e >= -1074]; scaled by
    [2^1200] it is an integer, and so is every exact product or difference
    the handlers form before rounding. *)

Local Open Scope Z_scope.

(** The scaled weight [2^(e + 1200)] of exponent [e]. *)
Definition weight (e : Z) : Z := 2 ^ (e + 1200).

(** The scaled value of a number; the infinities lie beyond every finite
    number. *)
Definition rank (x : spec_float) : Z :=
  match x with
  | S754_zero _ => 0
  | S754_nan => 0
  | S754_infinity s => cond_Zopp s (2 ^ 53 * weight 971)
  | S754_finite s m e => cond_Zopp s (Zpos m * weight e)
  end.

(** [k] steps to the right of [m0]: the quotient by [2^k], and both flags
    are off if nothing was lost. *)
Definition shifted (m0 : Z) (k : nat) (mrs : shr_record) : Prop :=
  shr_m mrs = m0 / 2 ^ Z.of_nat k
  /\ (m0 mod 2 ^ Z.of_nat k = 0 -> shr_r mrs = false /\ shr_s mrs = false).

(** The end of [binary_round_aux]: renormalise the rounded mantissa and
    check for overflow. *)
Definition finish (sx : bool) (m2 e1 : Z) : spec_float :=
  let '(mrs, e2) := shr_fexp prec emax m2 e1 loc_Exact in
  match shr_m mrs with
  | Z0 => S754_zero sx
  | Zpos m => if e2 <=? emax - prec then S754_finite sx m e2
              else S754_infinity sx
  | Zneg _ => S754_nan
  end.

(** [x] is the integer [k]. *)
Definition whole (x : float) (k : Z) : Prop :=
  is_nan x = false /\ rank (Prim2SF x) = k * weight 0.

(** [x] lies between the integers [n] and [n + 1]: [n <= x < n + 1]. *)
Definition wholePart (x : float) (n : Z) : Prop :=
  is_nan x = false
  /\ n * weight 0 <= rank (Prim2SF x) < (n + 1) * weight 0.

(** Where the remainder of [N] by [T] lies with respect to half of [T]. *)
Definition located (N T : Z) (l : location) : Prop :=
  match l with
  | loc_Exact => N mod T = 0
  | loc_Inexact Lt => 0 < 2 * (N mod T) < T
  | loc_Inexact Eq => 2 * (N mod T) = T
  | loc_Inexact Gt => T < 2 * (N mod T)
  end.

(** [r] is the positive quantity [A / B], counted in units of [2^-1200],
    rounded to the nearest number of the format, ties to even: [A / B]
    lies between [m1] and [m1 + 1] units of the target exponent [e1], and
    [r] packs the nearer of the two, the even one if [A / B] is half way
    between them. *)
Definition rounds (A B : Z) (r : spec_float) : Prop :=
  exists m1 m2 e1 : Z,
    -1074 <= e1 /\ 0 <= m1 < 2 ^ 53 /\ (-1074 < e1 -> 2 ^ 52 <= m1)
    /\ r = finish false m2 e1
    /\ m1 * weight e1 * B <= A < (m1 + 1) * weight e1 * B
    /\ ((m2 = m1 /\ 2 * A <= (2 * m1 + 1) * weight e1 * B
         /\ (2 * A = (2 * m1 + 1) * weight e1 * B -> Z.even m1 = true))
        \/ (m2 = m1 + 1 /\ (2 * m1 + 1) * weight e1 * B <= 2 * A
            /\ (2 * A = (2 * m1 + 1) * weight e1 * B -> Z.even m1 = false))).

(** The same for a quantity [A / B] of either sign, or zero. *)
Definition rounds_signed (A B : Z) (r : spec_float) : Prop :=
  r <> S754_nan /\ valid_binary r = true
  /\ ((A = 0 /\ rank r = 0)
      \/ (0 < A /\ rounds A B r)
      \/ (A < 0 /\ exists r', rounds (- A) B r' /\ rank r = - rank r')).

Local Close Scope Z_scope.

(** ** Invariants of a drag session *)

(** While a marker is dragged, every registered listener closure still
    holds the current value of the other marker. *)
Definition inSync (c : Component) : Prop :=
  forall r, In r (documentListeners c) ->
    match activeMarkerRef c with
    | Some marker_start => r_cropEndTime r = cropEndTime c
    | Some marker_end => r_cropStartTime r = cropStartTime c
    | None => True
    end.

(** No drag session is open. *)
Definition atRest (c : Component) : Prop :=
  cropMode c = true /\ ordered c /\ documentListeners c = [].

(** The session of marker [m] is open, with the listeners of render [r]. *)
Definition grasped (m : MarkerType) (r : Render) (c : Component) : Prop :=
  cropMode c = true /\ ordered c /\ documentListeners c = [r]
  /\ isDraggingRef c = true /\ activeMarkerRef c = Some m
  /\ match m with
     | marker_start => r_cropEndTime r = cropEndTime c
     | marker_end => r_cropStartTime r = cropStartTime c
     end.

(** [0 <= start] and [end <= duration] on the component. *)
Definition within (c : Component) : Prop :=
  (0 <=? cropStartTime c) = true
  /\ (cropEndTime c <=? videoDuration c) = true.

(** The session of marker [m] is open with the listeners of a render that
    holds the current duration, and the interval is in range. *)
Definition graspedWithin (m : MarkerType) (r : Render) (c : Component)
    : Prop :=
  grasped m r c /\ r_videoDuration r = videoDuration c /\ within c.

(** The two ref cells of a drag agree with the listeners on [document]. *)
Definition dragConsistent (c : Component) : Prop :=
  (isDraggingRef c = true <-> documentListeners c <> [])
  /\ (activeMarkerRef c <> None <-> documentListeners c <> []).

(** ** Sample components *)

(** A timeline 600 pixels wide at the left edge of the viewport. *)
Definition timeline600 : DOMRect := mkDOMRect 600 0.

(** A two-minute video in crop mode: markers at 1 and 119. *)
Definition cropping120 : Component :=
  run [LoadedMetadata 120; ClickModoDeCorte] (mount timeline600).

(** The start marker of [cropping120] has just been grasped. *)
Definition graspedStart120 : Component :=
  step (MarkerMouseDown marker_start) cropping120.

(** The end marker of [cropping120] has just been grasped. *)
Definition graspedEnd120 : Component :=
  step (MarkerMouseDown marker_end) cropping120.

(** Two sessions: the start marker is dragged to 60 and then too far right,
    and the end marker is dragged to 90 and then too far left. *)
Definition sampleSessions : list Session :=
  [ (marker_start, [Move (mkMouseEvent 300); Move (mkMouseEvent 650)]);
    (marker_end, [Move (mkMouseEvent 450); Move (mkMouseEvent 10)]) ].

(** The timeline collapsed to width 0, as for an element that is not
    displayed. *)
Definition timelineCollapsed : DOMRect := mkDOMRect 0 0.

(** The end marker of [cropping120] grasped, and the timeline collapsed
    since. *)
Definition graspedEndCollapsed : Component :=
  step (TimelineLayout (Some timelineCollapsed)) graspedEnd120.

(** A one-second video in crop mode. *)
Definition cropping1 : Component :=
  run [LoadedMetadata 1; ClickModoDeCorte] (mount timeline600).

(** Crop mode entered before the metadata arrived: duration still 0. *)
Definition cropping0 : Component :=
  step ClickModoDeCorte (mount timeline600).

(** ** Facts about numbers *)

Lemma is_nan_SF (x : float) :
  is_nan x = match Prim2SF x with S754_nan => true | _ => false end.
Proof.
  unfold is_nan. rewrite FloatAxioms.eqb_spec.
  destruct (Prim2SF x) as [s|s| |s m e]; try (destruct s; reflexivity);
    try reflexivity.
  unfold SFeqb, SFcompare.
  destruct s; rewrite Z.compare_refl, Pos.compare_cont_refl; reflexivity.
Qed.

Lemma is_neg_zero_SF (x : float) :
  is_neg_zero x
  = match Prim2SF x with S754_zero true => true | _ => false end.
Proof.
  unfold is_neg_zero. rewrite classify_spec.
  destruct (Prim2SF x) as [s|s| |s m e]; try (destruct s; reflexivity);
    try reflexivity.
  unfold SF64classify, SFclassify.
  destruct s; destruct (Z.eqb _ _); reflexivity.
Qed.

Lemma nan_unique (x : float) : is_nan x = true -> x = nan.
Proof.
  rewrite is_nan_SF. intros H. apply Prim2SF_inj.
  destruct (Prim2SF x); try discriminate. reflexivity.
Qed.

Lemma ltb_nan_l (x y : float) : is_nan x = true -> (x <? y) = false.
Proof.
  rewrite is_nan_SF, FloatAxioms.ltb_spec.
  destruct (Prim2SF x); try discriminate. reflexivity.
Qed.

Lemma ltb_nan_r (x y : float) : is_nan y = true -> (x <? y) = false.
Proof.
  rewrite is_nan_SF, FloatAxioms.ltb_spec.
  destruct (Prim2SF y); try discriminate.
  destruct (Prim2SF x); reflexivity.
Qed.

Lemma ltb_not_nan (x y : float) :
  (x <? y) = true -> is_nan x = false /\ is_nan y = false.
Proof.
  intros H. split.
  - destruct (is_nan x) eqn:E; [|reflexivity].
    rewrite (ltb_nan_l x y E) in H. discriminate.
  - destruct (is_nan y) eqn:E; [|reflexivity].
    rewrite (ltb_nan_r x y E) in H. discriminate.
Qed.

Lemma Leibniz_eqb_refl (x : float) : Leibniz.eqb x x = true.
Proof. apply Leibniz.eqb_spec. reflexivity. Qed.

Lemma Render_eqb_refl (r : Render) : Render_eqb r r = true.
Proof.
  unfold Render_eqb. rewrite Bool.eqb_reflx, !Leibniz_eqb_refl. reflexivity.
Qed.

Lemma SFcompare_antisym (x y : spec_float) :
  SFcompare y x = option_map CompOpp (SFcompare x y).
Proof.
  destruct x as [s|s| |s m e], y as [s'|s'| |s' m' e'];
    try destruct s; try destruct s'; try reflexivity; simpl;
    rewrite (Z.compare_antisym e e');
    change (PosDef.Pos.compare_cont Eq m' m)
      with (Pos.compare_cont (CompOpp Eq) m' m);
    rewrite <- (Pos.compare_cont_antisym m m' Eq);
    destruct (e ?= e')%Z; simpl; rewrite ?CompOpp_involutive; reflexivity.
Qed.

Lemma ltb_asym (x y : float) : (x <? y) = true -> (y <? x) = false.
Proof.
  rewrite !FloatAxioms.ltb_spec. unfold SFltb.
  rewrite (SFcompare_antisym (Prim2SF x) (Prim2SF y)).
  destruct (SFcompare (Prim2SF x) (Prim2SF y)) as [[| |]|];
    simpl; congruence.
Qed.

(** Numbers that compare equal are the same number, unless both are
    zeros. *)
Lemma SFcompare_Eq (x y : spec_float) :
  SFcompare x y = Some Eq ->
  x = y \/ (exists s s', x = S754_zero s /\ y = S754_zero s').
Proof.
  destruct x as [s|s| |s m e], y as [s'|s'| |s' m' e'];
    try destruct s; try destruct s'; simpl; try discriminate;
    try (left; reflexivity); try (right; eauto; fail).
  - destruct (e ?= e')%Z eqn:E; try discriminate.
    apply Z.compare_eq in E. intros H. injection H as H.
    apply (f_equal CompOpp) in H. rewrite CompOpp_involutive in H.
    simpl in H. apply Pos.compare_eq in H. left. congruence.
  - destruct (e ?= e')%Z eqn:E; try discriminate.
    apply Z.compare_eq in E. intros H. injection H as H.
    apply Pos.compare_eq in H. left. congruence.
Qed.

(** Comparable numbers, neither below the other, are equal or both zero. *)
Lemma ltb_neither (x y : float) :
  is_nan x = false -> is_nan y = false ->
  (x <? y) = false -> (y <? x) = false ->
  x = y \/ (exists s s', Prim2SF x = S754_zero s /\ Prim2SF y = S754_zero s').
Proof.
  rewrite !is_nan_SF, !FloatAxioms.ltb_spec. unfold SFltb.
  rewrite (SFcompare_antisym (Prim2SF x) (Prim2SF y)).
  intros Hx Hy H1 H2.
  destruct (SFcompare (Prim2SF x) (Prim2SF y)) as [[| |]|] eqn:E;
    simpl in *; try discriminate.
  - destruct (SFcompare_Eq _ _ E) as [H|H]; [|right; exact H].
    left. apply Prim2SF_inj. exact H.
  - destruct (Prim2SF x), (Prim2SF y); simpl in *; discriminate.
Qed.

Lemma same_number_refl (x : float) : same_number x x = true.
Proof.
  unfold same_number, is_nan. destruct (x =? x); reflexivity.
Qed.

(** Case analysis of a number through its [spec_float] view, with the
    comparisons against 0 and 1 evaluated. *)
Ltac sf_view p :=
  rewrite ?is_nan_SF, ?is_neg_zero_SF, ?FloatAxioms.ltb_spec in *;
  change (Prim2SF 0) with (S754_zero false) in *;
  change (Prim2SF 1) with (S754_finite false 4503599627370496 (-52)) in *;
  let E := fresh "E" in
  destruct (Prim2SF p) as [[|]|[|]| |[|] ? ?] eqn:E;
  simpl in *; try discriminate.

(** The clamped position, by cases. *)
Lemma position_cases (p : float) :
  Math_max 0 (Math_min 1 p)
  = if is_nan p then nan
    else if 1 <? p then 1
    else if 0 <? p then p
    else 0.
Proof.
  unfold Math_max, Math_min.
  change (is_nan 1) with false. change (is_nan 0) with false.
  change (is_neg_zero 1) with false. change (is_neg_zero 0) with false.
  simpl. destruct (is_nan p) eqn:Ep; [reflexivity|].
  destruct (1 <? p) eqn:E1; [reflexivity|].
  destruct (p <? 1); rewrite Ep; destruct (0 <? p);
    try reflexivity; destruct (p <? 0); reflexivity.
Qed.

Lemma above_one_not_below_zero (p : float) :
  (1 <? p) = true -> (p <? 0) = false.
Proof. intros H. sf_view p; reflexivity. Qed.

(** [Math.max(0, Math.min(1, p))] is [clamp(p, 0, 1)], except that it
    turns [-0] into [+0]. *)
Lemma position_clamp (p : float) :
  is_neg_zero p = false -> Math_max 0 (Math_min 1 p) = clamp p 0 1.
Proof.
  intros Hz. rewrite position_cases. unfold clamp.
  destruct (is_nan p) eqn:Ep.
  - rewrite (ltb_nan_l p 0 Ep), (ltb_nan_r 1 p Ep).
    symmetry. apply nan_unique. exact Ep.
  - destruct (1 <? p) eqn:E1.
    + rewrite (above_one_not_below_zero p E1). reflexivity.
    + destruct (0 <? p) eqn:E0.
      * rewrite (ltb_asym 0 p E0). reflexivity.
      * destruct (p <? 0) eqn:E2; [reflexivity|].
        destruct (ltb_neither 0 p eq_refl Ep E0 E2)
          as [H|(s & s' & _ & H)]; [exact H|].
        apply Prim2SF_inj. rewrite is_neg_zero_SF, H in Hz. rewrite H.
        destruct s'; [discriminate|reflexivity].
Qed.

Lemma position_clamp_neg_zero (p : float) :
  is_neg_zero p = true ->
  Math_max 0 (Math_min 1 p) = 0 /\ clamp p 0 1 = neg_zero.
Proof.
  intros Hz.
  assert (Hp : p = neg_zero).
  { apply Prim2SF_inj. rewrite is_neg_zero_SF in Hz.
    destruct (Prim2SF p) as [[|]| | |]; try discriminate. reflexivity. }
  subst p. split; reflexivity.
Qed.

Lemma mul_zeros_same_number (d : float) :
  same_number (0 * d) (neg_zero * d) = true.
Proof.
  unfold same_number.
  rewrite FloatAxioms.eqb_spec, !is_nan_SF, !mul_spec.
  change (Prim2SF 0) with (S754_zero false).
  change (Prim2SF neg_zero) with (S754_zero true).
  destruct (Prim2SF d) as [[|]|[|]| |[|] m e]; reflexivity.
Qed.

Lemma mul_nan_l (x : float) : nan * x = nan.
Proof.
  apply Prim2SF_inj. rewrite mul_spec.
  change (Prim2SF nan) with S754_nan. reflexivity.
Qed.

(** Division by [+0]: an infinity of the sign of the numerator, and NaN for
    a numerator that is zero or NaN. *)
Lemma div_zero_cases (d : float) :
  d / 0 = if 0 <? d then infinity else if d <? 0 then neg_infinity else nan.
Proof.
  apply Prim2SF_inj. rewrite div_spec.
  rewrite !FloatAxioms.ltb_spec.
  change (Prim2SF 0) with (S754_zero false).
  destruct (Prim2SF d) as [[|]|[|]| |[|] m e]; reflexivity.
Qed.

(** A clamped position times a zero duration. *)
Lemma position_times_zero (p : float) :
  Math_max 0 (Math_min 1 p) * 0
  = if is_nan (Math_max 0 (Math_min 1 p)) then nan else 0.
Proof.
  rewrite position_cases.
  destruct (is_nan p) eqn:Ep; [reflexivity|].
  destruct (1 <? p) eqn:E1; [reflexivity|].
  destruct (0 <? p) eqn:E0; [|reflexivity].
  rewrite Ep. apply Prim2SF_inj. rewrite mul_spec.
  change (Prim2SF 0) with (S754_zero false).
  sf_view p; reflexivity.
Qed.

(** [Math.min(hi, Math.max(lo, v))] is [clamp(v, lo, hi)] for bounds in
    order, the lower one not a zero. *)
Lemma min_max_clamp (v lo hi : float) :
  (lo <? hi) = true ->
  is_zero lo = false ->
  is_neg_zero lo = false ->
  is_neg_zero hi = false ->
  Math_min hi (Math_max lo v) = clamp v lo hi.
Proof.
  intros Hlh Hz Hnl Hnh.
  destruct (ltb_not_nan lo hi Hlh) as (Nl & Nh).
  pose proof (ltb_asym lo hi Hlh) as Hhl.
  unfold clamp, Math_max. rewrite Nl, Hnl. simpl.
  destruct (is_nan v) eqn:Nv.
  - rewrite (ltb_nan_l v lo Nv), (ltb_nan_r hi v Nv).
    unfold Math_min. rewrite Nh. simpl.
    symmetry. apply nan_unique. exact Nv.
  - destruct (lo <? v) eqn:E1.
    + rewrite (ltb_asym lo v E1). unfold Math_min.
      rewrite Nh, Nv, Hnh. simpl.
      destruct (hi <? v); [reflexivity|]. destruct (v <? hi); reflexivity.
    + destruct (v <? lo) eqn:E2.
      * unfold Math_min. rewrite Nh, Nl, Hhl, Hlh. reflexivity.
      * destruct (ltb_neither lo v Nl Nv E1 E2) as [H|(s0 & s' & H & _)].
        -- subst v. rewrite Hhl.
           unfold Math_min. rewrite Nh, Nl, Hhl, Hlh. reflexivity.
        -- exfalso. unfold is_zero in Hz.
           rewrite FloatAxioms.eqb_spec, H in Hz.
           change (Prim2SF zero) with (S754_zero false) in Hz.
           destruct s0; discriminate.
Qed.

(** ** Rounding

    What [binary_round_aux], the rounding of the operations [*] and [-],
    does to an exact positive quantity. *)

Local Open Scope Z_scope.

Lemma weight_pos (e : Z) : -1200 <= e -> 0 < weight e.
Proof. intros H. unfold weight. apply Z.pow_pos_nonneg; lia. Qed.

Lemma weight_succ (e : Z) : -1200 <= e -> weight (e + 1) = 2 * weight e.
Proof.
  intros H. unfold weight.
  replace (e + 1 + 1200) with (Z.succ (e + 1200)) by lia.
  apply Z.pow_succ_r. lia.
Qed.

Lemma weight_mono (e e' : Z) : -1200 <= e -> e <= e' -> weight e <= weight e'.
Proof. intros H1 H2. unfold weight. apply Z.pow_le_mono_r; lia. Qed.

Lemma weight_lt (e e' : Z) :
  -1200 <= e -> e < e' -> 2 * weight e <= weight e'.
Proof.
  intros H1 H2. rewrite <- weight_succ by lia. apply weight_mono; lia.
Qed.

Lemma weight_add (e n : Z) :
  -1200 <= e -> 0 <= n -> weight (e + n) = 2 ^ n * weight e.
Proof.
  intros He Hn. unfold weight.
  replace (e + n + 1200) with (n + (e + 1200)) by lia.
  apply Z.pow_add_r; lia.
Qed.

Lemma digits2_pos_bounds (m : positive) :
  2 ^ (Zpos (digits2_pos m) - 1) <= Zpos m < 2 ^ Zpos (digits2_pos m).
Proof.
  induction m as [m IH|m IH|]; simpl digits2_pos.
  - rewrite Pos2Z.inj_succ.
    replace (Z.succ (Zpos (digits2_pos m)) - 1)
      with (Z.succ (Zpos (digits2_pos m) - 1)) by lia.
    rewrite !Z.pow_succ_r by lia. lia.
  - rewrite Pos2Z.inj_succ.
    replace (Z.succ (Zpos (digits2_pos m)) - 1)
      with (Z.succ (Zpos (digits2_pos m) - 1)) by lia.
    rewrite !Z.pow_succ_r by lia. lia.
  - simpl. lia.
Qed.

Lemma valid_finite (s : bool) (m : positive) (e : Z) :
  valid_binary (S754_finite s m e) = true ->
  -1074 <= e <= 971 /\ Zpos m < 2 ^ 53 /\ (-1074 < e -> 2 ^ 52 <= Zpos m).
Proof.
  unfold SpecFloat.valid_binary, bounded, canonical_mantissa, fexp,
    SpecFloat.emin.
  change prec with 53. change emax with 1024.
  intros H. apply andb_prop in H. destruct H as (H1 & H2).
  apply Z.eqb_eq in H1. apply Z.leb_le in H2.
  pose proof (digits2_pos_bounds m) as (B1 & B2).
  assert (Hd : Zpos (digits2_pos m) <= 53) by lia.
  split; [lia|]. split.
  - apply Z.lt_le_trans with (1 := B2). apply Z.pow_le_mono_r; lia.
  - intros He. assert (Zpos (digits2_pos m) = 53) by lia.
    rewrite H in B1. exact B1.
Qed.
Lemma finite_rank_bounds (s : bool) (m : positive) (e : Z) :
  valid_binary (S754_finite s m e) = true ->
  0 < Zpos m * weight e < 2 ^ 53 * weight 971.
Proof.
  intros H. destruct (valid_finite s m e H) as (He & Hm & _).
  pose proof (weight_pos e ltac:(lia)) as Hw.
  pose proof (weight_mono e 971 ltac:(lia) ltac:(lia)) as Hw'.
  split; [lia|].
  apply Z.lt_le_trans with (2 ^ 53 * weight e).
  - apply Z.mul_lt_mono_pos_r; assumption.
  - apply Z.mul_le_mono_nonneg_l; lia.
Qed.

Lemma canonical_lt (s s' : bool) (m m' : positive) (e e' : Z) :
  valid_binary (S754_finite s m e) = true ->
  valid_binary (S754_finite s' m' e') = true ->
  e < e' -> Zpos m * weight e < Zpos m' * weight e'.
Proof.
  intros H H' He.
  destruct (valid_finite s m e H) as (B & Hm & _).
  destruct (valid_finite s' m' e' H') as (B' & _ & Hm').
  pose proof (weight_pos e ltac:(lia)) as Hw.
  pose proof (weight_lt e e' ltac:(lia) He) as Hw'.
  specialize (Hm' ltac:(lia)).
  apply Z.lt_le_trans with (2 ^ 53 * weight e).
  - apply Z.mul_lt_mono_pos_r; assumption.
  - apply Z.le_trans with (2 ^ 52 * weight e').
    + change (2 ^ 53) with (2 ^ 52 * 2). lia.
    + apply Z.mul_le_mono_nonneg_r; lia.
Qed.

Lemma canonical_compare (s s' : bool) (m m' : positive) (e e' : Z) :
  valid_binary (S754_finite s m e) = true ->
  valid_binary (S754_finite s' m' e') = true ->
  match (e ?= e') with
  | Eq => Pos.compare_cont Eq m m'
  | Lt => Lt
  | Gt => Gt
  end = (Zpos m * weight e ?= Zpos m' * weight e').
Proof.
  intros H H'. destruct (Z.compare_spec e e') as [E|E|E].
  - subst e'. destruct (valid_finite s m e H) as (B & _).
    pose proof (weight_pos e ltac:(lia)) as Hw.
    change (Pos.compare_cont Eq m m') with (Zpos m ?= Zpos m').
    destruct (Z.compare_spec (Zpos m) (Zpos m')) as [E|E|E]; symmetry.
    + apply Z.compare_eq_iff. rewrite E. reflexivity.
    + apply Z.compare_lt_iff. apply Z.mul_lt_mono_pos_r; assumption.
    + apply Z.compare_gt_iff. apply Z.mul_lt_mono_pos_r; assumption.
  - symmetry. apply Z.compare_lt_iff.
    exact (canonical_lt s s' m m' e e' H H' E).
  - symmetry. apply Z.compare_gt_iff.
    exact (canonical_lt s' s m' m e' e H' H E).
Qed.

Lemma rank_compare (x y : spec_float) :
  valid_binary x = true -> valid_binary y = true ->
  x <> S754_nan -> y <> S754_nan ->
  SFcompare x y = Some (rank x ?= rank y).
Proof.
  intros Vx Vy Nx Ny.
  assert (Hinf : 0 < 2 ^ 53 * weight 971)
    by (apply Z.mul_pos_pos; [reflexivity | apply weight_pos; lia]).
  destruct x as [s|s| |s m e], y as [s'|s'| |s' m' e'];
    try congruence; try reflexivity;
    try (pose proof (finite_rank_bounds _ _ _ Vx) as Bx);
    try (pose proof (finite_rank_bounds _ _ _ Vy) as By);
    try destruct s; try destruct s'; cbn [SFcompare rank cond_Zopp];
    try (f_equal; symmetry;
         first [ apply Z.compare_lt_iff; lia
               | apply Z.compare_gt_iff; lia
               | apply Z.compare_eq_iff; lia ]).
  - rewrite Z.compare_opp. f_equal.
    rewrite <- (canonical_compare _ _ _ _ _ _ Vy Vx).
    rewrite (Z.compare_antisym e e').
    destruct (e ?= e'); simpl; try reflexivity.
    exact (Pos.compare_cont_antisym m m' Eq).
  - f_equal. apply (canonical_compare _ _ _ _ _ _ Vx Vy).
Qed.

(** *** Shifting right *)

Lemma iter_pos_nat {A : Type} (f : A -> A) (n : positive) (x : A) :
  SpecFloat.iter_pos f n x = Nat.iter (Pos.to_nat n) f x.
Proof.
  revert x. induction n as [n IH|n IH|]; intros x; simpl SpecFloat.iter_pos.
  - rewrite !IH, Pos2Nat.inj_xI, Nat.iter_succ_r.
    replace (2 * Pos.to_nat n)%nat with (Pos.to_nat n + Pos.to_nat n)%nat
      by lia.
    rewrite Nat.iter_add. reflexivity.
  - rewrite !IH, Pos2Nat.inj_xO.
    replace (2 * Pos.to_nat n)%nat with (Pos.to_nat n + Pos.to_nat n)%nat
      by lia.
    rewrite Nat.iter_add. reflexivity.
  - reflexivity.
Qed.

Lemma shr_1_fields (mrs : shr_record) :
  0 <= shr_m mrs ->
  shr_m (shr_1 mrs) = shr_m mrs / 2
  /\ shr_r (shr_1 mrs) = Z.odd (shr_m mrs)
  /\ shr_s (shr_1 mrs) = shr_r mrs || shr_s mrs.
Proof.
  destruct mrs as [m r s]. simpl. intros Hm.
  rewrite <- Z.div2_div.
  destruct m as [|[p|p|]|p]; simpl; try lia; repeat split.
Qed.

Lemma shifted_step (m0 : Z) (k : nat) (mrs : shr_record) :
  0 <= m0 -> shifted m0 k mrs -> shifted m0 (S k) (shr_1 mrs).
Proof.
  intros H0 (Hm & Hx).
  assert (Hp : 0 < 2 ^ Z.of_nat k) by (apply Z.pow_pos_nonneg; lia).
  assert (Hq : 0 <= shr_m mrs) by (rewrite Hm; apply Z.div_pos; lia).
  destruct (shr_1_fields mrs Hq) as (F1 & F2 & F3).
  unfold shifted. rewrite Nat2Z.inj_succ, Z.pow_succ_r by lia.
  split.
  - rewrite F1, Hm, Z.div_div by lia. f_equal. lia.
  - rewrite F2, F3. intros Hmod.
    apply Z.div_exact in Hmod; [|lia].
    remember (m0 / (2 * 2 ^ Z.of_nat k)) as j eqn:Ej.
    assert (E0 : m0 = (2 * j) * 2 ^ Z.of_nat k) by lia.
    assert (Hk : m0 mod 2 ^ Z.of_nat k = 0)
      by (rewrite E0; apply Z.mod_mul; lia).
    destruct (Hx Hk) as (Hr & Hs). rewrite Hr, Hs.
    split; [|reflexivity].
    rewrite Hm, E0, Z.div_mul by lia.
    rewrite Z.odd_mul. reflexivity.
Qed.

Lemma shifted_iter (m0 : Z) (k : nat) :
  0 <= m0 ->
  shifted m0 k (Nat.iter k shr_1 (Build_shr_record m0 false false)).
Proof.
  intros H0. induction k as [|k IH].
  - simpl. split; [rewrite Z.div_1_r; reflexivity|].
    intros _. split; reflexivity.
  - rewrite Nat.iter_succ. apply shifted_step; assumption.
Qed.

(** The first shift of [binary_round_aux] on an exact input: by
    [n = fexp (digits m + e) - e] places if that is positive. *)
Lemma shr_fexp_exact (m e : Z) :
  0 <= m ->
  let n := Z.max 0 (fexp prec emax (Zdigits2 m + e) - e) in
  let mrs := fst (shr_fexp prec emax m e loc_Exact) in
  snd (shr_fexp prec emax m e loc_Exact) = e + n
  /\ shr_m mrs = m / 2 ^ n
  /\ (m mod 2 ^ n = 0 -> shr_r mrs = false /\ shr_s mrs = false).
Proof.
  intros H0 n mrs. subst n mrs. unfold shr_fexp, shr.
  destruct (fexp prec emax (Zdigits2 m + e) - e) as [|p|p] eqn:E; simpl fst;
    simpl snd; simpl shr_record_of_loc.
  - simpl. rewrite Z.add_0_r, Z.div_1_r. repeat split.
  - rewrite iter_pos_nat.
    destruct (shifted_iter m (Pos.to_nat p) H0) as (S1 & S2).
    rewrite positive_nat_Z in S1, S2.
    replace (Z.max 0 (Zpos p)) with (Zpos p) by lia.
    repeat split; try assumption; apply S2; assumption.
  - replace (Z.max 0 (Zneg p)) with 0 by lia.
    simpl. rewrite Z.add_0_r, Z.div_1_r. repeat split.
Qed.

Lemma round_nearest_even_bounds (m : Z) (mrs : shr_record) :
  shr_m mrs = m ->
  let m' := round_nearest_even (shr_m mrs) (loc_of_shr_record mrs) in
  m <= m' <= m + 1
  /\ (m' = m + 1 -> ~ (shr_r mrs = false /\ shr_s mrs = false)).
Proof.
  destruct mrs as [m0 r s]. simpl. intros ->.
  destruct r, s; simpl; try destruct (Z.even m); split; try lia;
    intros H [H1 H2]; try discriminate; lia.
Qed.

(** *** The shape of a rounded result *)

Lemma fexp_eq (e : Z) : fexp prec emax e = Z.max (e - 53) (-1074).
Proof. reflexivity. Qed.

Lemma digits_le_53 (p : positive) :
  Zpos p < 2 ^ 53 -> Zpos (digits2_pos p) <= 53.
Proof.
  intros H. pose proof (digits2_pos_bounds p) as (B1 & _).
  assert (L : 2 ^ (Zpos (digits2_pos p) - 1) < 2 ^ 53) by lia.
  apply Z.pow_lt_mono_r_iff in L; lia.
Qed.

Lemma digits_ge (p : positive) (k : Z) :
  0 <= k -> 2 ^ k <= Zpos p -> k < Zpos (digits2_pos p).
Proof.
  intros Hk H. pose proof (digits2_pos_bounds p) as (_ & B2).
  assert (L : 2 ^ k < 2 ^ Zpos (digits2_pos p)) by lia.
  apply Z.pow_lt_mono_r_iff in L; lia.
Qed.

(** A rounded mantissa of at most 53 bits, or exactly [2^53], at an
    exponent it is canonical for, packs into a valid number of the same
    value, or into an infinity if that value is out of range. *)
Lemma finish_rank (sx : bool) (m2 e1 : Z) :
  0 <= m2 <= 2 ^ 53 ->
  -1074 <= e1 ->
  (-1074 < e1 -> 2 ^ 52 <= m2) ->
  valid_binary (finish sx m2 e1) = true
  /\ finish sx m2 e1 <> S754_nan
  /\ rank (finish sx m2 e1)
     = cond_Zopp sx (Z.min (m2 * weight e1) (2 ^ 53 * weight 971)).
Proof.
  intros Hm He Hc. unfold finish.
  pose proof (shr_fexp_exact m2 e1 ltac:(lia)) as (S1 & S2 & _).
  destruct (shr_fexp prec emax m2 e1 loc_Exact) as [mrs e2].
  simpl fst in *. simpl snd in *. rewrite fexp_eq in *.
  pose proof (weight_pos e1 ltac:(lia)) as Hw.
  destruct (Z.eq_dec m2 (2 ^ 53)) as [E|E].
  - (* the mantissa overflowed to 2^53: one more shift *)
    subst m2. change (Zdigits2 (2 ^ 53)) with 54 in *.
    replace (Z.max 0 (Z.max (54 + e1 - 53) (-1074) - e1)) with 1 in * by lia.
    change (2 ^ 53 / 2 ^ 1) with (Zpos 4503599627370496) in S2.
    rewrite S2, S1. change (emax - prec) with 971.
    pose proof (weight_succ e1 ltac:(lia)) as Hs.
    destruct (Z.leb_spec (e1 + 1) 971) as [L|L].
    + split; [|split; [discriminate|]].
      * unfold SpecFloat.valid_binary, bounded, canonical_mantissa.
        rewrite fexp_eq. change (Zpos (digits2_pos 4503599627370496)) with 53.
        change (emax - prec) with 971.
        apply andb_true_intro. split; [apply Z.eqb_eq | apply Z.leb_le]; lia.
      * cbn [rank]. f_equal. rewrite Hs.
        pose proof (weight_mono (e1 + 1) 971 ltac:(lia) L) as Hmono.
        change (2 ^ 53) with 9007199254740992 in *. lia.
    + split; [reflexivity|]. split; [discriminate|].
      cbn [rank]. f_equal.
      pose proof (weight_mono 971 e1 ltac:(lia) ltac:(lia)) as Hmono.
      change (2 ^ 53) with 9007199254740992 in *. nia.
  - destruct m2 as [|p|p]; [| |lia].
    + (* zero *)
      change (Zdigits2 0) with 0 in *. rewrite Z.div_0_l in S2
        by (apply Z.pow_nonzero; lia).
      rewrite S2. split; [reflexivity|]. split; [discriminate|].
      cbn [rank]. replace (Z.min (0 * weight e1) (2 ^ 53 * weight 971)) with 0.
      * destruct sx; reflexivity.
      * pose proof (weight_pos 971 ltac:(lia)).
        change (2 ^ 53) with 9007199254740992 in *. lia.
    + (* at most 53 bits: no shift *)
      assert (Hp : Zpos p < 2 ^ 53) by lia.
      pose proof (digits_le_53 p Hp) as Hd.
      change (Zdigits2 (Zpos p)) with (Zpos (digits2_pos p)) in *.
      replace (Z.max 0 (Z.max (Zpos (digits2_pos p) + e1 - 53) (-1074) - e1))
        with 0 in * by lia.
      rewrite Z.div_1_r in S2. rewrite Z.add_0_r in S1.
      rewrite S2, S1. change (emax - prec) with 971.
      destruct (Z.leb_spec e1 971) as [L|L].
      * split; [|split; [discriminate|]].
        -- unfold SpecFloat.valid_binary, bounded, canonical_mantissa.
           rewrite fexp_eq. change (emax - prec) with 971.
           apply andb_true_intro.
           split; [apply Z.eqb_eq | apply Z.leb_le; lia].
           destruct (Z.eq_dec e1 (-1074)) as [E1|E1]; [lia|].
           pose proof (digits_ge p 52 ltac:(lia) (Hc ltac:(lia))). lia.
        -- cbn [rank]. f_equal.
           pose proof (weight_mono e1 971 ltac:(lia) L) as Hmono.
           change (2 ^ 53) with 9007199254740992 in *. nia.
      * split; [reflexivity|]. split; [discriminate|].
        cbn [rank]. f_equal.
        pose proof (weight_lt 971 e1 ltac:(lia) L) as Hmono.
        specialize (Hc ltac:(lia)).
        change (2 ^ 53) with 9007199254740992 in *.
        change (2 ^ 52) with 4503599627370496 in *. nia.
Qed.

(** The first half of [binary_round_aux] on an exact positive input whose
    exponent is not above the target exponent [e1]: the mantissa is cut
    down to [e1] and rounded to one of its two neighbours there. *)
Lemma round_shape (sx : bool) (mx : positive) (ex : Z) :
  let e1 := fexp prec emax (Zpos (digits2_pos mx) + ex) in
  let m1 := Zpos mx / 2 ^ (e1 - ex) in
  ex <= e1 ->
  exists m2 : Z,
    binary_round_aux prec emax sx (Zpos mx) ex loc_Exact = finish sx m2 e1
    /\ m1 <= m2 <= m1 + 1
    /\ (m2 = m1 + 1 -> Zpos mx mod 2 ^ (e1 - ex) <> 0).
Proof.
  intros e1 m1 He. unfold binary_round_aux.
  pose proof (shr_fexp_exact (Zpos mx) ex ltac:(lia)) as (S1 & S2 & S3).
  destruct (shr_fexp prec emax (Zpos mx) ex loc_Exact) as [mrs e'].
  simpl fst in *. simpl snd in *.
  change (Zdigits2 (Zpos mx)) with (Zpos (digits2_pos mx)) in *.
  fold e1 in S1, S2, S3.
  replace (Z.max 0 (e1 - ex)) with (e1 - ex) in * by lia.
  replace (ex + (e1 - ex)) with e1 in S1 by lia. subst e'.
  fold m1 in S2.
  destruct (round_nearest_even_bounds m1 mrs S2) as (R1 & R2).
  exists (round_nearest_even (shr_m mrs) (loc_of_shr_record mrs)).
  split; [reflexivity|]. split; [exact R1|].
  intros E Hx. apply (R2 E). apply S3. exact Hx.
Qed.

(** The mantissa cut down to the target exponent has at most 53 bits, and
    exactly 53 above the smallest exponent. *)
Lemma quotient_bounds (mx : positive) (ex : Z) :
  let e1 := fexp prec emax (Zpos (digits2_pos mx) + ex) in
  let m1 := Zpos mx / 2 ^ (e1 - ex) in
  ex <= e1 ->
  -1074 <= e1 /\ 0 <= m1 < 2 ^ 53 /\ (-1074 < e1 -> 2 ^ 52 <= m1).
Proof.
  intros e1 m1 He. subst m1. unfold e1 in *. rewrite fexp_eq in *.
  pose proof (digits2_pos_bounds mx) as (B1 & B2).
  set (d := Zpos (digits2_pos mx)) in *.
  set (n := Z.max (d + ex - 53) (-1074) - ex) in *.
  assert (Hn : 0 <= n) by lia.
  assert (Hp : 0 < 2 ^ n) by (apply Z.pow_pos_nonneg; lia).
  split; [lia|]. split; [split|].
  - apply Z.div_pos; lia.
  - apply Z.div_lt_upper_bound; [exact Hp|].
    rewrite <- Z.pow_add_r by lia.
    apply Z.lt_le_trans with (1 := B2).
    apply Z.pow_le_mono_r; lia.
  - intros H. apply Z.div_le_lower_bound; [exact Hp|].
    rewrite <- Z.pow_add_r by lia.
    replace (n + 52) with (d - 1) by lia. exact B1.
Qed.

(** A rounded positive quantity does not jump over a number of the format:
    a number above the exact quantity is not below the rounded one, and a
    number below the exact quantity is not above the rounded one. *)
Lemma round_sandwich (mx mf : positive) (ex ef : Z) :
  let e1 := fexp prec emax (Zpos (digits2_pos mx) + ex) in
  let r := binary_round_aux prec emax false (Zpos mx) ex loc_Exact in
  -1200 <= ex ->
  ex <= e1 ->
  valid_binary (S754_finite false mf ef) = true ->
  (Zpos mx * weight ex <= Zpos mf * weight ef ->
   rank r <= Zpos mf * weight ef)
  /\ (Zpos mf * weight ef <= Zpos mx * weight ex ->
      Zpos mf * weight ef <= rank r).
Proof.
  intros e1 r Hex He Vf. subst r.
  destruct (round_shape false mx ex He) as (m2 & -> & Hm2 & Hinexact).
  destruct (quotient_bounds mx ex He) as (He1 & Hm1 & Hcanon).
  fold e1 in Hm2, Hinexact, He1, Hm1, Hcanon. fold e1.
  set (m1 := Zpos mx / 2 ^ (e1 - ex)) in *.
  destruct (finish_rank false m2 e1 ltac:(lia) He1 ltac:(lia))
    as (_ & _ & ->).
  cbn [cond_Zopp].
  destruct (valid_finite _ _ _ Vf) as (Bef & Bmf & Cmf).
  pose proof (finite_rank_bounds _ _ _ Vf) as (F0 & Finf).
  set (n := e1 - ex) in *.
  assert (Hn : 0 <= n) by lia.
  assert (HT : 0 < 2 ^ n) by (apply Z.pow_pos_nonneg; lia).
  pose proof (weight_pos ex Hex) as HW.
  assert (Hw1 : weight e1 = 2 ^ n * weight ex).
  { replace e1 with (ex + n) by lia. apply weight_add; lia. }
  pose proof (Z.div_mod (Zpos mx) (2 ^ n) ltac:(lia)) as Hdm.
  pose proof (Z.mod_pos_bound (Zpos mx) (2 ^ n) HT) as Hrem.
  fold m1 in Hdm.
  set (rem := Zpos mx mod 2 ^ n) in *.
  set (T := 2 ^ n) in *. set (W := weight ex) in *.
  set (F := Zpos mf * weight ef) in *.
  assert (HX : Zpos mx * W = m1 * weight e1 + rem * W)
    by (rewrite Hw1, Hdm; ring).
  assert (Hw1pos : 0 < weight e1) by (rewrite Hw1; lia).
  (* a number of the format on the grid of [e1], or below [2^52] there *)
  assert (Hgrid : (exists g, F = g * weight e1)
                  \/ (F < m1 * weight e1 /\ ef < e1)).
  { destruct (Z.le_gt_cases e1 ef) as [L|L].
    - left. exists (Zpos mf * 2 ^ (ef - e1)). unfold F.
      replace ef with (e1 + (ef - e1)) at 1 by lia.
      rewrite weight_add by lia. ring.
    - right. split; [|exact L].
      pose proof (weight_lt ef e1 ltac:(lia) L) as Hlt.
      pose proof (weight_pos ef ltac:(lia)) as Hwf.
      specialize (Hcanon ltac:(lia)).
      unfold F.
      change (2 ^ 53) with 9007199254740992 in *.
      change (2 ^ 52) with 4503599627370496 in *. nia. }
  split.
  - intros HXF. apply Z.le_trans with (m2 * weight e1); [apply Z.le_min_l|].
    destruct (Z.eq_dec m2 m1) as [E|E].
    + rewrite E. nia.
    + assert (E' : m2 = m1 + 1) by lia.
      assert (Hr : 0 < rem) by (specialize (Hinexact E'); lia).
      destruct Hgrid as [(g & Hg)|(Hlow & _)]; [|nia].
      rewrite Hg in *. rewrite E'.
      apply Z.mul_le_mono_nonneg_r; [lia|].
      assert (m1 * weight e1 < g * weight e1) by nia.
      apply Z.mul_lt_mono_pos_r in H; lia.
  - intros HFX. apply Z.min_glb; [|lia].
    apply Z.le_trans with (m1 * weight e1);
      [|apply Z.mul_le_mono_nonneg_r; lia].
    destruct Hgrid as [(g & Hg)|(Hlow & _)]; [|lia].
    rewrite Hg in *.
    apply Z.mul_le_mono_nonneg_r; [lia|].
    assert (g * weight e1 < (m1 + 1) * weight e1) by (rewrite Hw1 in *; nia).
    apply Z.mul_lt_mono_pos_r in H; lia.
Qed.

(** The result of rounding is a number of the format with the sign asked
    for. *)
Lemma round_valid (sx : bool) (mx : positive) (ex : Z) :
  let e1 := fexp prec emax (Zpos (digits2_pos mx) + ex) in
  let r := binary_round_aux prec emax sx (Zpos mx) ex loc_Exact in
  ex <= e1 ->
  valid_binary r = true /\ r <> S754_nan
  /\ (if sx then rank r <= 0 else 0 <= rank r).
Proof.
  intros e1 r He. subst r.
  destruct (round_shape sx mx ex He) as (m2 & -> & Hm2 & _).
  destruct (quotient_bounds mx ex He) as (He1 & Hm1 & Hcanon).
  fold e1 in Hm2, He1, Hm1, Hcanon. fold e1.
  destruct (finish_rank sx m2 e1 ltac:(lia) He1 ltac:(lia))
    as (V & N & ->).
  split; [exact V|]. split; [exact N|].
  pose proof (weight_pos e1 ltac:(lia)).
  pose proof (weight_pos 971 ltac:(lia)).
  assert (0 <= Z.min (m2 * weight e1) (2 ^ 53 * weight 971)).
  { apply Z.min_glb; [nia|]. change (2 ^ 53) with 9007199254740992. lia. }
  destruct sx; cbn [cond_Zopp]; lia.
Qed.

(** *** Shifting left *)

Lemma iter_xO_value (m d : positive) :
  Zpos (Pos.iter xO m d) = Zpos m * 2 ^ Zpos d
  /\ Zpos (digits2_pos (Pos.iter xO m d)) = Zpos (digits2_pos m) + Zpos d.
Proof.
  induction d as [|d IH] using Pos.peano_ind.
  - simpl Pos.iter. simpl digits2_pos. rewrite Pos2Z.inj_succ.
    split; [rewrite Pos2Z.inj_xO; lia | lia].
  - rewrite Pos.iter_succ. simpl digits2_pos.
    rewrite !Pos2Z.inj_succ, Pos2Z.inj_xO.
    destruct IH as (IH1 & IH2). rewrite IH1, IH2.
    rewrite Z.pow_succ_r by lia. split; lia.
Qed.

(** [shl_align] towards an exponent that is not above keeps the value. *)
Lemma shl_align_value (mx : positive) (ex ez : Z) :
  -1200 <= ez -> ez <= ex ->
  Zpos (fst (shl_align mx ex ez)) * weight ez = Zpos mx * weight ex.
Proof.
  intros Hz He. unfold shl_align.
  destruct (ez - ex) as [|p|p] eqn:E; simpl fst.
  - replace ez with ex by lia. reflexivity.
  - lia.
  - destruct (iter_xO_value mx p) as (V & _). rewrite V.
    replace ex with (ez + Zpos p) by lia.
    rewrite weight_add by lia. ring.
Qed.

(** [binary_round] first brings the mantissa down to the target exponent:
    what it hands to [binary_round_aux] has the same value and an exponent
    not above its target. *)
Lemma binary_round_aligned (sx : bool) (mx : positive) (ex : Z) :
  -1200 <= ex ->
  exists (mz : positive) (ez : Z),
    binary_round prec emax sx mx ex
    = binary_round_aux prec emax sx (Zpos mz) ez loc_Exact
    /\ -1200 <= ez
    /\ ez <= fexp prec emax (Zpos (digits2_pos mz) + ez)
    /\ Zpos mz * weight ez = Zpos mx * weight ex.
Proof.
  intros Hex. unfold binary_round, shl_align.
  set (t := fexp prec emax (Zpos (digits2_pos mx) + ex)).
  assert (Ht : -1074 <= t) by (unfold t; rewrite fexp_eq; lia).
  destruct (t - ex) as [|p|p] eqn:E.
  - exists mx, ex. fold t. repeat split; lia.
  - exists mx, ex. fold t. repeat split; lia.
  - destruct (iter_xO_value mx p) as (V & Dg).
    exists (Pos.iter xO mx p), t. split; [reflexivity|].
    split; [lia|]. split.
    + rewrite Dg. replace (Zpos (digits2_pos mx) + Zpos p + t)
        with (Zpos (digits2_pos mx) + ex) by lia.
      fold t. lia.
    + rewrite V. replace ex with (t + Zpos p) by lia.
      rewrite weight_add by lia. ring.
Qed.

Lemma binary_round_sandwich (mx mf : positive) (ex ef : Z) :
  let r := binary_round prec emax false mx ex in
  -1200 <= ex ->
  valid_binary (S754_finite false mf ef) = true ->
  (Zpos mx * weight ex <= Zpos mf * weight ef ->
   rank r <= Zpos mf * weight ef)
  /\ (Zpos mf * weight ef <= Zpos mx * weight ex ->
      Zpos mf * weight ef <= rank r).
Proof.
  intros r Hex Vf. subst r.
  destruct (binary_round_aligned false mx ex Hex)
    as (mz & ez & -> & Hez & Ht & <-).
  exact (round_sandwich mz mf ez ef Hez Ht Vf).
Qed.

Lemma binary_round_valid (sx : bool) (mx : positive) (ex : Z) :
  let r := binary_round prec emax sx mx ex in
  -1200 <= ex ->
  valid_binary r = true /\ r <> S754_nan
  /\ (if sx then rank r <= 0 else 0 <= rank r).
Proof.
  intros r Hex. subst r.
  destruct (binary_round_aligned sx mx ex Hex)
    as (mz & ez & -> & Hez & Ht & _).
  exact (round_valid sx mz ez Ht).
Qed.

(** *** Rounding never gives NaN *)

Lemma shr_1_nonneg (mrs : shr_record) :
  0 <= shr_m mrs -> 0 <= shr_m (shr_1 mrs).
Proof.
  intros H. destruct (shr_1_fields mrs H) as (F & _). rewrite F.
  apply Z.div_pos; lia.
Qed.

Lemma shr_fexp_nonneg (m e : Z) (l : location) :
  0 <= m -> 0 <= shr_m (fst (shr_fexp prec emax m e l)).
Proof.
  intros H. unfold shr_fexp, shr.
  assert (H0 : 0 <= shr_m (shr_record_of_loc m l))
    by (destruct l as [|[| |]]; exact H).
  destruct (fexp prec emax (Zdigits2 m + e) - e) as [|p|p]; simpl fst;
    try exact H0.
  rewrite iter_pos_nat.
  apply Nat.iter_invariant; [apply shr_1_nonneg | exact H0].
Qed.

Lemma round_nearest_even_nonneg (m : Z) (l : location) :
  0 <= m -> 0 <= round_nearest_even m l.
Proof.
  destruct l as [|[| |]]; simpl; try destruct (Z.even m); lia.
Qed.

Lemma binary_round_aux_not_nan (sx : bool) (mx ex : Z) (lx : location) :
  0 <= mx -> binary_round_aux prec emax sx mx ex lx <> S754_nan.
Proof.
  intros H. unfold binary_round_aux.
  pose proof (shr_fexp_nonneg mx ex lx H) as H1.
  destruct (shr_fexp prec emax mx ex lx) as [mrs1 e1]. simpl fst in H1.
  pose proof (shr_fexp_nonneg _ e1 loc_Exact
                (round_nearest_even_nonneg _ (loc_of_shr_record mrs1) H1))
    as H2.
  destruct (shr_fexp prec emax _ e1 loc_Exact) as [mrs2 e2].
  simpl fst in H2.
  destruct (shr_m mrs2); [discriminate| |lia].
  destruct (_ <=? _); discriminate.
Qed.

Lemma SFdiv_core_binary_nonneg (m1 e1 m2 e2 : Z) :
  0 <= m1 -> 0 < m2 ->
  0 <= fst (fst (SFdiv_core_binary prec emax m1 e1 m2 e2)).
Proof.
  intros H1 H2. unfold SFdiv_core_binary.
  set (s := e1 - e2 - _).
  set (m' := match s with
             | 0 => m1
             | Zpos _ => Z.shiftl m1 s
             | Zneg _ => 0
             end).
  assert (Hm : 0 <= m').
  { unfold m'. destruct s; [exact H1| |lia].
    apply Z.shiftl_nonneg. exact H1. }
  pose proof (Z_div_mod m' m2 ltac:(lia)) as Hdm.
  destruct (Z.div_eucl m' m2) as [q r]. simpl. nia.
Qed.

(** The whole part of a number between [lo] and [hi]. *)
Lemma whole_part_range (m : positive) (e lo hi : Z) :
  valid_binary (S754_finite false m e) = true ->
  0 < lo -> hi < 2 ^ 52 ->
  lo * weight 0 <= Zpos m * weight e <= hi * weight 0 ->
  e < 0 /\ lo <= Zpos m / 2 ^ (- e) <= hi.
Proof.
  intros V Hlo Hhi (H1 & H2).
  destruct (valid_finite _ _ _ V) as (Be & Bm & Cm).
  pose proof (weight_pos e ltac:(lia)) as Hwe.
  pose proof (weight_pos 0 ltac:(lia)) as Hw0.
  assert (He : e < 0).
  { destruct (Z.lt_ge_cases e 0) as [L|L]; [exact L|exfalso].
    specialize (Cm ltac:(lia)).
    pose proof (weight_mono 0 e ltac:(lia) L). nia. }
  split; [exact He|].
  assert (Hw : weight 0 = 2 ^ (- e) * weight e).
  { replace 0 with (e + - e) at 1 by lia. apply weight_add; lia. }
  assert (HT : 0 < 2 ^ (- e)) by (apply Z.pow_pos_nonneg; lia).
  rewrite Hw in H1, H2. split.
  - apply Z.div_le_lower_bound; [exact HT|]. nia.
  - apply Z.div_le_upper_bound; [exact HT|]. nia.
Qed.

Local Close Scope Z_scope.

(** ** The two roundings of [handleToggleCrop] *)

Local Open Scope Z_scope.

(** [D * 0.75] for a positive finite [D = m * 2^e]: a number, not above
    [D], and on the same side as three quarters of [D] of every number of
    the format. *)
Lemma three_quarters_round (m : positive) (e : Z) :
  valid_binary (S754_finite false m e) = true ->
  let r := SF64mul (S754_finite false m e) (Prim2SF 0.75) in
  r <> S754_nan
  /\ 0 <= rank r <= Zpos m * weight e
  /\ (forall (mf : positive) (ef : Z),
         valid_binary (S754_finite false mf ef) = true ->
         (3 * (Zpos m * weight e) <= 4 * (Zpos mf * weight ef) ->
          rank r <= Zpos mf * weight ef)
         /\ (4 * (Zpos mf * weight ef) <= 3 * (Zpos m * weight e) ->
             Zpos mf * weight ef <= rank r)).
Proof.
  intros V r.
  destruct (valid_finite _ _ _ V) as (Be & Bm & _).
  change (Prim2SF 0.75)
    with (S754_finite false 6755399441055744 (-53)) in r.
  change r with (binary_round_aux prec emax false
                   (Zpos (m * 6755399441055744)) (e + -53) loc_Exact).
  clear r.
  set (mx := (m * 6755399441055744)%positive).
  assert (Hmx : Zpos mx = Zpos m * 6755399441055744)
    by (unfold mx; apply Pos2Z.inj_mul).
  assert (Hd : 52 < Zpos (digits2_pos mx)).
  { apply digits_ge; [lia|]. rewrite Hmx.
    change (2 ^ 52) with 4503599627370496. lia. }
  assert (He : e + -53
               <= fexp prec emax (Zpos (digits2_pos mx) + (e + -53)))
    by (rewrite fexp_eq; lia).
  assert (Hw : weight e = 2 ^ 53 * weight (e + -53)).
  { replace e with ((e + -53) + 53) at 1 by lia.
    apply weight_add; lia. }
  pose proof (weight_pos (e + -53) ltac:(lia)) as Hpos.
  change (2 ^ 53) with 9007199254740992 in Hw.
  assert (HX : 4 * (Zpos mx * weight (e + -53)) = 3 * (Zpos m * weight e))
    by (rewrite Hmx, Hw; ring).
  destruct (round_valid false mx (e + -53) He) as (_ & N & P).
  split; [exact N|]. split.
  - split; [exact P|].
    apply (proj1 (round_sandwich mx m (e + -53) e ltac:(lia) He V)). nia.
  - intros mf ef Vf.
    destruct (round_sandwich mx mf (e + -53) ef ltac:(lia) He Vf)
      as (S1 & S2).
    split; intros H; [apply S1 | apply S2]; lia.
Qed.

(** [D - 1] for a positive finite [D = m * 2^e]: a number, and not above
    any number of the format that [D] less one is not above. *)
Lemma minus_one_round (m : positive) (e : Z) :
  valid_binary (S754_finite false m e) = true ->
  let r := SF64sub (S754_finite false m e) (Prim2SF 1) in
  r <> S754_nan
  /\ (forall (mf : positive) (ef : Z),
         valid_binary (S754_finite false mf ef) = true ->
         Zpos m * weight e - 4503599627370496 * weight (-52)
         <= Zpos mf * weight ef ->
         rank r <= Zpos mf * weight ef).
Proof.
  intros V r.
  destruct (valid_finite _ _ _ V) as (Be & Bm & _).
  change (Prim2SF 1)
    with (S754_finite false 4503599627370496 (-52)) in r.
  set (ez := Z.min e (-52)).
  set (A := fst (shl_align m e ez)).
  set (B := fst (shl_align 4503599627370496 (-52) ez)).
  change r with (binary_normalize prec emax (Zpos A - Zpos B) ez false).
  clear r.
  pose proof (shl_align_value m e ez ltac:(lia) ltac:(lia)) as HA.
  pose proof (shl_align_value 4503599627370496 (-52) ez
                ltac:(lia) ltac:(lia)) as HB.
  fold A in HA. fold B in HB.
  pose proof (weight_pos ez ltac:(lia)) as Hw.
  unfold binary_normalize.
  destruct (Zpos A - Zpos B) as [|z|z] eqn:E.
  - split; [discriminate|]. intros mf ef Vf _.
    pose proof (finite_rank_bounds _ _ _ Vf). cbn [rank]. lia.
  - destruct (binary_round_valid false z ez ltac:(lia)) as (_ & N & _).
    split; [exact N|]. intros mf ef Vf H.
    apply (proj1 (binary_round_sandwich z mf ez ef ltac:(lia) Vf)).
    rewrite <- E. nia.
  - destruct (binary_round_valid true z ez ltac:(lia)) as (_ & N & P).
    split; [exact N|]. intros mf ef Vf _.
    pose proof (finite_rank_bounds _ _ _ Vf). lia.
Qed.

Local Close Scope Z_scope.

(** ** The order of the primitive numbers *)

Lemma not_nan_SF (x : float) : is_nan x = false <-> Prim2SF x <> S754_nan.
Proof.
  rewrite is_nan_SF. destruct (Prim2SF x); split; congruence.
Qed.

Lemma ltb_rank (x y : float) :
  is_nan x = false -> is_nan y = false ->
  (x <? y) = (rank (Prim2SF x) <? rank (Prim2SF y))%Z.
Proof.
  intros Nx Ny. rewrite FloatAxioms.ltb_spec. unfold SFltb, Z.ltb.
  rewrite (rank_compare _ _ (Prim2SF_valid x) (Prim2SF_valid y)
             (proj1 (not_nan_SF x) Nx) (proj1 (not_nan_SF y) Ny)).
  reflexivity.
Qed.

Lemma leb_rank (x y : float) :
  is_nan x = false -> is_nan y = false ->
  (x <=? y) = (rank (Prim2SF x) <=? rank (Prim2SF y))%Z.
Proof.
  intros Nx Ny. rewrite FloatAxioms.leb_spec. unfold SFleb, Z.leb.
  rewrite (rank_compare _ _ (Prim2SF_valid x) (Prim2SF_valid y)
             (proj1 (not_nan_SF x) Nx) (proj1 (not_nan_SF y) Ny)).
  destruct (rank (Prim2SF x) ?= rank (Prim2SF y))%Z; reflexivity.
Qed.

(** [Math.max] of two numbers is the one of larger value. *)
Lemma Math_max_rank (a b : float) :
  is_nan a = false -> is_nan b = false ->
  is_nan (Math_max a b) = false
  /\ rank (Prim2SF (Math_max a b))
     = Z.max (rank (Prim2SF a)) (rank (Prim2SF b)).
Proof.
  intros Na Nb. unfold Math_max. rewrite Na, Nb. simpl.
  rewrite (ltb_rank a b Na Nb), (ltb_rank b a Nb Na).
  destruct (Z.ltb_spec (rank (Prim2SF a)) (rank (Prim2SF b))) as [L|L].
  - split; [exact Nb | lia].
  - destruct (Z.ltb_spec (rank (Prim2SF b)) (rank (Prim2SF a))) as [L'|L'].
    + split; [exact Na | lia].
    + destruct (is_neg_zero a); split; try assumption; lia.
Qed.

(** A positive finite number of the format sits below, on, or above the
    binade of 1. *)
Lemma binade_of_one (m c : positive) (e : Z) :
  valid_binary (S754_finite false m e) = true ->
  valid_binary (S754_finite false c (-52)) = true ->
  (Zpos m * weight e < Zpos c * weight (-52) /\ e < -52)%Z
  \/ e = (-52)%Z
  \/ (Zpos c * weight (-52) < Zpos m * weight e /\ -52 < e)%Z.
Proof.
  intros V Vc.
  destruct (Z.lt_trichotomy e (-52)) as [L|[L|L]].
  - left. split; [|exact L]. exact (canonical_lt _ _ _ _ _ _ V Vc L).
  - right. left. exact L.
  - right. right. split; [|exact L]. exact (canonical_lt _ _ _ _ _ _ Vc V L).
Qed.

(** The end marker that [handleToggleCrop] computes for a positive
    duration [D] is not above [D], and it is above 1 exactly when [D] is
    above [0x1.5555555555556p+0], the number of the format next above
    4/3. *)
Lemma default_end_bounds (D : float) :
  (0 <? D) = true ->
  (Math_max (D - 1) (D * 0.75) <=? D) = true
  /\ (1 <? Math_max (D - 1) (D * 0.75)) = (0x1.5555555555556p+0 <? D).
Proof.
  intros Hpos.
  destruct (ltb_not_nan 0 D Hpos) as (_ & ND).
  pose proof (Prim2SF_valid D) as V.
  pose proof Hpos as Hpos'. rewrite FloatAxioms.ltb_spec in Hpos'.
  change (Prim2SF 0) with (S754_zero false) in Hpos'.
  destruct (Prim2SF D) as [s|s| |s m e] eqn:E; try discriminate.
  - (* D is +infinity *)
    destruct s; [discriminate|].
    assert (HD : D = infinity) by (apply Prim2SF_inj; rewrite E; reflexivity).
    subst D. split; reflexivity.
  - destruct s; [discriminate|].
    destruct (minus_one_round m e V) as (Na & Ua).
    destruct (three_quarters_round m e V) as (Nb & (Pb & Ub) & Sb).
    rewrite <- E, <- sub_spec in Na, Ua.
    rewrite <- E, <- mul_spec in Nb, Pb, Ub, Sb.
    apply not_nan_SF in Na, Nb.
    destruct (Math_max_rank _ _ Na Nb) as (Nmax & Rmax).
    rewrite (leb_rank _ _ Nmax ND), (ltb_rank 1 _ eq_refl Nmax),
      (ltb_rank 0x1.5555555555556p+0 D eq_refl ND), Rmax, E.
    change (Prim2SF 1) with (S754_finite false 4503599627370496 (-52)).
    change (Prim2SF 0x1.5555555555556p+0)
      with (S754_finite false 6004799503160662 (-52)).
    cbn [rank cond_Zopp].
    pose proof (weight_pos (-52) ltac:(lia)) as Hw.
    pose proof (weight_pos e
                  ltac:(destruct (valid_finite _ _ _ V); lia)) as Hwe.
    set (RD := (Zpos m * weight e)%Z) in *.
    set (W := weight (-52)) in *.
    set (Ra := rank (Prim2SF (D - 1))) in *.
    set (Rb := rank (Prim2SF (D * 0.75))) in *.
    assert (HaD : (Ra <= RD)%Z) by (apply (Ua m e V); lia).
    split; [apply Z.leb_le; lia|].
    destruct (binade_of_one m 6004799503160662 e V eq_refl)
      as [(B1 & B2)|[B|(B1 & B2)]].
    + (* below 1 *)
      fold RD W in B1.
      destruct (binade_of_one m 4503599627370496 e V eq_refl)
        as [(C1 & _)|[C|(_ & C2)]]; [|lia|lia]. fold RD W in C1.
      assert (Hb1 : (Rb <= 4503599627370496 * W)%Z)
        by (apply (proj1 (Sb 4503599627370496%positive (-52)%Z eq_refl));
            fold W; lia).
      assert (Ha1 : (Ra <= 4503599627370496 * W)%Z)
        by (apply (Ua 4503599627370496%positive (-52)%Z eq_refl);
            fold W; lia).
      destruct (Z.ltb_spec (4503599627370496 * W)%Z (Z.max Ra Rb));
        destruct (Z.ltb_spec (6004799503160662 * W)%Z RD);
        try reflexivity; lia.
    + (* in the binade of 1: the mantissa decides *)
      subst e. fold W in RD. subst RD.
      destruct (Z.lt_trichotomy (Zpos m) 6004799503160662) as [L|[L|L]].
      * assert (Hb1 : (Rb <= 4503599627370496 * W)%Z)
          by (apply (proj1 (Sb 4503599627370496%positive (-52)%Z eq_refl));
              fold W; nia).
        assert (Ha1 : (Ra <= 4503599627370496 * W)%Z)
          by (apply (Ua 4503599627370496%positive (-52)%Z eq_refl);
              fold W; nia).
        destruct (Z.ltb_spec (4503599627370496 * W)%Z (Z.max Ra Rb));
          destruct (Z.ltb_spec (6004799503160662 * W)%Z (Zpos m * W)%Z);
          try reflexivity; nia.
      * assert (HD : D = 0x1.5555555555556p+0).
        { apply Prim2SF_inj. rewrite E.
          change (Prim2SF 0x1.5555555555556p+0)
            with (S754_finite false 6004799503160662 (-52)).
          f_equal. lia. }
        assert (Hb1 : (Rb = 4503599627370496 * W)%Z)
          by (unfold Rb; rewrite HD; reflexivity).
        assert (Ha1 : (Ra <= 4503599627370496 * W)%Z)
          by (apply (Ua 4503599627370496%positive (-52)%Z eq_refl);
              fold W; nia).
        destruct (Z.ltb_spec (4503599627370496 * W)%Z (Z.max Ra Rb));
          destruct (Z.ltb_spec (6004799503160662 * W)%Z (Zpos m * W)%Z);
          try reflexivity; nia.
      * assert (Hb1 : (4503599627370497 * W <= Rb)%Z)
          by (apply (proj2 (Sb 4503599627370497%positive (-52)%Z eq_refl));
              fold W; nia).
        destruct (Z.ltb_spec (4503599627370496 * W)%Z (Z.max Ra Rb));
          destruct (Z.ltb_spec (6004799503160662 * W)%Z (Zpos m * W)%Z);
          try reflexivity; nia.
    + (* above the binade of 1 *)
      fold RD W in B1.
      destruct (binade_of_one m 6004799503160663 e V eq_refl)
        as [(_ & C2)|[C|(C1 & _)]]; [lia|lia|]. fold RD W in C1.
      assert (Hb1 : (4503599627370497 * W <= Rb)%Z)
        by (apply (proj2 (Sb 4503599627370497%positive (-52)%Z eq_refl));
            fold W; lia).
      destruct (Z.ltb_spec (4503599627370496 * W)%Z (Z.max Ra Rb));
        destruct (Z.ltb_spec (6004799503160662 * W)%Z RD);
        try reflexivity; lia.
Qed.

(** ** The placeholder counts are numbers in range *)

Lemma mul_two_not_nan (D : float) :
  is_nan D = false -> is_nan (D * 2) = false.
Proof.
  intros N. apply not_nan_SF. rewrite mul_spec.
  change (Prim2SF 2) with (S754_finite false 4503599627370496 (-51)).
  apply not_nan_SF in N.
  destruct (Prim2SF D) as [s|s| |s m e]; try discriminate; [congruence|].
  apply binary_round_aux_not_nan. discriminate.
Qed.

Lemma div_three_not_nan (D : float) :
  is_nan D = false -> is_nan (D / 3) = false.
Proof.
  intros N. apply not_nan_SF. rewrite div_spec.
  change (Prim2SF 3) with (S754_finite false 6755399441055744 (-51)).
  apply not_nan_SF in N.
  destruct (Prim2SF D) as [s|s| |s m e]; try discriminate; [congruence|].
  unfold SF64div, SFdiv.
  pose proof (SFdiv_core_binary_nonneg (Zpos m) e (Zpos 6755399441055744)
                (-51) ltac:(discriminate) ltac:(reflexivity)) as Hq.
  destruct (SFdiv_core_binary prec emax (Zpos m) e
              (Zpos 6755399441055744) (-51)) as [[mz ez] lz].
  simpl in Hq. apply binary_round_aux_not_nan. exact Hq.
Qed.

Lemma of_uint63_not_nan (n : PrimInt63.int) : is_nan (of_uint63 n) = false.
Proof.
  apply not_nan_SF. rewrite of_uint63_spec. unfold binary_normalize.
  pose proof (Uint63.to_Z_bounded n) as (B & _).
  destruct (Uint63Axioms.to_Z n) as [|p|p]; [discriminate| |lia].
  exact (proj1 (proj2 (binary_round_valid false p 0 ltac:(lia)))).
Qed.

Lemma opp_not_nan (x : float) : is_nan x = false -> is_nan (- x) = false.
Proof.
  intros N. apply not_nan_SF. rewrite opp_spec. apply not_nan_SF in N.
  destruct (Prim2SF x); try discriminate; congruence.
Qed.

Lemma Math_ceil_not_nan (x : float) :
  is_nan x = false -> is_nan (Math_ceil x) = false.
Proof.
  intros N. unfold Math_ceil.
  destruct (Prim2SF x) as [s|s| |s m e]; try exact N.
  destruct (0 <=? e)%Z; [exact N|].
  destruct s; [apply opp_not_nan|]; apply of_uint63_not_nan.
Qed.

(** A clamped number lies between the bounds. *)
Lemma clamp_rank (v lo hi : float) :
  is_nan v = false -> (lo <? hi) = true ->
  is_nan (clamp v lo hi) = false
  /\ (rank (Prim2SF lo) <= rank (Prim2SF (clamp v lo hi))
      <= rank (Prim2SF hi))%Z.
Proof.
  intros Nv Hlh. destruct (ltb_not_nan lo hi Hlh) as (Nl & Nh).
  rewrite (ltb_rank lo hi Nl Nh) in Hlh. apply Z.ltb_lt in Hlh.
  unfold clamp. rewrite (ltb_rank v lo Nv Nl), (ltb_rank hi v Nh Nv).
  destruct (Z.ltb_spec (rank (Prim2SF v)) (rank (Prim2SF lo))).
  - split; [exact Nl | lia].
  - destruct (Z.ltb_spec (rank (Prim2SF hi)) (rank (Prim2SF v))).
    + split; [exact Nh | lia].
    + split; [exact Nv | lia].
Qed.

(** [ToLength] of a number between two positive integers below [2^52]. *)
Lemma ToLength_range (v : float) (lo hi : Z) :
  (0 < lo)%Z -> (hi < 2 ^ 52)%Z ->
  (lo * weight 0 <= rank (Prim2SF v) <= hi * weight 0)%Z ->
  (lo <= ToLength v <= hi)%Z.
Proof.
  intros Hlo Hhi H. unfold ToLength.
  pose proof (Prim2SF_valid v) as V.
  pose proof (weight_pos 0 ltac:(lia)) as Hw0.
  destruct (Prim2SF v) as [s|s| |s m e]; cbn [rank cond_Zopp] in H;
    try nia.
  - (* an infinity is beyond the range *)
    exfalso. pose proof (weight_mono 0 971 ltac:(lia) ltac:(lia)).
    change (2 ^ 53)%Z with 9007199254740992%Z in H.
    change (2 ^ 52)%Z with 4503599627370496%Z in Hhi.
    destruct s; cbn [cond_Zopp] in H; nia.
  - destruct s; cbn [cond_Zopp] in H.
    + pose proof (finite_rank_bounds _ _ _ V). nia.
    + destruct (whole_part_range m e lo hi V Hlo Hhi H) as (He & Hq).
      destruct (Z.leb_spec 0 e) as [L|L]; [lia|].
      change (2 ^ 52)%Z with 4503599627370496%Z in Hhi.
      change (2 ^ 53 - 1)%Z with 9007199254740991%Z. lia.
Qed.

(** ** Facts about the handlers *)

Lemma runStates_app (evs1 evs2 : list Event) (c : Component) :
  runStates (evs1 ++ evs2) c
  = runStates evs1 c ++ runStates evs2 (run evs1 c).
Proof.
  revert c. induction evs1 as [|ev evs1 IH]; intros c; simpl.
  - reflexivity.
  - rewrite IH. reflexivity.
Qed.

Lemma run_app (evs1 evs2 : list Event) (c : Component) :
  run (evs1 ++ evs2) c = run evs2 (run evs1 c).
Proof. unfold run. apply fold_left_app. Qed.

Lemma atRest_inSync (c : Component) : atRest c -> ordered c /\ inSync c.
Proof.
  intros (_ & Ho & Hl). split; [exact Ho|].
  intros r Hr. rewrite Hl in Hr. destruct Hr.
Qed.

Lemma grasped_inSync (m : MarkerType) (r : Render) (c : Component) :
  grasped m r c -> ordered c /\ inSync c.
Proof.
  intros (_ & Ho & Hl & _ & Ha & Hs). split; [exact Ho|].
  intros r' Hr'. rewrite Hl in Hr'. destruct Hr' as [<-|[]].
  rewrite Ha. destruct m; exact Hs.
Qed.

Lemma mouseDown_grasps (m : MarkerType) (c : Component) :
  atRest c -> grasped m (render c) (step (MarkerMouseDown m) c).
Proof.
  intros (Hm & Ho & Hl). unfold step. rewrite Hm.
  unfold handleMarkerMouseDown, addEventListener. simpl. rewrite Hl. simpl.
  unfold grasped, ordered. simpl. repeat split; try assumption.
  destruct m; reflexivity.
Qed.

Lemma seek_fields (t : float) (c : Component) :
  cropMode (seek t c) = cropMode c
  /\ cropStartTime (seek t c) = cropStartTime c
  /\ cropEndTime (seek t c) = cropEndTime c
  /\ documentListeners (seek t c) = documentListeners c
  /\ isDraggingRef (seek t c) = isDraggingRef c
  /\ activeMarkerRef (seek t c) = activeMarkerRef c
  /\ componentValues (seek t c) = componentValues c
  /\ dynamicThumbnailCount (seek t c) = dynamicThumbnailCount c
  /\ dynamicWaveformCount (seek t c) = dynamicWaveformCount c.
Proof. unfold seek. destruct (videoRef c); simpl; repeat split. Qed.

Lemma drag_keeps_grasp (m : MarkerType) (r : Render) (e : MouseEvent)
    (c : Component) :
  grasped m r c -> grasped m r (handleMarkerDrag r e c).
Proof.
  intros G. pose proof G as (Hm & Ho & Hl & Hd & Ha & Hs).
  unfold handleMarkerDrag. rewrite Hd, Ha.
  destruct (timelineRef c) as [timeline|]; [|exact G].
  destruct m.
  - destruct (newTime r timeline e <? r_cropEndTime r) eqn:E; [|exact G].
    destruct (seek_fields (newTime r timeline e)
                (setCropStartTime (newTime r timeline e) c))
      as (F1 & F2 & F3 & F4 & F5 & F6 & _).
    unfold grasped, ordered. rewrite F1, F2, F3, F4, F5, F6. simpl.
    rewrite <- Hs. repeat split; assumption.
  - destruct (r_cropStartTime r <? newTime r timeline e) eqn:E; [|exact G].
    destruct (seek_fields (newTime r timeline e)
                (setCropEndTime (newTime r timeline e) c))
      as (F1 & F2 & F3 & F4 & F5 & F6 & _).
    unfold grasped, ordered. rewrite F1, F2, F3, F4, F5, F6. simpl.
    rewrite <- Hs. repeat split; assumption.
Qed.

Lemma sessionEvent_keeps_grasp (m : MarkerType) (r : Render)
    (s : SessionEvent) (c : Component) :
  grasped m r c -> grasped m r (step (sessionEvent s) c).
Proof.
  intros G. destruct s as [e|rect]; simpl.
  - destruct G as (Hm & Ho & Hl & Hd & Ha & Hs) eqn:EG. rewrite Hl. simpl.
    apply drag_keeps_grasp. clear EG. repeat split; assumption.
  - exact G.
Qed.

Lemma mouseUp_releases (m : MarkerType) (r : Render) (c : Component) :
  grasped m r c -> atRest (step DocumentMouseUp c).
Proof.
  intros (Hm & Ho & Hl & _). unfold step. rewrite Hl. simpl.
  unfold handleMarkerMouseUp, removeEventListener, atRest, ordered. simpl.
  rewrite Hl. simpl. rewrite Render_eqb_refl. simpl.
  repeat split; assumption.
Qed.

Lemma moves_keep_order (m : MarkerType) (r : Render)
    (evs : list SessionEvent) (c : Component) :
  grasped m r c ->
  Forall (fun c' => ordered c' /\ inSync c')
    (runStates (map sessionEvent evs) c)
  /\ grasped m r (run (map sessionEvent evs) c).
Proof.
  revert c. induction evs as [|s evs IH]; intros c G; simpl.
  - split; [constructor | exact G].
  - pose proof (sessionEvent_keeps_grasp m r s c G) as G'.
    destruct (IH _ G') as (IH1 & IH2). split.
    + constructor; [exact (grasped_inSync m r _ G') | exact IH1].
    + exact IH2.
Qed.

Lemma session_keeps_order (s : Session) (c : Component) :
  atRest c ->
  Forall (fun c' => ordered c' /\ inSync c') (runStates (sessionTrace s) c)
  /\ atRest (run (sessionTrace s) c).
Proof.
  intros R. destruct s as [m evs]. unfold sessionTrace. simpl fst. simpl snd.
  pose proof (mouseDown_grasps m c R) as G.
  destruct (moves_keep_order m (render c) evs _ G) as (M1 & M2).
  pose proof (mouseUp_releases m (render c) _ M2) as R'.
  change (MarkerMouseDown m :: map sessionEvent evs ++ [DocumentMouseUp])
    with ([MarkerMouseDown m] ++ map sessionEvent evs ++ [DocumentMouseUp]).
  rewrite !runStates_app, !run_app. simpl. split.
  - constructor; [exact (grasped_inSync m _ _ G)|].
    apply Forall_app. split; [exact M1|].
    constructor; [exact (atRest_inSync _ R') | constructor].
  - exact R'.
Qed.

Lemma sessions_keep_order (ss : list Session) (c : Component) :
  atRest c ->
  Forall (fun c' => ordered c' /\ inSync c') (runStates (sessionsTrace ss) c).
Proof.
  revert c. induction ss as [|s ss IH]; intros c R.
  - constructor.
  - destruct (session_keeps_order s c R) as (S1 & S2).
    change (sessionsTrace (s :: ss)) with (sessionTrace s ++ sessionsTrace ss).
    rewrite runStates_app. apply Forall_app. split; [exact S1|].
    apply IH. exact S2.
Qed.

Lemma fold_left_keeps {A B : Type} (g : Component -> B)
    (f : Component -> A -> Component) (l : list A) (c : Component) :
  (forall c a, g (f c a) = g c) -> g (fold_left f l c) = g c.
Proof.
  intros H. revert c. induction l as [|a l IH]; intros c; simpl.
  - reflexivity.
  - rewrite IH. apply H.
Qed.

Lemma handleMarkerDrag_componentValues (r : Render) (e : MouseEvent)
    (c : Component) :
  componentValues (handleMarkerDrag r e c) = componentValues c.
Proof.
  unfold handleMarkerDrag.
  destruct (isDraggingRef c); [|reflexivity].
  destruct (timelineRef c) as [timeline|]; [|reflexivity].
  destruct (activeMarkerRef c) as [[|]|]; [| |reflexivity].
  - destruct (_ <? _); [|reflexivity].
    destruct (seek_fields (newTime r timeline e)
                (setCropStartTime (newTime r timeline e) c))
      as (_ & _ & _ & _ & _ & _ & F & _).
    rewrite F. reflexivity.
  - destruct (_ <? _); [|reflexivity].
    destruct (seek_fields (newTime r timeline e)
                (setCropEndTime (newTime r timeline e) c))
      as (_ & _ & _ & _ & _ & _ & F & _).
    rewrite F. reflexivity.
Qed.

Lemma handleMarkerDrag_counts (r : Render) (e : MouseEvent)
    (c : Component) :
  counts (handleMarkerDrag r e c) = counts c.
Proof.
  unfold handleMarkerDrag, counts.
  destruct (isDraggingRef c); [|reflexivity].
  destruct (timelineRef c) as [timeline|]; [|reflexivity].
  destruct (activeMarkerRef c) as [[|]|]; [| |reflexivity].
  - destruct (_ <? _); [|reflexivity].
    destruct (seek_fields (newTime r timeline e)
                (setCropStartTime (newTime r timeline e) c))
      as (_ & _ & _ & _ & _ & _ & _ & F1 & F2).
    rewrite F1, F2. reflexivity.
  - destruct (_ <? _); [|reflexivity].
    destruct (seek_fields (newTime r timeline e)
                (setCropEndTime (newTime r timeline e) c))
      as (_ & _ & _ & _ & _ & _ & _ & F1 & F2).
    rewrite F1, F2. reflexivity.
Qed.

(** Only the arrival of metadata changes the placeholder counts. *)
Lemma step_keeps_counts (ev : Event) (c : Component) :
  isLoadedMetadata ev = false -> counts (step ev c) = counts c.
Proof.
  intros H. destruct ev as [d|rect| | | |m|m|e| ]; simpl;
    try discriminate; try reflexivity.
  - destruct (cropMode c) eqn:Hm; [reflexivity|].
    unfold handleToggleCrop. simpl. rewrite Hm. reflexivity.
  - destruct (cropMode c); reflexivity.
  - destruct (cropMode c); reflexivity.
  - destruct (cropMode c); [|reflexivity].
    unfold handleMarkerMouseDown, addEventListener.
    destruct (existsb _ _); reflexivity.
  - destruct (cropMode c); [|reflexivity].
    unfold handleMarkerDoubleClick.
    destruct (seek_fields (match m with
                           | marker_start => cropStartTime c
                           | marker_end => cropEndTime c
                           end) c)
      as (_ & _ & _ & _ & _ & _ & _ & F1 & F2).
    unfold counts. rewrite F1, F2. reflexivity.
  - apply (fold_left_keeps counts). intros c0 r.
    apply handleMarkerDrag_counts.
  - apply (fold_left_keeps counts). intros c0 r. reflexivity.
Qed.

Lemma run_keeps_counts (evs : list Event) (c : Component) :
  forallb (fun ev => negb (isLoadedMetadata ev)) evs = true ->
  counts (run evs c) = counts c.
Proof.
  revert c. induction evs as [|ev evs IH]; intros c H; simpl in *.
  - reflexivity.
  - apply andb_prop in H. destruct H as (H1 & H2).
    unfold run in *. simpl. rewrite (IH _ H2).
    apply step_keeps_counts. destruct (isLoadedMetadata ev);
      [discriminate|reflexivity].
Qed.

(** ** Sample runs *)

Example Math_samples :
  Math_max 0 neg_zero = 0
  /\ Math_min 0 neg_zero = neg_zero
  /\ Math_max nan 1 = nan
  /\ Math_min 1 infinity = 1
  /\ Math_ceil 100.5 = 101
  /\ Math_ceil (50 / 3) = 17
  /\ Math_ceil (-0.5) = neg_zero
  /\ Math_ceil (-1.5) = -1
  /\ Math_ceil infinity = infinity.
Proof. repeat split. Qed.

Example ToLength_samples :
  ToLength 100 = 100%Z
  /\ ToLength 16.5 = 16%Z
  /\ ToLength nan = 0%Z
  /\ ToLength (-3) = 0%Z
  /\ ToLength infinity = 9007199254740991%Z.
Proof. repeat split. Qed.

(** Ten seconds of video: markers at 1 and 9. *)
Example enter_crop_10 :
  let c := run [LoadedMetadata 10; ClickModoDeCorte] (mount timeline600) in
  cropStartTime c = 1 /\ cropEndTime c = 9.
Proof. split; reflexivity. Qed.

(** The grasped end marker follows the pointer to 5 seconds, and playback
    is sought there. *)
Example drag_end_to_5 :
  let c := step (DocumentMouseMove (mkMouseEvent 25)) graspedEnd120 in
  cropStartTime c = 1 /\ cropEndTime c = 5
  /\ videoRef c = Some (mkVideo 5 120).
Proof. repeat split. Qed.

(** The grasped start marker does not follow the pointer beyond the end
    marker. *)
Example drag_start_too_far :
  step (DocumentMouseMove (mkMouseEvent 650)) graspedStart120
  = graspedStart120.
Proof. reflexivity. Qed.

(** A whole session: pointer-down, two moves, pointer-up. *)
Example session_sample :
  let c := run (sessionTrace (marker_start,
                              [Move (mkMouseEvent 300);
                               Move (mkMouseEvent 650)]))
             cropping120 in
  cropStartTime c = 60 /\ cropEndTime c = 119
  /\ isDraggingRef c = false /\ documentListeners c = [].
Proof. repeat split. Qed.

(** Before any metadata has arrived both lanes show the 100 placeholders
    of the initial state. *)
Example placeholders_before_metadata :
  let args := mkArgs "clip.mp4" None None in
  List.length (audioWaveform args (mount timeline600)) = 100%nat
  /\ List.length (frameThumbnails args (mount timeline600)) = 100%nat.
Proof. split; reflexivity. Qed.

(** Outside the session discipline: after a second pointer-down that no
    pointer-up preceded, the listeners of both renders are registered, and
    those of the first still compare against the start marker of their own
    render. *)
Example second_pointer_down_keeps_first_listener :
  let c := run [MarkerMouseDown marker_start;
                DocumentMouseMove (mkMouseEvent 590);
                MarkerMouseDown marker_end;
                DocumentMouseMove (mkMouseEvent 300)] cropping120 in
  documentListeners c
  = [render cropping120;
     render (run [MarkerMouseDown marker_start;
                  DocumentMouseMove (mkMouseEvent 590)] cropping120)]
  /\ cropStartTime c = 118 /\ cropEndTime c = 60.
Proof. repeat split. Qed.

(** ** Comparisons and the order of values *)

(** A comparison with NaN is false. *)
Lemma leb_not_nan (x y : float) :
  (x <=? y) = true -> is_nan x = false /\ is_nan y = false.
Proof.
  rewrite FloatAxioms.leb_spec, !is_nan_SF. unfold SFleb.
  destruct (Prim2SF x) as [s|s| |s m e], (Prim2SF y) as [s'|s'| |s' m' e'];
    simpl; intros H; try discriminate; split; reflexivity.
Qed.

(** [<=?] holds between two numbers, neither NaN, whose values are in
    that order. *)
Lemma leb_true (x y : float) :
  (x <=? y) = true
  <-> is_nan x = false /\ is_nan y = false
      /\ (rank (Prim2SF x) <= rank (Prim2SF y))%Z.
Proof.
  split.
  - intros H. destruct (leb_not_nan x y H) as (Nx & Ny).
    rewrite (leb_rank x y Nx Ny) in H. apply Z.leb_le in H.
    repeat split; assumption.
  - intros (Nx & Ny & H). rewrite (leb_rank x y Nx Ny).
    apply Z.leb_le. exact H.
Qed.

(** The same for [<?]. *)
Lemma ltb_true (x y : float) :
  (x <? y) = true
  <-> is_nan x = false /\ is_nan y = false
      /\ (rank (Prim2SF x) < rank (Prim2SF y))%Z.
Proof.
  split.
  - intros H. destruct (ltb_not_nan x y H) as (Nx & Ny).
    rewrite (ltb_rank x y Nx Ny) in H. apply Z.ltb_lt in H.
    repeat split; assumption.
  - intros (Nx & Ny & H). rewrite (ltb_rank x y Nx Ny).
    apply Z.ltb_lt. exact H.
Qed.

(** [<=?] is transitive. *)
Lemma leb_trans (x y z : float) :
  (x <=? y) = true -> (y <=? z) = true -> (x <=? z) = true.
Proof.
  intros H1 H2. apply leb_true in H1, H2. apply leb_true.
  destruct H1 as (N1 & _ & H1), H2 as (_ & N2 & H2).
  repeat split; try assumption. lia.
Qed.

(** [<?] gives [<=?]. *)
Lemma ltb_leb (x y : float) : (x <? y) = true -> (x <=? y) = true.
Proof.
  intros H. apply ltb_true in H. apply leb_true.
  destruct H as (N1 & N2 & H). repeat split; try assumption. lia.
Qed.

(** ** Rounding to the nearest number

    [binary_round_aux] rounds to the nearest number of the format, ties to
    even.  The lemmas of the section on rounding bound its result between
    the neighbours of the quantity; here the result is pinned down, which
    gives the monotonicity of the primitive operations.  A quantity is a
    fraction [A / B] of integers in units of [2^-1200], so that products
    and quotients of numbers of the format need no exponent beyond the
    offset. *)

Local Open Scope Z_scope.

(** The exact product of two positive numbers of the format goes to
    [binary_round_aux] at an exponent that is not above its target. *)
Lemma mul_aligned (ma mb : positive) (ea eb : Z) :
  valid_binary (S754_finite false ma ea) = true ->
  valid_binary (S754_finite false mb eb) = true ->
  ea + eb <= fexp prec emax (Zpos (digits2_pos (ma * mb)) + (ea + eb)).
Proof.
  intros Va Vb.
  destruct (valid_finite _ _ _ Va) as (Bea & Bma & Cma).
  destruct (valid_finite _ _ _ Vb) as (Beb & Bmb & Cmb).
  rewrite fexp_eq.
  assert (Hm : Zpos (ma * mb) = Zpos ma * Zpos mb) by apply Pos2Z.inj_mul.
  change (2 ^ 52) with 4503599627370496 in *.
  destruct (Z.eq_dec ea (-1074)) as [E|E].
  - destruct (Z.le_gt_cases eb 0) as [L|L]; [lia|].
    specialize (Cmb ltac:(lia)).
    pose proof (digits_ge (ma * mb) 52 ltac:(lia)
                  ltac:(rewrite Hm; change (2 ^ 52) with 4503599627370496;
                        nia)).
    lia.
  - specialize (Cma ltac:(lia)).
    pose proof (digits_ge (ma * mb) 52 ltac:(lia)
                  ltac:(rewrite Hm; change (2 ^ 52) with 4503599627370496;
                        nia)).
    lia.
Qed.

(** A mantissa and a location make a record that holds both. *)
Lemma record_of_loc (m : Z) (l : location) :
  shr_m (shr_record_of_loc m l) = m
  /\ loc_of_shr_record (shr_record_of_loc m l) = l.
Proof. destruct l as [|[| |]]; split; reflexivity. Qed.

(** One step to the right doubles the modulus. *)
Lemma located_shr_1 (N T : Z) (mrs : shr_record) :
  0 <= N -> 0 < T ->
  shr_m mrs = N / T ->
  located N T (loc_of_shr_record mrs) ->
  shr_m (shr_1 mrs) = N / (T * 2)
  /\ located N (T * 2) (loc_of_shr_record (shr_1 mrs)).
Proof.
  intros HN HT Hm Hl.
  assert (Hq : 0 <= shr_m mrs) by (rewrite Hm; apply Z.div_pos; lia).
  destruct (shr_1_fields mrs Hq) as (F1 & F2 & F3).
  split; [rewrite F1, Hm, Z.div_div by lia; reflexivity|].
  pose proof (Z.div_mod N T ltac:(lia)) as Hdm.
  pose proof (Z.mod_pos_bound N T HT) as Hrem.
  rewrite <- Hm in Hdm.
  pose proof (Z.div_mod (shr_m mrs) 2 ltac:(lia)) as Hd2.
  pose proof (Z.mod_pos_bound (shr_m mrs) 2 ltac:(lia)) as Hb.
  assert (Hodd : Z.odd (shr_m mrs) = negb (shr_m mrs mod 2 =? 0)).
  { rewrite (Zmod_odd (shr_m mrs)).
    destruct (Z.odd (shr_m mrs)); reflexivity. }
  set (b := shr_m mrs mod 2) in *. set (h := shr_m mrs / 2) in *.
  assert (HN2 : N mod (T * 2) = b * T + N mod T).
  { symmetry. apply Z.mod_unique_pos with h; nia. }
  destruct mrs as [m r s]. cbn [shr_m shr_r shr_s] in *.
  destruct (shr_1 {| shr_m := m; shr_r := r; shr_s := s |}) as [m' r' s'].
  cbn [shr_m shr_r shr_s] in F1, F2, F3. subst r' s'.
  rewrite Hodd.
  destruct (Z.eqb_spec b 0) as [E|E]; destruct r, s;
    cbn [loc_of_shr_record located negb orb] in *; nia.
Qed.

(** The same after [k] shifts. *)
Lemma located_iter (N T : Z) (k : nat) (mrs : shr_record) :
  0 <= N -> 0 < T ->
  shr_m mrs = N / T ->
  located N T (loc_of_shr_record mrs) ->
  shr_m (Nat.iter k shr_1 mrs) = N / (T * 2 ^ Z.of_nat k)
  /\ located N (T * 2 ^ Z.of_nat k)
       (loc_of_shr_record (Nat.iter k shr_1 mrs)).
Proof.
  intros HN HT Hm Hl. induction k as [|k (IH1 & IH2)].
  - simpl. rewrite Z.mul_1_r. split; assumption.
  - rewrite Nat.iter_succ, Nat2Z.inj_succ, Z.pow_succ_r by lia.
    replace (T * (2 * 2 ^ Z.of_nat k)) with (T * 2 ^ Z.of_nat k * 2) by ring.
    apply located_shr_1; try assumption.
    apply Z.mul_pos_pos; [exact HT | apply Z.pow_pos_nonneg; lia].
Qed.

(** The first shift of [binary_round_aux] on the quotient of [N] by [D]:
    the quotient by [D * 2^n], with the location of the remainder. *)
Lemma located_shr_fexp (N D m e : Z) (l : location) :
  0 <= N -> 0 < D ->
  m = N / D ->
  located N D l ->
  let n := Z.max 0 (fexp prec emax (Zdigits2 m + e) - e) in
  let mrs := fst (shr_fexp prec emax m e l) in
  snd (shr_fexp prec emax m e l) = e + n
  /\ shr_m mrs = N / (D * 2 ^ n)
  /\ located N (D * 2 ^ n) (loc_of_shr_record mrs).
Proof.
  intros HN HD Hm Hl n mrs. subst n mrs. unfold shr_fexp, shr.
  destruct (record_of_loc m l) as (R1 & R2).
  destruct (fexp prec emax (Zdigits2 m + e) - e) as [|p|p] eqn:E; simpl fst;
    simpl snd.
  - simpl Z.max. rewrite Z.add_0_r, Z.mul_1_r, R1, R2.
    repeat split; assumption.
  - rewrite iter_pos_nat.
    replace (Z.max 0 (Zpos p)) with (Z.of_nat (Pos.to_nat p))
      by (rewrite positive_nat_Z; lia).
    split; [rewrite positive_nat_Z; reflexivity|].
    apply located_iter; try assumption; [rewrite R1 | rewrite R2];
      assumption.
  - replace (Z.max 0 (Zneg p)) with 0 by lia.
    rewrite Z.add_0_r, Z.pow_0_r, Z.mul_1_r, R1, R2.
    repeat split; assumption.
Qed.

(** Rounding to nearest, ties to even, by the location of the remainder. *)
Lemma round_nearest_even_located (N T : Z) (mrs : shr_record) :
  0 <= N -> 0 < T ->
  shr_m mrs = N / T ->
  located N T (loc_of_shr_record mrs) ->
  let m1 := N / T in
  let m2 := round_nearest_even (shr_m mrs) (loc_of_shr_record mrs) in
  (m2 = m1 /\ 2 * (N mod T) <= T
   /\ (2 * (N mod T) = T -> Z.even m1 = true))
  \/ (m2 = m1 + 1 /\ T <= 2 * (N mod T)
      /\ (2 * (N mod T) = T -> Z.even m1 = false)).
Proof.
  intros HN HT Hm Hl m1 m2. subst m1 m2. rewrite Hm.
  pose proof (Z.mod_pos_bound N T HT) as Hrem.
  destruct (loc_of_shr_record mrs) as [|[| |]];
    cbn [located round_nearest_even] in *.
  - left. repeat split; lia.
  - destruct (Z.even (N / T)) eqn:Ev; [left|right]; repeat split;
      try lia; intros _; reflexivity.
  - left. repeat split; lia.
  - right. repeat split; lia.
Qed.

(** [binary_round_aux] on the quotient of [N] by [D] with the location of
    its remainder: the quotient [m1] of [N] by [T = D * 2^n] at the target
    exponent, or the next mantissa, whichever is nearer to [N / T]. *)
Lemma round_core (N D mz ez : Z) (lz : location) :
  0 <= N -> 0 < D ->
  mz = N / D ->
  located N D lz ->
  let e1 := fexp prec emax (Zdigits2 mz + ez) in
  let T := D * 2 ^ (e1 - ez) in
  let m1 := N / T in
  ez <= e1 ->
  exists m2 : Z,
    binary_round_aux prec emax false mz ez lz = finish false m2 e1
    /\ ((m2 = m1 /\ 2 * (N mod T) <= T
         /\ (2 * (N mod T) = T -> Z.even m1 = true))
        \/ (m2 = m1 + 1 /\ T <= 2 * (N mod T)
            /\ (2 * (N mod T) = T -> Z.even m1 = false))).
Proof.
  intros HN HD Hm Hl e1 T m1 He. unfold binary_round_aux.
  pose proof (located_shr_fexp N D mz ez lz HN HD Hm Hl) as (S1 & S2 & S3).
  fold e1 in S1, S2, S3.
  replace (Z.max 0 (e1 - ez)) with (e1 - ez) in * by lia.
  replace (ez + (e1 - ez)) with e1 in S1 by lia.
  fold T in S2, S3.
  destruct (shr_fexp prec emax mz ez lz) as [mrs e'].
  simpl fst in *. simpl snd in *. subst e'.
  assert (HT : 0 < T).
  { unfold T. apply Z.mul_pos_pos; [exact HD|].
    apply Z.pow_pos_nonneg; lia. }
  exists (round_nearest_even (shr_m mrs) (loc_of_shr_record mrs)).
  split; [reflexivity|].
  exact (round_nearest_even_located N T mrs HN HT S2 S3).
Qed.

(** From the quotient [N / T] of the algorithm to the quantity [A / B] in
    units of the target exponent: both are the same fraction. *)
Lemma rounds_intro (A B N T m2 e1 c c' : Z) (r : spec_float) :
  0 < c -> 0 < c' -> 0 <= N -> 0 < T ->
  A * c = N * c' ->
  weight e1 * B * c = T * c' ->
  -1074 <= e1 -> 0 <= N / T < 2 ^ 53 -> (-1074 < e1 -> 2 ^ 52 <= N / T) ->
  r = finish false m2 e1 ->
  (m2 = N / T /\ 2 * (N mod T) <= T
   /\ (2 * (N mod T) = T -> Z.even (N / T) = true))
  \/ (m2 = N / T + 1 /\ T <= 2 * (N mod T)
      /\ (2 * (N mod T) = T -> Z.even (N / T) = false)) ->
  rounds A B r.
Proof.
  intros Hc Hc' HN HT HA HG He1 Hm1 Hcanon Hr Hcases.
  pose proof (Z.div_mod N T ltac:(lia)) as Hdm.
  pose proof (Z.mod_pos_bound N T HT) as Hrem.
  set (m1 := N / T) in *. set (rem := N mod T) in *.
  set (G := weight e1) in *.
  assert (HGB : forall g, g * G * B * c = g * T * c').
  { intros g. transitivity (g * (G * B * c)); [ring|]. rewrite HG. ring. }
  assert (Hcc : 0 < c * c') by (apply Z.mul_pos_pos; assumption).
  exists m1, m2, e1.
  split; [exact He1|]. split; [exact Hm1|]. split; [exact Hcanon|].
  split; [exact Hr|]. fold G.
  assert (P1 : m1 * G * B <= A).
  { apply Z.mul_le_mono_pos_r with (p := c); [exact Hc|].
    rewrite HGB, HA. apply Z.mul_le_mono_nonneg_r; lia. }
  assert (P2 : A < (m1 + 1) * G * B).
  { apply Z.mul_lt_mono_pos_r with (p := c); [exact Hc|].
    rewrite HGB, HA. apply Z.mul_lt_mono_pos_r; lia. }
  assert (Q : (2 * A - (2 * m1 + 1) * G * B) * c = (2 * rem - T) * c').
  { transitivity (2 * (A * c) - (2 * m1 + 1) * G * B * c); [ring|].
    rewrite HGB, HA. rewrite Hdm at 1. ring. }
  split; [split; assumption|].
  destruct Hcases as [(E & H1 & H2)|(E & H1 & H2)]; [left|right];
    (split; [exact E|]); split.
  - assert ((2 * A - (2 * m1 + 1) * G * B) * c <= 0) by (rewrite Q; nia).
    nia.
  - intros H. apply H2. assert ((2 * rem - T) * c' = 0) by (rewrite <- Q; nia).
    nia.
  - assert (0 <= (2 * A - (2 * m1 + 1) * G * B) * c) by (rewrite Q; nia).
    nia.
  - intros H. apply H2. assert ((2 * rem - T) * c' = 0) by (rewrite <- Q; nia).
    nia.
Qed.

(** What a rounded quantity is: a number of the format, not negative. *)
Lemma rounds_valid (A B : Z) (r : spec_float) :
  rounds A B r ->
  valid_binary r = true /\ r <> S754_nan /\ 0 <= rank r.
Proof.
  intros (m1 & m2 & e1 & He1 & Hm1 & Hcanon & -> & _ & Hcases).
  assert (Hm2 : m1 <= m2 <= m1 + 1) by (destruct Hcases as [(-> & _)|(-> & _)]; lia).
  destruct (finish_rank false m2 e1 ltac:(lia) He1 ltac:(lia))
    as (V & N & R).
  split; [exact V|]. split; [exact N|]. rewrite R. cbn [cond_Zopp].
  pose proof (weight_pos e1 ltac:(lia)).
  pose proof (weight_pos 971 ltac:(lia)).
  apply Z.min_glb; [nia|]. change (2 ^ 53) with 9007199254740992. lia.
Qed.

(** A rounded quantity does not jump over a number of the format. *)
Lemma rounds_sandwich (A B : Z) (r : spec_float) (mf : positive) (ef : Z) :
  rounds A B r -> 0 < B ->
  valid_binary (S754_finite false mf ef) = true ->
  (A <= Zpos mf * weight ef * B -> rank r <= Zpos mf * weight ef)
  /\ (Zpos mf * weight ef * B <= A -> Zpos mf * weight ef <= rank r).
Proof.
  intros (m1 & m2 & e1 & He1 & Hm1 & Hcanon & -> & (P1 & P2) & Hcases) HB Vf.
  assert (Hm2 : m1 <= m2 <= m1 + 1)
    by (destruct Hcases as [(-> & _)|(-> & _)]; lia).
  destruct (finish_rank false m2 e1 ltac:(lia) He1 ltac:(lia))
    as (_ & _ & ->).
  cbn [cond_Zopp].
  destruct (valid_finite _ _ _ Vf) as (Bef & Bmf & Cmf).
  pose proof (finite_rank_bounds _ _ _ Vf) as (F0 & Finf).
  set (G := weight e1) in *. set (F := Zpos mf * weight ef) in *.
  assert (HG : 0 < G) by (apply weight_pos; lia).
  assert (Hgrid : (exists g, F = g * G) \/ F < m1 * G).
  { destruct (Z.le_gt_cases e1 ef) as [L|L].
    - left. exists (Zpos mf * 2 ^ (ef - e1)). unfold F, G.
      replace ef with (e1 + (ef - e1)) at 1 by lia.
      rewrite weight_add by lia. ring.
    - right.
      pose proof (weight_lt ef e1 ltac:(lia) L) as Hlt.
      pose proof (weight_pos ef ltac:(lia)) as Hwf.
      specialize (Hcanon ltac:(lia)).
      unfold F, G.
      change (2 ^ 53) with 9007199254740992 in *.
      change (2 ^ 52) with 4503599627370496 in *. nia. }
  split.
  - intros HAF.
    apply Z.le_trans with (m2 * G); [apply Z.le_min_l|].
    destruct Hcases as [(-> & _)|(-> & Hup & _)].
    + nia.
    + destruct Hgrid as [(g & Hg)|Hlow]; [|nia].
      rewrite Hg in *.
      apply Z.mul_le_mono_nonneg_r; [lia|].
      assert (m1 < g) by nia. lia.
  - intros HFA.
    apply Z.min_glb; [|lia].
    apply Z.le_trans with (m1 * G);
      [|apply Z.mul_le_mono_nonneg_r; lia].
    destruct Hgrid as [(g & Hg)|Hlow]; [|lia].
    rewrite Hg in *.
    apply Z.mul_le_mono_nonneg_r; [lia|].
    assert (g < m1 + 1) by nia. lia.
Qed.

(** Rounding is monotone: of two quantities, the larger one does not round
    to the smaller number. *)
Lemma rounds_mono (A B A' B' : Z) (r r' : spec_float) :
  rounds A B r -> rounds A' B' r' -> 0 < B -> 0 < B' ->
  A * B' <= A' * B ->
  rank r <= rank r'.
Proof.
  intros (m1 & m2 & e1 & He1 & Hm1 & Hcanon & -> & (P1 & P2) & Hcases)
         (m1' & m2' & e1' & He1' & Hm1' & Hcanon' & -> & (P1' & P2') & Hcases')
         HB HB' HAA.
  assert (Hm2 : m1 <= m2 <= m1 + 1)
    by (destruct Hcases as [(-> & _)|(-> & _)]; lia).
  assert (Hm2' : m1' <= m2' <= m1' + 1)
    by (destruct Hcases' as [(-> & _)|(-> & _)]; lia).
  destruct (finish_rank false m2 e1 ltac:(lia) He1 ltac:(lia))
    as (_ & _ & ->).
  destruct (finish_rank false m2' e1' ltac:(lia) He1' ltac:(lia))
    as (_ & _ & ->).
  cbn [cond_Zopp].
  set (G := weight e1) in *. set (G' := weight e1') in *.
  assert (HG : 0 < G) by (apply weight_pos; lia).
  assert (HG' : 0 < G') by (apply weight_pos; lia).
  assert (HBB : 0 < B * B') by (apply Z.mul_pos_pos; assumption).
  apply Z.min_le_compat_r.
  destruct (Z.lt_trichotomy e1 e1') as [L|[E|L]].
  - (* the larger quantity lies in a higher binade *)
    pose proof (weight_lt e1 e1' ltac:(lia) L) as Hlt. fold G G' in Hlt.
    specialize (Hcanon' ltac:(lia)).
    assert (m2 * G <= 2 ^ 53 * G)
      by (apply Z.mul_le_mono_nonneg_r; lia).
    assert (2 ^ 52 * G' <= m2' * G')
      by (apply Z.mul_le_mono_nonneg_r; lia).
    change (2 ^ 53) with 9007199254740992 in *.
    change (2 ^ 52) with 4503599627370496 in *. lia.
  - (* the same binade: the same grid *)
    assert (EG : G' = G) by (unfold G, G'; rewrite E; reflexivity).
    rewrite EG in *. clear EG.
    apply Z.mul_le_mono_nonneg_r; [lia|].
    assert (Hle : m1 <= m1').
    { assert (m1 * G * B * B' < (m1' + 1) * G * B' * B).
      { apply Z.le_lt_trans with (A * B');
          [apply Z.mul_le_mono_nonneg_r; [lia | exact P1]|].
        apply Z.le_lt_trans with (A' * B); [exact HAA|].
        apply Z.mul_lt_mono_pos_r; [exact HB | exact P2']. }
      assert (m1 * (G * (B * B')) < (m1' + 1) * (G * (B * B'))) by lia.
      apply Z.mul_lt_mono_pos_r in H0;
        [lia | apply Z.mul_pos_pos; assumption]. }
    destruct (Z.eq_dec m1 m1') as [Em|Em]; [|lia].
    subst m1'.
    destruct Hcases as [(-> & _)|(-> & Hup & Hodd)]; [lia|].
    destruct Hcases' as [(-> & Hdn & Hev)|(-> & _)]; [|lia].
    exfalso.
    (* both are the midpoint, which goes one way only *)
    set (M := (2 * m1 + 1) * G) in *.
    assert (H1 : M * B * B' <= 2 * A * B')
      by (apply Z.mul_le_mono_nonneg_r; [lia | exact Hup]).
    assert (H2 : 2 * A' * B <= M * B' * B)
      by (apply Z.mul_le_mono_nonneg_r; [lia | exact Hdn]).
    assert (E1 : 2 * A = M * B).
    { assert ((2 * A) * B' = (M * B) * B') by lia.
      apply Z.mul_reg_r in H; lia. }
    assert (E2 : 2 * A' = M * B').
    { assert ((2 * A') * B = (M * B') * B) by lia.
      apply Z.mul_reg_r in H; lia. }
    rewrite (Hodd E1) in Hev. specialize (Hev E2). discriminate.
  - (* a lower binade for the larger quantity is impossible *)
    exfalso.
    pose proof (weight_lt e1' e1 ltac:(lia) L) as Hlt. fold G G' in Hlt.
    specialize (Hcanon ltac:(lia)).
    change (2 ^ 53) with 9007199254740992 in *.
    change (2 ^ 52) with 4503599627370496 in *.
    assert (H1 : m1 * G * B * B' <= A * B')
      by (apply Z.mul_le_mono_nonneg_r; [lia | exact P1]).
    assert (H2 : A' * B < (m1' + 1) * G' * B' * B)
      by (apply Z.mul_lt_mono_pos_r; [exact HB | exact P2']).
    assert (H3 : m1 * G * (B * B') < (m1' + 1) * G' * (B * B')) by lia.
    apply Z.mul_lt_mono_pos_r in H3; [|exact HBB].
    assert ((m1' + 1) * G' <= 9007199254740992 * G')
      by (apply Z.mul_le_mono_nonneg_r; lia).
    assert (4503599627370496 * G <= m1 * G)
      by (apply Z.mul_le_mono_nonneg_r; lia).
    lia.
Qed.

(** The truncated mantissa at the target exponent, for a mantissa of any
    length at or below it. *)
Lemma quotient_bounds_Z (mz ez : Z) :
  0 <= mz ->
  let e1 := fexp prec emax (Zdigits2 mz + ez) in
  let m1 := mz / 2 ^ (e1 - ez) in
  ez <= e1 ->
  -1074 <= e1 /\ 0 <= m1 < 2 ^ 53 /\ (-1074 < e1 -> 2 ^ 52 <= m1).
Proof.
  intros H0 e1 m1 He. destruct mz as [|p|p]; [| |lia].
  - unfold m1, e1 in *. change (Zdigits2 0) with 0 in *.
    rewrite fexp_eq in *. rewrite Z.div_0_l by (apply Z.pow_nonzero; lia).
    split; [lia|]. split; [split; [lia | reflexivity]|]. lia.
  - exact (quotient_bounds p ez He).
Qed.

(** What [SFdiv_core_binary] hands to the rounding: the quotient of the
    first mantissa, shifted left by [s] places, by the second one, with the
    location of the remainder, at an exponent that is not above its
    target. *)
Lemma SFdiv_core_binary_spec (mx my : positive) (ex ey : Z) :
  valid_binary (S754_finite false mx ex) = true ->
  valid_binary (S754_finite false my ey) = true ->
  exists (q e' s : Z),
    SFdiv_core_binary prec emax (Zpos mx) ex (Zpos my) ey
    = (q, e', new_location (Zpos my) ((Zpos mx * 2 ^ s) mod Zpos my))
    /\ 0 <= s /\ s = ex - ey - e'
    /\ q = (Zpos mx * 2 ^ s) / Zpos my
    /\ e' <= fexp prec emax (Zdigits2 q + e').
Proof.
  intros Vx Vy.
  destruct (valid_finite _ _ _ Vx) as (Bex & Bmx & Cmx).
  destruct (valid_finite _ _ _ Vy) as (Bey & Bmy & Cmy).
  unfold SFdiv_core_binary.
  change (Zdigits2 (Zpos mx)) with (Zpos (digits2_pos mx)).
  change (Zdigits2 (Zpos my)) with (Zpos (digits2_pos my)).
  set (d1 := Zpos (digits2_pos mx)). set (d2 := Zpos (digits2_pos my)).
  set (e' := Z.min (fexp prec emax (d1 + ex - (d2 + ey))) (ex - ey)).
  set (s := ex - ey - e').
  assert (Hs : 0 <= s) by (unfold s, e'; lia).
  set (m' := match s with
             | 0 => Zpos mx
             | Zpos _ => Z.shiftl (Zpos mx) s
             | Zneg _ => 0
             end).
  assert (Hm' : m' = Zpos mx * 2 ^ s).
  { unfold m'. destruct s as [|p|p] eqn:E; [simpl; lia| |lia].
    apply Z.shiftl_mul_pow2. lia. }
  pose proof (Z_div_mod m' (Zpos my) ltac:(lia)) as Hdm.
  assert (Hq : Z.div_eucl m' (Zpos my) = (m' / Zpos my, m' mod Zpos my)).
  { unfold Z.div, Z.modulo. destruct (Z.div_eucl m' (Zpos my)). reflexivity. }
  rewrite Hq. rewrite Hm'.
  exists (Zpos mx * 2 ^ s / Zpos my), e', s.
  split; [reflexivity|]. split; [exact Hs|]. split; [reflexivity|].
  split; [reflexivity|].
  rewrite fexp_eq.
  destruct (Z.le_gt_cases e' (-1074)) as [L|L]; [lia|].
  (* above the smallest exponent the quotient has 53 bits or more *)
  assert (He' : e' <= d1 + ex - (d2 + ey) - 53)
    by (unfold e' in *; rewrite fexp_eq in *; lia).
  pose proof (digits2_pos_bounds mx) as (Bx1 & Bx2).
  pose proof (digits2_pos_bounds my) as (By1 & By2).
  fold d1 in Bx1, Bx2. fold d2 in By1, By2.
  assert (Hd1 : 1 <= d1) by (unfold d1; lia).
  assert (Hd2 : 1 <= d2) by (unfold d2; lia).
  assert (Hs' : 53 - d1 + d2 <= s) by (unfold s; lia).
  assert (Hq52 : 2 ^ 52 <= Zpos mx * 2 ^ s / Zpos my).
  { apply Z.div_le_lower_bound; [lia|].
    apply Z.le_trans with (2 ^ d2 * 2 ^ 52); [nia|].
    rewrite <- Z.pow_add_r by lia.
    apply Z.le_trans with (2 ^ (d1 - 1) * 2 ^ s).
    - rewrite <- Z.pow_add_r by lia. apply Z.pow_le_mono_r; lia.
    - apply Z.mul_le_mono_nonneg_r; [|exact Bx1].
      apply Z.pow_nonneg; lia. }
  destruct (Zpos mx * 2 ^ s / Zpos my) as [|pq|pq] eqn:Eq; try lia.
  change (Zdigits2 (Zpos pq)) with (Zpos (digits2_pos pq)).
  pose proof (digits_ge pq 52 ltac:(lia) Hq52). lia.
Qed.

(** The location that a division computes from its remainder. *)
Lemma new_location_located (N D : Z) :
  0 <= N -> 0 < D -> located N D (new_location D (N mod D)).
Proof.
  intros HN HD. pose proof (Z.mod_pos_bound N D HD) as Hrem.
  unfold new_location, new_location_even, new_location_odd.
  assert (Hodd : Z.even D = false -> D mod 2 = 1).
  { intros Ev. rewrite Zmod_odd, <- Z.negb_even, Ev. reflexivity. }
  pose proof (Z.div_mod D 2 ltac:(lia)) as HD2.
  unfold located.
  destruct (N mod D) as [|p|p] eqn:E; [| |lia].
  - destruct (Z.even D); reflexivity.
  - destruct (Z.even D) eqn:Ev.
    + change (IntDef.Z.compare (2 * Zpos p) D)
        with (Z.compare (2 * Zpos p) D).
      destruct (Z.compare_spec (2 * Zpos p) D) as [C|C|C]; simpl; lia.
    + specialize (Hodd eq_refl).
      change (IntDef.Z.compare (2 * Zpos p + 1) D)
        with (Z.compare (2 * Zpos p + 1) D).
      destruct (Z.compare_spec (2 * Zpos p + 1) D) as [C|C|C]; simpl; lia.
Qed.

(** The quotient of two positive numbers is their exact quotient, rounded. *)
Lemma div_rounds (mx my : positive) (ex ey : Z) :
  valid_binary (S754_finite false mx ex) = true ->
  valid_binary (S754_finite false my ey) = true ->
  rounds (Zpos mx * weight ex * 2 ^ 1200) (Zpos my * weight ey)
    (SF64div (S754_finite false mx ex) (S754_finite false my ey)).
Proof.
  intros Vx Vy.
  destruct (valid_finite _ _ _ Vx) as (Bex & Bmx & Cmx).
  destruct (valid_finite _ _ _ Vy) as (Bey & Bmy & Cmy).
  destruct (SFdiv_core_binary_spec mx my ex ey Vx Vy)
    as (q & e' & s & Hcore & Hs & Hse & Hq & He).
  unfold SF64div, SFdiv. rewrite Hcore. simpl xorb.
  set (N := Zpos mx * 2 ^ s) in *.
  assert (HT : 0 < 2 ^ s) by (apply Z.pow_pos_nonneg; lia).
  assert (HN : 0 <= N) by (unfold N; lia).
  assert (Hq0 : 0 <= q) by (rewrite Hq; apply Z.div_pos; lia).
  destruct (round_core N (Zpos my) q e' (new_location (Zpos my)
                                            (N mod Zpos my))
              HN ltac:(lia) Hq
              (new_location_located N (Zpos my) HN ltac:(lia)) He)
    as (m2 & Hr & Hcases).
  destruct (quotient_bounds_Z q e' Hq0 He) as (He1 & Hm1 & Hcanon).
  set (e1 := fexp prec emax (Zdigits2 q + e')) in *.
  set (n := e1 - e') in *.
  assert (Hn : 0 <= n) by (unfold n; lia).
  assert (HTn : 0 < 2 ^ n) by (apply Z.pow_pos_nonneg; lia).
  assert (Hdd : N / (Zpos my * 2 ^ n) = q / 2 ^ n)
    by (rewrite Hq, Z.div_div by lia; reflexivity).
  apply (rounds_intro _ _ N (Zpos my * 2 ^ n) m2 e1 (2 ^ s)
           (weight ex * 2 ^ 1200)); try assumption.
  - apply Z.mul_pos_pos; [apply weight_pos; lia|].
    apply Z.pow_pos_nonneg; lia.
  - lia.
  - unfold N. ring.
  - transitivity (Zpos my * (weight e1 * weight ey * 2 ^ s)); [ring|].
    transitivity (Zpos my * (weight ex * 2 ^ 1200 * 2 ^ n)); [|ring].
    f_equal. unfold weight. rewrite <- !Z.pow_add_r by lia. f_equal.
    unfold n. lia.
  - rewrite Hdd. exact Hm1.
  - rewrite Hdd. exact Hcanon.
Qed.

(** The product of two positive numbers is their exact product, rounded. *)
Lemma mul_rounds (ma mb : positive) (ea eb : Z) :
  valid_binary (S754_finite false ma ea) = true ->
  valid_binary (S754_finite false mb eb) = true ->
  rounds ((Zpos ma * weight ea) * (Zpos mb * weight eb)) (2 ^ 1200)
    (SF64mul (S754_finite false ma ea) (S754_finite false mb eb)).
Proof.
  intros Va Vb.
  destruct (valid_finite _ _ _ Va) as (Bea & Bma & Cma).
  destruct (valid_finite _ _ _ Vb) as (Beb & Bmb & Cmb).
  pose proof (mul_aligned ma mb ea eb Va Vb) as He.
  change (SF64mul (S754_finite false ma ea) (S754_finite false mb eb))
    with (binary_round_aux prec emax false (Zpos (ma * mb)) (ea + eb)
            loc_Exact).
  set (N := Zpos (ma * mb)) in *.
  assert (HN : 0 <= N) by (unfold N; lia).
  assert (Hl : located N 1 loc_Exact) by (apply Z.mod_1_r).
  destruct (round_core N 1 N (ea + eb) loc_Exact HN ltac:(lia)
              ltac:(rewrite Z.div_1_r; reflexivity) Hl
              ltac:(exact He))
    as (m2 & Hr & Hcases).
  destruct (quotient_bounds (ma * mb) (ea + eb) He) as (He1 & Hm1 & Hcanon).
  change (Zdigits2 N) with (Zpos (digits2_pos (ma * mb))) in *.
  set (e1 := fexp prec emax (Zpos (digits2_pos (ma * mb)) + (ea + eb))) in *.
  set (n := e1 - (ea + eb)) in *.
  assert (Hn : 0 <= n) by (unfold n; lia).
  assert (HTn : 0 < 2 ^ n) by (apply Z.pow_pos_nonneg; lia).
  rewrite Z.mul_1_l in *.
  apply (rounds_intro _ _ N (2 ^ n) m2 e1 (2 ^ n)
           (weight ea * weight eb * 2 ^ n)); try assumption.
  - apply Z.mul_pos_pos; [|exact HTn].
    apply Z.mul_pos_pos; apply weight_pos; lia.
  - unfold N. rewrite Pos2Z.inj_mul. ring.
  - transitivity (2 ^ n * (weight e1 * 2 ^ 1200)); [ring|].
    transitivity (2 ^ n * (weight ea * weight eb * 2 ^ n)); [|ring].
    f_equal. unfold weight. rewrite <- !Z.pow_add_r by lia. f_equal.
    unfold n. lia.
Qed.

(** [binary_round] of a positive quantity of exponent [ex] is that
    quantity, rounded. *)
Lemma binary_round_rounds (mx : positive) (ex : Z) :
  -1200 <= ex ->
  rounds (Zpos mx * weight ex) 1 (binary_round prec emax false mx ex).
Proof.
  intros Hex.
  destruct (binary_round_aligned false mx ex Hex)
    as (mz & ez & -> & Hez & He & HV).
  set (N := Zpos mz) in *.
  assert (HN : 0 <= N) by (unfold N; lia).
  assert (Hl : located N 1 loc_Exact) by (apply Z.mod_1_r).
  destruct (round_core N 1 N ez loc_Exact HN ltac:(lia)
              ltac:(rewrite Z.div_1_r; reflexivity) Hl
              ltac:(exact He))
    as (m2 & Hr & Hcases).
  destruct (quotient_bounds mz ez He) as (He1 & Hm1 & Hcanon).
  change (Zdigits2 N) with (Zpos (digits2_pos mz)) in *.
  set (e1 := fexp prec emax (Zpos (digits2_pos mz) + ez)) in *.
  set (n := e1 - ez) in *.
  assert (Hn : 0 <= n) by (unfold n; lia).
  assert (HTn : 0 < 2 ^ n) by (apply Z.pow_pos_nonneg; lia).
  rewrite Z.mul_1_l in *.
  apply (rounds_intro _ _ N (2 ^ n) m2 e1 (2 ^ n) (weight e1));
    try assumption.
  - apply weight_pos; lia.
  - rewrite <- HV. unfold N.
    replace e1 with (ez + n) by (unfold n; lia).
    rewrite weight_add by lia. ring.
  - ring.
Qed.

(** *** Signs, and the difference of two numbers *)

(** The opposite of a number has the opposite value. *)
Lemma rank_opp (r : spec_float) : rank (SFopp r) = - rank r.
Proof.
  destruct r as [s|s| |s m e]; try reflexivity;
    destruct s; cbn [SFopp rank cond_Zopp negb]; lia.
Qed.

(** The opposite of a number of the format is one. *)
Lemma valid_opp (r : spec_float) :
  valid_binary (SFopp r) = valid_binary r.
Proof. destruct r as [s|s| |s m e]; reflexivity. Qed.

(** Only NaN has NaN for its opposite. *)
Lemma opp_nan (r : spec_float) : SFopp r = S754_nan <-> r = S754_nan.
Proof.
  destruct r as [s|s| |s m e]; split; intros H; simpl in H;
    try discriminate; reflexivity.
Qed.

(** The sign asked of [binary_round_aux] is the sign of its result, and
    only that. *)
Lemma binary_round_aux_opp (m e : Z) (l : location) :
  binary_round_aux prec emax true m e l
  = SFopp (binary_round_aux prec emax false m e l).
Proof.
  unfold binary_round_aux.
  destruct (shr_fexp prec emax m e l) as [mrs' e'].
  destruct (shr_fexp prec emax _ e' loc_Exact) as [mrs'' e''].
  destruct (shr_m mrs''); try reflexivity.
  destruct (e'' <=? emax - prec); reflexivity.
Qed.

(** The same for [binary_round]. *)
Lemma binary_round_opp (m : positive) (e : Z) :
  binary_round prec emax true m e = SFopp (binary_round prec emax false m e).
Proof.
  unfold binary_round.
  destruct (shl_align m e _) as [mz ez]. apply binary_round_aux_opp.
Qed.

(** Every number lies between the infinities. *)
Lemma rank_range (r : spec_float) :
  valid_binary r = true ->
  - (2 ^ 53 * weight 971) <= rank r <= 2 ^ 53 * weight 971.
Proof.
  intros V.
  assert (Hinf : 0 < 2 ^ 53 * weight 971)
    by (apply Z.mul_pos_pos; [reflexivity | apply weight_pos; lia]).
  destruct r as [s|s| |s m e]; cbn [rank]; try lia.
  - destruct s; cbn [cond_Zopp]; lia.
  - pose proof (finite_rank_bounds _ _ _ V).
    destruct s; cbn [cond_Zopp]; lia.
Qed.

(** Monotonicity for quantities of either sign. *)
Lemma rounds_signed_mono (A B A' B' : Z) (r r' : spec_float) :
  rounds_signed A B r -> rounds_signed A' B' r' -> 0 < B -> 0 < B' ->
  A * B' <= A' * B ->
  rank r <= rank r'.
Proof.
  intros (_ & _ & H) (_ & _ & H') HB HB' HAA.
  destruct H as [(E & R)|[(P & R)|(P & r0 & R & E)]];
    destruct H' as [(E' & R')|[(P' & R')|(P' & r0' & R' & E')]];
    try nia.
  - pose proof (rounds_valid _ _ _ R'). lia.
  - exact (rounds_mono _ _ _ _ _ _ R R' HB HB' HAA).
  - pose proof (rounds_valid _ _ _ R). lia.
  - pose proof (rounds_valid _ _ _ R). pose proof (rounds_valid _ _ _ R').
    lia.
  - pose proof (rounds_mono _ _ _ _ _ _ R' R HB' HB ltac:(nia)). lia.
Qed.

(** [finish] of a canonical mantissa packs it as it is. *)
Lemma finish_canonical (s : bool) (m : positive) (e : Z) :
  valid_binary (S754_finite s m e) = true ->
  finish s (Zpos m) e = S754_finite s m e.
Proof.
  intros V. pose proof V as V'.
  unfold SpecFloat.valid_binary, bounded, canonical_mantissa in V'.
  apply andb_prop in V'. destruct V' as (V1 & V2).
  apply Z.eqb_eq in V1.
  unfold finish, shr_fexp, shr.
  change (Zdigits2 (Zpos m)) with (Zpos (digits2_pos m)).
  rewrite V1, Z.sub_diag. cbn [shr_record_of_loc shr_m].
  change (emax - prec) with 971 in *. rewrite V2. reflexivity.
Qed.

(** A positive number of the format is its own rounding. *)
Lemma rounds_exact (m : positive) (e : Z) :
  valid_binary (S754_finite false m e) = true ->
  rounds (Zpos m * weight e) 1 (S754_finite false m e).
Proof.
  intros V. destruct (valid_finite _ _ _ V) as (Be & Bm & Cm).
  pose proof (weight_pos e ltac:(lia)) as Hw.
  exists (Zpos m), (Zpos m), e.
  split; [lia|]. split; [lia|]. split; [exact Cm|].
  split; [symmetry; apply finish_canonical; exact V|].
  split; [lia|]. left. split; [reflexivity|]. split; [lia|]. lia.
Qed.

(** The same with a sign. *)
Lemma rounds_signed_exact (s : bool) (m : positive) (e : Z) :
  valid_binary (S754_finite s m e) = true ->
  rounds_signed (cond_Zopp s (Zpos m * weight e)) 1 (S754_finite s m e).
Proof.
  intros V. destruct (valid_finite _ _ _ V) as (Be & Bm & Cm).
  pose proof (weight_pos e ltac:(lia)) as Hw.
  split; [discriminate|]. split; [exact V|].
  destruct s; cbn [cond_Zopp].
  - right. right. split; [lia|]. exists (S754_finite false m e).
    rewrite Z.opp_involutive. split; [apply rounds_exact; exact V|].
    reflexivity.
  - right. left. split; [lia|]. apply rounds_exact. exact V.
Qed.

(** A zero is zero rounded. *)
Lemma rounds_signed_zero (B : Z) (s : bool) :
  rounds_signed 0 B (S754_zero s).
Proof.
  split; [discriminate|]. split; [reflexivity|]. left. split; reflexivity.
Qed.

(** [binary_normalize] of an integer quantity of either sign is that
    quantity, rounded. *)
Lemma binary_normalize_rounds (z e : Z) :
  -1200 <= e ->
  rounds_signed (z * weight e) 1 (binary_normalize prec emax z e false).
Proof.
  intros He. pose proof (weight_pos e He) as Hw.
  destruct z as [|p|p]; unfold binary_normalize.
  - apply rounds_signed_zero.
  - pose proof (binary_round_rounds p e He) as R.
    destruct (rounds_valid _ _ _ R) as (V & N & _).
    split; [exact N|]. split; [exact V|]. right. left. split; [lia|exact R].
  - pose proof (binary_round_rounds p e He) as R.
    destruct (rounds_valid _ _ _ R) as (V & N & _).
    rewrite binary_round_opp.
    split; [rewrite opp_nan; exact N|].
    split; [rewrite valid_opp; exact V|].
    right. right. split; [lia|].
    exists (binary_round prec emax false p e).
    split; [|apply rank_opp].
    replace (- (Zneg p * weight e)) with (Zpos p * weight e) by lia.
    exact R.
Qed.

(** The difference of two numbers that are zero or finite is their exact
    difference, rounded. *)
Lemma sub_rounds (x y : spec_float) :
  valid_binary x = true -> valid_binary y = true ->
  match x, y with
  | (S754_zero _ | S754_finite _ _ _), (S754_zero _ | S754_finite _ _ _) =>
      rounds_signed (rank x - rank y) 1 (SF64sub x y)
  | _, _ => True
  end.
Proof.
  intros Vx Vy.
  destruct x as [sx|sx| |sx mx ex], y as [sy|sy| |sy my ey]; try exact I.
  - cbn [rank]. destruct sx, sy; apply rounds_signed_zero.
  - cbn [rank SF64sub SFsub]. rewrite Z.sub_0_l.
    replace (- cond_Zopp sy (Zpos my * weight ey))
      with (cond_Zopp (negb sy) (Zpos my * weight ey))
      by (destruct sy; cbn [cond_Zopp negb]; lia).
    apply rounds_signed_exact. exact Vy.
  - cbn [rank SF64sub SFsub]. rewrite Z.sub_0_r.
    apply rounds_signed_exact. exact Vx.
  - destruct (valid_finite _ _ _ Vx) as (Bex & _).
    destruct (valid_finite _ _ _ Vy) as (Bey & _).
    unfold SF64sub, SFsub.
    set (ez := Z.min ex ey).
    pose proof (shl_align_value mx ex ez ltac:(unfold ez; lia)
                  ltac:(unfold ez; lia)) as HA.
    pose proof (shl_align_value my ey ez ltac:(unfold ez; lia)
                  ltac:(unfold ez; lia)) as HB.
    set (a := fst (shl_align mx ex ez)) in *.
    set (b := fst (shl_align my ey ez)) in *.
    replace (rank (S754_finite sx mx ex) - rank (S754_finite sy my ey))
      with ((cond_Zopp sx (Zpos a) - cond_Zopp sy (Zpos b)) * weight ez).
    + apply binary_normalize_rounds. unfold ez. lia.
    + cbn [rank]. rewrite <- HA, <- HB.
      destruct sx, sy; cbn [cond_Zopp]; ring.
Qed.

(** *** The primitive operations keep the order *)

(** A rounded quantity is within the range of the format, the infinities
    included. *)
Lemma rounds_signed_range (A B : Z) (r : spec_float) :
  rounds_signed A B r ->
  - (2 ^ 53 * weight 971) <= rank r <= 2 ^ 53 * weight 971.
Proof. intros (_ & V & _). apply rank_range. exact V. Qed.

(** Subtracting the same number is monotone. *)
Lemma SFsub_mono (x1 x2 y : spec_float) :
  valid_binary x1 = true -> valid_binary x2 = true ->
  valid_binary y = true ->
  SF64sub x1 y <> S754_nan -> SF64sub x2 y <> S754_nan ->
  rank x1 <= rank x2 ->
  rank (SF64sub x1 y) <= rank (SF64sub x2 y).
Proof.
  intros V1 V2 Vy N1 N2 H.
  assert (Hinf : 0 < 2 ^ 53 * weight 971)
    by (apply Z.mul_pos_pos; [reflexivity | apply weight_pos; lia]).
  pose proof (sub_rounds x1 y V1 Vy) as R1.
  pose proof (sub_rounds x2 y V2 Vy) as R2.
  pose proof (rank_range x1 V1) as B1.
  pose proof (rank_range x2 V2) as B2.
  destruct y as [sy|sy| |sy my ey];
    destruct x1 as [s1|s1| |s1 m1 e1];
    destruct x2 as [s2|s2| |s2 m2 e2];
    try (exfalso; apply N1; reflexivity);
    try (exfalso; apply N2; reflexivity);
    try (exact (rounds_signed_mono _ _ _ _ _ _ R1 R2 ltac:(lia) ltac:(lia)
                  ltac:(lia)));
    try (pose proof (rounds_signed_range _ _ _ R1) as Q1);
    try (pose proof (rounds_signed_range _ _ _ R2) as Q2);
    try (pose proof (finite_rank_bounds _ _ _ V1) as F1);
    try (pose proof (finite_rank_bounds _ _ _ V2) as F2);
    try (destruct s1); try (destruct s2); try (destruct sy);
    cbn [SF64sub SFsub rank cond_Zopp negb] in *;
    try (exfalso; apply N1; reflexivity);
    try (exfalso; apply N2; reflexivity);
    lia.
Qed.

(** The quotient of a number that is zero or finite by a positive finite
    number is the exact quotient, rounded. *)
Lemma div_rounds_signed (d : spec_float) (mw : positive) (ew : Z) :
  valid_binary d = true ->
  valid_binary (S754_finite false mw ew) = true ->
  match d with
  | S754_zero _ | S754_finite _ _ _ =>
      rounds_signed (rank d * 2 ^ 1200) (Zpos mw * weight ew)
        (SF64div d (S754_finite false mw ew))
  | _ => True
  end.
Proof.
  intros Vd Vw.
  destruct d as [s|s| |s m e]; try exact I.
  - apply rounds_signed_zero.
  - pose proof (div_rounds m mw e ew Vd Vw) as R.
    destruct (rounds_valid _ _ _ R) as (V & N & _).
    destruct (valid_finite _ _ _ Vd) as (Be & _).
    pose proof (weight_pos e ltac:(lia)) as Hw.
    assert (HP : 0 < Zpos m * weight e * 2 ^ 1200).
    { apply Z.mul_pos_pos; [lia|]. apply Z.pow_pos_nonneg; lia. }
    destruct s; cbn [rank cond_Zopp].
    + assert (E : SF64div (S754_finite true m e) (S754_finite false mw ew)
                  = SFopp (SF64div (S754_finite false m e)
                             (S754_finite false mw ew))).
      { unfold SF64div, SFdiv.
        destruct (SFdiv_core_binary prec emax (Zpos m) e (Zpos mw) ew)
          as [[mz ez] lz].
        apply binary_round_aux_opp. }
      rewrite E.
      split; [rewrite opp_nan; exact N|].
      split; [rewrite valid_opp; exact V|].
      right. right. split; [lia|].
      exists (SF64div (S754_finite false m e) (S754_finite false mw ew)).
      split; [|apply rank_opp].
      replace (- (- (Zpos m * weight e) * 2 ^ 1200))
        with (Zpos m * weight e * 2 ^ 1200) by ring.
      exact R.
    + split; [exact N|]. split; [exact V|]. right. left.
      split; [exact HP | exact R].
Qed.

(** Dividing by the same positive number is monotone. *)
Lemma SFdiv_mono (d1 d2 w : spec_float) :
  valid_binary d1 = true -> valid_binary d2 = true ->
  valid_binary w = true ->
  0 < rank w ->
  SF64div d1 w <> S754_nan -> SF64div d2 w <> S754_nan ->
  rank d1 <= rank d2 ->
  rank (SF64div d1 w) <= rank (SF64div d2 w).
Proof.
  intros V1 V2 Vw Hw N1 N2 H.
  assert (Hinf : 0 < 2 ^ 53 * weight 971)
    by (apply Z.mul_pos_pos; [reflexivity | apply weight_pos; lia]).
  pose proof (rank_range d1 V1) as B1.
  pose proof (rank_range d2 V2) as B2.
  destruct w as [sw|sw| |sw mw ew]; cbn [rank] in Hw; try lia.
  - (* an infinite divisor: every quotient is a zero *)
    destruct d1 as [s1|s1| |s1 m1 e1];
      destruct d2 as [s2|s2| |s2 m2 e2];
      try (exfalso; apply N1; reflexivity);
      try (exfalso; apply N2; reflexivity);
      cbn [SF64div SFdiv rank]; lia.
  - assert (Hsw : sw = false).
    { destruct sw; [|reflexivity]. cbn [cond_Zopp] in Hw.
      pose proof (finite_rank_bounds _ _ _ Vw). lia. }
    subst sw. cbn [cond_Zopp] in Hw.
    pose proof (div_rounds_signed d1 mw ew V1 Vw) as R1.
    pose proof (div_rounds_signed d2 mw ew V2 Vw) as R2.
    assert (H2 : 0 < 2 ^ 1200) by (apply Z.pow_pos_nonneg; lia).
    destruct d1 as [s1|s1| |s1 m1 e1];
      destruct d2 as [s2|s2| |s2 m2 e2];
      try (exfalso; apply N1; reflexivity);
      try (exfalso; apply N2; reflexivity);
      try (exact (rounds_signed_mono _ _ _ _ _ _ R1 R2 Hw Hw
                    ltac:(apply Z.mul_le_mono_nonneg_r; [lia|];
                          apply Z.mul_le_mono_nonneg_r; lia)));
      try (pose proof (rounds_signed_range _ _ _ R1) as Q1);
      try (pose proof (rounds_signed_range _ _ _ R2) as Q2);
      try (pose proof (finite_rank_bounds _ _ _ V1) as F1);
      try (pose proof (finite_rank_bounds _ _ _ V2) as F2);
      try (destruct s1); try (destruct s2);
      cbn [rank cond_Zopp negb xorb] in *;
      try (change (SF64div (S754_infinity true) (S754_finite false mw ew))
             with (S754_infinity true) in *);
      try (change (SF64div (S754_infinity false) (S754_finite false mw ew))
             with (S754_infinity false) in *);
      cbn [rank cond_Zopp] in *;
      lia.
Qed.

(** The product of a number that is zero or positive and finite with a
    positive finite number is the exact product, rounded. *)
Lemma mul_rounds_signed (c : spec_float) (md : positive) (ed : Z) :
  valid_binary c = true ->
  valid_binary (S754_finite false md ed) = true ->
  match c with
  | S754_zero _ | S754_finite false _ _ =>
      rounds_signed (rank c * (Zpos md * weight ed)) (2 ^ 1200)
        (SF64mul c (S754_finite false md ed))
  | _ => True
  end.
Proof.
  intros Vc Vd.
  destruct c as [s|s| |s m e]; try exact I.
  - apply rounds_signed_zero.
  - destruct s; [exact I|].
    pose proof (mul_rounds m md e ed Vc Vd) as R.
    destruct (rounds_valid _ _ _ R) as (V & N & _).
    pose proof (finite_rank_bounds _ _ _ Vc) as (Hc & _).
    pose proof (finite_rank_bounds _ _ _ Vd) as (Hd & _).
    split; [exact N|]. split; [exact V|]. right. left.
    cbn [rank cond_Zopp]. split; [nia | exact R].
Qed.

(** Multiplying numbers that are not negative by the same number that is
    not negative is monotone. *)
Lemma SFmul_mono (c1 c2 d : spec_float) :
  valid_binary c1 = true -> valid_binary c2 = true ->
  valid_binary d = true ->
  SF64mul c1 d <> S754_nan -> SF64mul c2 d <> S754_nan ->
  0 <= rank c1 -> rank c1 <= rank c2 -> 0 <= rank d ->
  rank (SF64mul c1 d) <= rank (SF64mul c2 d).
Proof.
  intros V1 V2 Vd N1 N2 H0 H Hd.
  assert (Hinf : 0 < 2 ^ 53 * weight 971)
    by (apply Z.mul_pos_pos; [reflexivity | apply weight_pos; lia]).
  assert (H2 : 0 < 2 ^ 1200) by (apply Z.pow_pos_nonneg; lia).
  destruct d as [sd|sd| |sd md ed].
  - destruct c1 as [s1|s1| |s1 m1 e1];
      destruct c2 as [s2|s2| |s2 m2 e2];
      try (exfalso; apply N1; reflexivity);
      try (exfalso; apply N2; reflexivity);
      cbn [SF64mul SFmul rank]; lia.
  - destruct sd; [cbn [rank cond_Zopp] in Hd; lia|].
    destruct c1 as [s1|s1| |s1 m1 e1];
      destruct c2 as [s2|s2| |s2 m2 e2];
      try (exfalso; apply N1; reflexivity);
      try (exfalso; apply N2; reflexivity);
      try (pose proof (finite_rank_bounds _ _ _ V1) as F1);
      try (pose proof (finite_rank_bounds _ _ _ V2) as F2);
      try (destruct s1); try (destruct s2);
      cbn [SF64mul SFmul rank cond_Zopp xorb] in *; lia.
  - exfalso. apply N1. destruct c1; reflexivity.
  - assert (Hsd : sd = false).
    { destruct sd; [|reflexivity]. cbn [rank cond_Zopp] in Hd.
      pose proof (finite_rank_bounds _ _ _ Vd). lia. }
    subst sd.
    pose proof (finite_rank_bounds _ _ _ Vd) as (HD & _).
    pose proof (mul_rounds_signed c1 md ed V1 Vd) as R1.
    pose proof (mul_rounds_signed c2 md ed V2 Vd) as R2.
    destruct c1 as [s1|s1| |s1 m1 e1];
      destruct c2 as [s2|s2| |s2 m2 e2];
      try (exfalso; apply N1; reflexivity);
      try (exfalso; apply N2; reflexivity);
      try (pose proof (finite_rank_bounds _ _ _ V1) as F1);
      try (pose proof (finite_rank_bounds _ _ _ V2) as F2);
      try (destruct s1); try (destruct s2);
      cbn [rank cond_Zopp] in H0, H;
      try lia;
      try (exact (rounds_signed_mono _ _ _ _ _ _ R1 R2 H2 H2
                    ltac:(apply Z.mul_le_mono_nonneg_r; [lia|];
                          apply Z.mul_le_mono_nonneg_r; cbn [rank cond_Zopp];
                          lia)));
      try (pose proof (rounds_signed_range _ _ _ R1) as Q1);
      try (pose proof (rounds_signed_range _ _ _ R2) as Q2);
      cbn [SF64mul SFmul rank cond_Zopp xorb] in *; lia.
Qed.

(** *** Quantities that are numbers of the format *)

(** Two numbers of the format with the same value are the same number,
    or both are zeros. *)
Lemma rank_inj (x y : spec_float) :
  valid_binary x = true -> valid_binary y = true ->
  x <> S754_nan -> y <> S754_nan ->
  rank x = rank y ->
  x = y \/ (exists s s', x = S754_zero s /\ y = S754_zero s').
Proof.
  intros Vx Vy Nx Ny H. apply SFcompare_Eq.
  rewrite (rank_compare x y Vx Vy Nx Ny), H, Z.compare_refl. reflexivity.
Qed.

(** A quantity that is a number of the format rounds to it. *)
Lemma rounds_to_exact (A B : Z) (r : spec_float) (m : positive) (e : Z) :
  rounds A B r -> 0 < B ->
  valid_binary (S754_finite false m e) = true ->
  A = Zpos m * weight e * B ->
  r = S754_finite false m e.
Proof.
  intros R HB V HA.
  destruct (rounds_valid _ _ _ R) as (Vr & Nr & _).
  destruct (rounds_sandwich _ _ _ m e R HB V) as (S1 & S2).
  specialize (S1 ltac:(lia)). specialize (S2 ltac:(lia)).
  destruct (rank_inj r (S754_finite false m e) Vr V Nr ltac:(discriminate)
              ltac:(cbn [rank cond_Zopp]; lia))
    as [H|(s & s' & _ & H)]; [exact H | discriminate].
Qed.

(** One times a number is that number. *)
Lemma SFmul_one_l (d : spec_float) :
  valid_binary d = true -> SF64mul (Prim2SF 1) d = d.
Proof.
  intros V. change (Prim2SF 1) with (S754_finite false 4503599627370496 (-52)).
  destruct d as [s|s| |s m e]; try reflexivity.
  assert (V' : valid_binary (S754_finite false m e) = true) by exact V.
  pose proof (mul_rounds 4503599627370496 m (-52) e eq_refl V') as R.
  assert (E : SF64mul (S754_finite false 4503599627370496 (-52))
                (S754_finite false m e) = S754_finite false m e).
  { apply (rounds_to_exact _ _ _ m e R); [reflexivity | exact V'|].
    change (Zpos 4503599627370496 * weight (-52)) with (2 ^ 1200). ring. }
  destruct s; [|exact E].
  unfold SF64mul, SFmul in *. cbn [xorb] in *.
  rewrite binary_round_aux_opp, E. reflexivity.
Qed.

(** A positive finite number divided by itself is one. *)
Lemma SFdiv_self (m : positive) (e : Z) :
  valid_binary (S754_finite false m e) = true ->
  SF64div (S754_finite false m e) (S754_finite false m e) = Prim2SF 1.
Proof.
  intros V. pose proof (div_rounds m m e e V V) as R.
  pose proof (finite_rank_bounds _ _ _ V) as (P & _).
  change (Prim2SF 1) with (S754_finite false 4503599627370496 (-52)).
  apply (rounds_to_exact _ _ _ _ _ R); [lia | reflexivity|].
  change (Zpos 4503599627370496 * weight (-52)) with (2 ^ 1200). ring.
Qed.

(** A number divided by a positive finite number is a number. *)
Lemma SFdiv_finite_not_nan (d : spec_float) (m : positive) (e : Z) :
  valid_binary d = true -> d <> S754_nan ->
  valid_binary (S754_finite false m e) = true ->
  SF64div d (S754_finite false m e) <> S754_nan.
Proof.
  intros Vd Nd V. pose proof (div_rounds_signed d m e Vd V) as R.
  destruct d as [s|s| |s md ed]; try discriminate; try congruence;
    exact (proj1 R).
Qed.

(** *** Two products of the component *)

(** The product of a fraction [p <= 1] and a positive finite [D]: a number
    between 0 and [D]. *)
Lemma mul_fraction_round (mp m : positive) (ep e : Z) :
  valid_binary (S754_finite false mp ep) = true ->
  valid_binary (S754_finite false m e) = true ->
  Zpos mp * weight ep <= 4503599627370496 * weight (-52) ->
  let r := SF64mul (S754_finite false mp ep) (S754_finite false m e) in
  r <> S754_nan /\ 0 <= rank r <= Zpos m * weight e.
Proof.
  intros Vp V Hp r. subst r.
  pose proof (mul_rounds mp m ep e Vp V) as R.
  destruct (rounds_valid _ _ _ R) as (_ & N & P).
  split; [exact N|]. split; [exact P|].
  apply (proj1 (rounds_sandwich _ _ _ m e R ltac:(reflexivity) V)).
  pose proof (finite_rank_bounds _ _ _ V) as (HV & _).
  change (4503599627370496 * weight (-52)) with (2 ^ 1200) in Hp.
  rewrite (Z.mul_comm (Zpos mp * weight ep)).
  apply Z.mul_le_mono_nonneg_l; [lia | exact Hp].
Qed.

(** [Math.max(value, 0.2) * 100], the height of a bar, for a [value] that
    is a number: a number, at least 20. *)
Lemma bar_height_round (m : positive) (e : Z) :
  valid_binary (S754_finite false m e) = true ->
  7205759403792794 * weight (-55) <= Zpos m * weight e ->
  let r := SF64mul (S754_finite false m e) (Prim2SF 100) in
  r <> S754_nan /\ 20 * weight 0 <= rank r.
Proof.
  intros V H r. subst r.
  change (Prim2SF 100) with (S754_finite false 7036874417766400 (-46)).
  pose proof (mul_rounds m 7036874417766400 e (-46) V eq_refl) as R.
  destruct (rounds_valid _ _ _ R) as (_ & N & _).
  split; [exact N|].
  change (20 * weight 0) with (5629499534213120 * weight (-48)).
  apply (proj2 (rounds_sandwich _ _ _ 5629499534213120 (-48) R
                  ltac:(reflexivity) eq_refl)).
  apply Z.le_trans
    with (7205759403792794 * weight (-55)
          * (7036874417766400 * weight (-46))).
  - apply Z.leb_le. vm_compute. reflexivity.
  - apply Z.mul_le_mono_nonneg_r; [|exact H].
    pose proof (weight_pos (-46) ltac:(lia)). lia.
Qed.

Local Close Scope Z_scope.

(** ** The arithmetic of the component on the primitive numbers *)

(** A fraction between 0 and 1 of a duration [D >= 0]: between 0 and [D],
    unless it is the NaN of [0 * infinity]. *)
Lemma mul_fraction (p D : float) :
  (0 <=? p) = true -> (p <=? 1) = true -> (0 <=? D) = true ->
  (is_nan (p * D) = true /\ D = infinity)
  \/ ((0 <=? p * D) = true /\ (p * D <=? D) = true).
Proof.
  intros H0 H1 HD.
  destruct (leb_not_nan _ _ H1) as (Np & _).
  destruct (leb_not_nan _ _ HD) as (_ & ND).
  pose proof (Prim2SF_valid p) as Vp. pose proof (Prim2SF_valid D) as VD.
  rewrite (leb_rank 0 p eq_refl Np) in H0.
  rewrite (leb_rank p 1 Np eq_refl) in H1.
  rewrite (leb_rank 0 D eq_refl ND) in HD.
  change (Prim2SF 0) with (S754_zero false) in *.
  change (Prim2SF 1) with (S754_finite false 4503599627370496 (-52)) in *.
  apply Z.leb_le in H0, H1, HD. cbn [rank cond_Zopp] in H0, H1, HD.
  assert (Hinf : (0 < 2 ^ 53 * weight 971)%Z)
    by (apply Z.mul_pos_pos; [reflexivity | apply weight_pos; lia]).
  pose proof (weight_pos (-52) ltac:(lia)) as Hw.
  pose proof (weight_lt (-52) 971 ltac:(lia) ltac:(lia)) as Hw'.
  change (2 ^ 53)%Z with 9007199254740992%Z in *.
  destruct (is_nan (p * D)) eqn:N.
  - left. split; [reflexivity|]. apply Prim2SF_inj.
    rewrite is_nan_SF, mul_spec in N. rewrite is_nan_SF in Np, ND.
    destruct (Prim2SF p) as [sp|sp| |sp mp ep] eqn:Ep;
      destruct (Prim2SF D) as [sD|sD| |sD mD eD] eqn:ED;
      try discriminate;
      try (destruct sp); try (destruct sD);
      cbn [rank cond_Zopp] in *; unfold SF64mul, SFmul in N;
      cbn [xorb] in N;
      try discriminate; try reflexivity;
      try (pose proof (finite_rank_bounds _ _ _ Vp));
      try (pose proof (finite_rank_bounds _ _ _ VD)); try lia.
    exfalso.
    apply (binary_round_aux_not_nan false (Zpos (mp * mD)) (ep + eD)
             loc_Exact ltac:(lia)).
    destruct (binary_round_aux _ _ _ _ _ _); try discriminate. reflexivity.
  - right.
    rewrite (leb_rank 0 (p * D) eq_refl N), (leb_rank _ _ N ND).
    change (Prim2SF 0) with (S754_zero false). cbn [rank].
    rewrite is_nan_SF in N. rewrite mul_spec in *.
    destruct (Prim2SF p) as [sp|sp| |sp mp ep] eqn:Ep;
      destruct (Prim2SF D) as [sD|sD| |sD mD eD] eqn:ED;
      try discriminate;
      try (destruct sp); try (destruct sD);
      cbn [rank cond_Zopp SF64mul SFmul xorb] in *;
      try discriminate;
      try (split; apply Z.leb_le; lia);
      try (pose proof (finite_rank_bounds _ _ _ Vp));
      try (pose proof (finite_rank_bounds _ _ _ VD));
      try (split; apply Z.leb_le; lia); try lia.
    destruct (mul_fraction_round mp mD ep eD Vp VD H1) as (_ & R).
    unfold SF64mul, SFmul in R. simpl xorb in R.
    split; apply Z.leb_le; lia.
Qed.

(** NaN divided by anything is NaN. *)
Lemma div_nan_l (x : float) : nan / x = nan.
Proof.
  apply Prim2SF_inj. rewrite div_spec.
  change (Prim2SF nan) with S754_nan. reflexivity.
Qed.

(** NaN minus anything is NaN. *)
Lemma sub_nan_l (x : float) : nan - x = nan.
Proof.
  apply Prim2SF_inj. rewrite sub_spec.
  change (Prim2SF nan) with S754_nan. reflexivity.
Qed.

(** A product that is a number has a first factor that is one. *)
Lemma mul_not_nan_l (x y : float) : is_nan (x * y) = false -> is_nan x = false.
Proof.
  intros H. destruct (is_nan x) eqn:E; [|reflexivity].
  rewrite (nan_unique x E), mul_nan_l in H. discriminate.
Qed.

(** A quotient that is a number has a dividend that is one. *)
Lemma div_not_nan_l (x y : float) : is_nan (x / y) = false -> is_nan x = false.
Proof.
  intros H. destruct (is_nan x) eqn:E; [|reflexivity].
  rewrite (nan_unique x E), div_nan_l in H. discriminate.
Qed.

(** The value of the clamped position. *)
Lemma position_rank (p : float) :
  let c := Math_max 0 (Math_min 1 p) in
  (is_nan c = false -> is_nan p = false)
  /\ (is_nan p = false ->
      is_nan c = false
      /\ rank (Prim2SF c)
         = Z.max 0 (Z.min (rank (Prim2SF 1)) (rank (Prim2SF p)))).
Proof.
  intros c. unfold c. rewrite position_cases.
  destruct (is_nan p) eqn:Np; [split; intros H; discriminate|].
  split; [reflexivity|]. intros _.
  rewrite (ltb_rank 1 p eq_refl Np), (ltb_rank 0 p eq_refl Np).
  change (rank (Prim2SF 0)) with 0%Z.
  assert (H1 : (0 < rank (Prim2SF 1))%Z) by (vm_compute; reflexivity).
  destruct (Z.ltb_spec (rank (Prim2SF 1)) (rank (Prim2SF p))).
  - split; [reflexivity | lia].
  - destruct (Z.ltb_spec 0 (rank (Prim2SF p))).
    + split; [exact Np | lia].
    + split; [reflexivity|]. change (rank (Prim2SF 0)) with 0%Z. lia.
Qed.

(** Subtracting the same number keeps the order. *)
Lemma sub_mono (x1 x2 y : float) :
  (x1 <=? x2) = true ->
  is_nan (x1 - y) = false -> is_nan (x2 - y) = false ->
  (x1 - y <=? x2 - y) = true.
Proof.
  intros H N1 N2. apply leb_true in H. destruct H as (_ & _ & H).
  apply leb_true. split; [exact N1|]. split; [exact N2|].
  rewrite is_nan_SF in N1, N2. rewrite !sub_spec in *.
  apply SFsub_mono; try apply Prim2SF_valid; try exact H;
    intros E; rewrite E in *; discriminate.
Qed.

(** Dividing by the same positive number keeps the order. *)
Lemma div_mono (d1 d2 w : float) :
  (d1 <=? d2) = true -> (0 <? w) = true ->
  is_nan (d1 / w) = false -> is_nan (d2 / w) = false ->
  (d1 / w <=? d2 / w) = true.
Proof.
  intros H Hw N1 N2. apply leb_true in H. destruct H as (_ & _ & H).
  apply ltb_true in Hw. destruct Hw as (_ & _ & Hw).
  change (rank (Prim2SF 0)) with 0%Z in Hw.
  apply leb_true. split; [exact N1|]. split; [exact N2|].
  rewrite is_nan_SF in N1, N2. rewrite !div_spec in *.
  apply SFdiv_mono; try apply Prim2SF_valid; try assumption;
    intros E; rewrite E in *; discriminate.
Qed.

(** Multiplying non-negative numbers by the same non-negative number keeps
    the order. *)
Lemma mul_mono (c1 c2 d : float) :
  (0 <=? c1) = true -> (c1 <=? c2) = true -> (0 <=? d) = true ->
  is_nan (c1 * d) = false -> is_nan (c2 * d) = false ->
  (c1 * d <=? c2 * d) = true.
Proof.
  intros H0 H Hd N1 N2.
  apply leb_true in H0, H, Hd.
  destruct H0 as (_ & _ & H0), H as (_ & _ & H), Hd as (_ & _ & Hd).
  change (rank (Prim2SF 0)) with 0%Z in *.
  apply leb_true. split; [exact N1|]. split; [exact N2|].
  rewrite is_nan_SF in N1, N2. rewrite !mul_spec in *.
  apply SFmul_mono; try apply Prim2SF_valid; try assumption;
    intros E; rewrite E in *; discriminate.
Qed.

(** Clamping to [0, 1] keeps the order, and gives a non-negative number. *)
Lemma position_mono (p1 p2 : float) :
  (p1 <=? p2) = true ->
  (0 <=? Math_max 0 (Math_min 1 p1)) = true
  /\ (Math_max 0 (Math_min 1 p1) <=? Math_max 0 (Math_min 1 p2)) = true.
Proof.
  intros H. apply leb_true in H. destruct H as (N1 & N2 & H).
  destruct (position_rank p1) as (_ & P1).
  destruct (position_rank p2) as (_ & P2).
  destruct (P1 N1) as (M1 & R1). destruct (P2 N2) as (M2 & R2).
  split; apply leb_true; repeat split; try assumption; try reflexivity.
  - change (rank (Prim2SF 0)) with 0%Z. lia.
  - lia.
Qed.

(** The clamped position is NaN or lies between 0 and 1. *)
Lemma position_range (p : float) :
  let p' := Math_max 0 (Math_min 1 p) in
  p' = nan \/ ((0 <=? p') = true /\ (p' <=? 1) = true).
Proof.
  intros p'. unfold p'. rewrite position_cases.
  destruct (is_nan p) eqn:Np; [left; reflexivity|right].
  destruct (1 <? p) eqn:E1; [split; reflexivity|].
  destruct (0 <? p) eqn:E0; [|split; reflexivity].
  apply ltb_true in E0. destruct E0 as (_ & _ & E0).
  rewrite (ltb_rank 1 p eq_refl Np) in E1. apply Z.ltb_ge in E1.
  split; apply leb_true; repeat split; try assumption; lia.
Qed.

(** The drag candidate for a duration [D >= 0] is NaN or lies between 0
    and [D]. *)
Lemma newTime_range (r : Render) (timeline : DOMRect) (e : MouseEvent) :
  (0 <=? r_videoDuration r) = true ->
  let t := newTime r timeline e in
  is_nan t = true
  \/ ((0 <=? t) = true /\ (t <=? r_videoDuration r) = true).
Proof.
  intros HD t. unfold t, newTime, dragPosition.
  destruct (position_range ((clientX e - rect_left timeline)
                            / rect_width timeline)) as [H|(H0 & H1)].
  - left. rewrite H, mul_nan_l. reflexivity.
  - destruct (mul_fraction _ _ H0 H1 HD) as [(N & _)|R];
      [left; exact N | right; exact R].
Qed.

(** A part of a positive finite whole, divided by the whole: between 0
    and 1. *)
Lemma div_fraction (t D : float) :
  (0 <=? t) = true -> (t <=? D) = true ->
  (0 <? D) = true -> (D <? infinity) = true ->
  (0 <=? t / D) = true /\ (t / D <=? 1) = true.
Proof.
  intros H0 H1 HD Hfin.
  apply leb_true in H0, H1. apply ltb_true in HD, Hfin.
  destruct H0 as (_ & Nt & H0), H1 as (_ & ND & H1),
           HD as (_ & _ & HD), Hfin as (_ & _ & Hfin).
  change (rank (Prim2SF 0)) with 0%Z in *.
  change (rank (Prim2SF infinity)) with (2 ^ 53 * weight 971)%Z in Hfin.
  pose proof (Prim2SF_valid t) as Vt. pose proof (Prim2SF_valid D) as VD.
  assert (Hinf : (0 < 2 ^ 53 * weight 971)%Z)
    by (apply Z.mul_pos_pos; [reflexivity | apply weight_pos; lia]).
  assert (R : is_nan (t / D) = false
              /\ (0 <= rank (Prim2SF (t / D))
                  <= rank (Prim2SF 1))%Z).
  { rewrite is_nan_SF, div_spec.
    change (Prim2SF 1) with (S754_finite false 4503599627370496 (-52)).
    rewrite is_nan_SF in Nt, ND.
    destruct (Prim2SF D) as [sD|sD| |sD mD eD] eqn:ED; try discriminate;
      cbn [rank] in HD, Hfin, H1; try lia;
      [destruct sD; cbn [cond_Zopp] in *; lia|].
    destruct sD; [cbn [cond_Zopp] in HD;
                  pose proof (finite_rank_bounds _ _ _ VD); lia|].
    cbn [cond_Zopp] in *.
    pose proof (finite_rank_bounds _ _ _ VD) as FD.
    destruct (Prim2SF t) as [st|st| |st mt et] eqn:Et; try discriminate;
      cbn [rank] in H0, H1.
    - destruct st; simpl; split; try reflexivity; cbn [rank cond_Zopp];
        pose proof (weight_pos (-52) ltac:(lia)); lia.
    - destruct st; cbn [cond_Zopp] in *; lia.
    - destruct st; [cbn [cond_Zopp] in H0;
                    pose proof (finite_rank_bounds _ _ _ Vt); lia|].
      cbn [cond_Zopp] in *.
      pose proof (div_rounds mt mD et eD Vt VD) as Rd.
      destruct (rounds_valid _ _ _ Rd) as (_ & N & P).
      destruct (rounds_sandwich _ _ _ 4503599627370496 (-52) Rd
                  ltac:(lia) eq_refl) as (S1 & _).
      split; [destruct (SF64div _ _); try reflexivity; congruence|].
      split; [exact P|]. cbn [rank cond_Zopp]. apply S1.
      change (4503599627370496 * weight (-52))%Z with (2 ^ 1200)%Z.
      rewrite (Z.mul_comm (2 ^ 1200)).
      apply Z.mul_le_mono_nonneg_r; [|exact H1].
      apply Z.pow_nonneg. lia. }
  destruct R as (N & R0 & R1).
  split; apply leb_true; repeat split; try assumption; reflexivity.
Qed.

(** The factor of a percentage is finite. *)
Lemma finite_not_infinity : 100 <> infinity.
Proof.
  intros H. apply (f_equal (fun x => x <? infinity)) in H.
  vm_compute in H. discriminate.
Qed.

(** The percentage that positions a marker at a time between 0 and a
    positive finite duration: between 0 and 100. *)
Lemma marker_left_range (t D : float) :
  (0 <=? t) = true -> (t <=? D) = true ->
  (0 <? D) = true -> (D <? infinity) = true ->
  (0 <=? t / D * 100) = true /\ (t / D * 100 <=? 100) = true.
Proof.
  intros H0 H1 HD Hfin.
  destruct (div_fraction t D H0 H1 HD Hfin) as (P0 & P1).
  destruct (mul_fraction (t / D) 100 P0 P1 eq_refl) as [(_ & E)|R];
    [destruct (finite_not_infinity E) | exact R].
Qed.

(** The bar of a supplied sample. *)
Lemma effectiveHeight_range (v : float) :
  is_nan v = false ->
  (20 <=? effectiveHeight v) = true
  /\ ((v <=? 0x1.999999999999ap-3) = true -> effectiveHeight v = 20)
  /\ ((v <=? 1) = true -> (effectiveHeight v <=? 100) = true).
Proof.
  intros Nv. unfold effectiveHeight.
  set (w := Math_max v 0x1.999999999999ap-3).
  destruct (Math_max_rank v 0x1.999999999999ap-3 Nv eq_refl) as (Nw & Rw).
  fold w in Nw, Rw.
  change (rank (Prim2SF 0x1.999999999999ap-3))
    with (7205759403792794 * weight (-55))%Z in Rw.
  pose proof (Prim2SF_valid w) as Vw.
  pose proof (weight_pos (-55) ltac:(lia)) as Hw55.
  assert (Hinf : (0 < 2 ^ 53 * weight 971)%Z)
    by (apply Z.mul_pos_pos; [reflexivity | apply weight_pos; lia]).
  assert (Hlow : is_nan (w * 100) = false
                 /\ (20 * weight 0 <= rank (Prim2SF (w * 100)))%Z).
  { rewrite is_nan_SF, mul_spec. rewrite is_nan_SF in Nw.
    destruct (Prim2SF w) as [s|s| |s m e] eqn:E; try discriminate;
      cbn [rank] in Rw; try lia.
    - destruct s; cbn [cond_Zopp] in Rw; [lia|].
      simpl. split; [reflexivity|].
      apply Z.leb_le. vm_compute. reflexivity.
    - pose proof (finite_rank_bounds _ _ _ Vw) as Fw.
      destruct s; cbn [cond_Zopp] in Rw; [lia|].
      destruct (bar_height_round m e Vw ltac:(lia)) as (N & R).
      split; [|exact R].
      destruct (SF64mul _ _); try reflexivity. congruence. }
  destruct Hlow as (Nh & Rh).
  split; [|split].
  - apply leb_true. split; [reflexivity|]. split; [exact Nh | exact Rh].
  - intros Hv. apply leb_true in Hv. destruct Hv as (_ & _ & Hv).
    change (rank (Prim2SF 0x1.999999999999ap-3))
      with (7205759403792794 * weight (-55))%Z in Hv.
    assert (Ew : w = 0x1.999999999999ap-3).
    { apply Prim2SF_inj.
      change (Prim2SF 0x1.999999999999ap-3)
        with (S754_finite false 7205759403792794 (-55)).
      rewrite is_nan_SF in Nw.
      destruct (Prim2SF w) as [s|s| |s m e] eqn:E; try discriminate;
        cbn [rank] in Rw; try lia.
      - pose proof (weight_lt (-55) 971 ltac:(lia) ltac:(lia)).
        change (2 ^ 53)%Z with 9007199254740992%Z in *.
        destruct s; cbn [cond_Zopp] in Rw; lia.
      - pose proof (finite_rank_bounds _ _ _ Vw) as Fw.
        destruct s; cbn [cond_Zopp] in Rw; [lia|].
        pose proof (rank_compare (S754_finite false m e)
                      (S754_finite false 7205759403792794 (-55))
                      Vw eq_refl ltac:(discriminate) ltac:(discriminate))
          as C.
        cbn [rank cond_Zopp] in C.
        replace (Zpos m * weight e ?= 7205759403792794 * weight (-55))%Z
          with Eq in C by (symmetry; apply Z.compare_eq_iff; lia).
        destruct (SFcompare_Eq _ _ C) as [H|(s0 & s' & H & _)];
          [exact H | discriminate]. }
    rewrite Ew. reflexivity.
  - intros Hv.
    assert (Hw1 : (w <=? 1) = true).
    { apply leb_true in Hv. destruct Hv as (_ & _ & Hv).
      apply leb_true. repeat split; try assumption.
      rewrite Rw.
      change (rank (Prim2SF 1)) with (4503599627370496 * weight (-52))%Z
        in *.
      assert ((7205759403792794 * weight (-55)
               <= 4503599627370496 * weight (-52))%Z)
        by (apply Z.leb_le; vm_compute; reflexivity).
      lia. }
    assert (Hw0 : (0 <=? w) = true).
    { apply leb_true. repeat split; try assumption.
      change (rank (Prim2SF 0)) with 0%Z. lia. }
    destruct (mul_fraction w 100 Hw0 Hw1 eq_refl) as [(_ & E)|(_ & R)];
      [destruct (finite_not_infinity E) | exact R].
Qed.

(** The height of the bar of a sample that is not a number is not one. *)
Lemma effectiveHeight_nan (v : float) :
  is_nan v = true -> is_nan (effectiveHeight v) = true.
Proof. intros N. rewrite (nan_unique v N). reflexivity. Qed.

(** One times a number is that number, NaN included. *)
Lemma mul_one_l (d : float) : 1 * d = d.
Proof.
  apply Prim2SF_inj. rewrite mul_spec.
  apply SFmul_one_l. apply Prim2SF_valid.
Qed.

(** A positive finite divisor, seen as a mantissa and an exponent. *)
Lemma positive_finite_view (w : float) :
  (0 <? w) = true -> (w <? infinity) = true ->
  exists (m : positive) (e : Z), Prim2SF w = S754_finite false m e.
Proof.
  intros H0 H1. apply ltb_true in H0, H1.
  destruct H0 as (_ & _ & H0), H1 as (_ & _ & H1).
  change (rank (Prim2SF 0)) with 0%Z in H0.
  change (Prim2SF infinity) with (S754_infinity false) in H1.
  pose proof (Prim2SF_valid w) as V.
  destruct (Prim2SF w) as [s|s| |s m e]; cbn [rank cond_Zopp] in *;
    try (exfalso; lia).
  - pose proof (weight_pos 971 ltac:(lia)).
    change (2 ^ 53)%Z with 9007199254740992%Z in *.
    exfalso. destruct s; cbn [cond_Zopp] in *;
      [lia | exact (Z.lt_irrefl _ H1)].
  - destruct s; [|eauto]. exfalso. cbn [cond_Zopp] in *.
    pose proof (finite_rank_bounds _ _ _ V). lia.
Qed.

(** The position of a pointer at or beyond the right edge is 1. *)
Lemma position_right (x w : float) :
  (0 <? w) = true -> (w <? infinity) = true ->
  (w <=? x) = true ->
  Math_max 0 (Math_min 1 (x / w)) = 1.
Proof.
  intros H0 H1 Hx.
  destruct (positive_finite_view w H0 H1) as (m & e & E).
  pose proof (Prim2SF_valid w) as V. rewrite E in V.
  apply leb_true in Hx. destruct Hx as (Nw & Nx & Hx).
  assert (Nq : Prim2SF (x / w) <> S754_nan).
  { rewrite div_spec, E.
    apply SFdiv_finite_not_nan;
      [apply Prim2SF_valid | apply not_nan_SF; exact Nx | exact V]. }
  assert (Hq : (rank (Prim2SF 1) <= rank (Prim2SF (x / w)))%Z).
  { rewrite <- (SFdiv_self m e V), div_spec, E.
    apply SFdiv_mono; try exact V; try apply Prim2SF_valid.
    - pose proof (finite_rank_bounds _ _ _ V). cbn [rank cond_Zopp]. lia.
    - rewrite (SFdiv_self m e V). discriminate.
    - rewrite <- E, <- div_spec. exact Nq.
    - rewrite E in Hx. exact Hx. }
  apply not_nan_SF in Nq.
  rewrite position_cases, Nq.
  destruct (1 <? x / w) eqn:L1; [reflexivity|].
  assert (L0 : (0 <? x / w) = true).
  { apply ltb_true. split; [reflexivity|]. split; [exact Nq|].
    assert ((0 < rank (Prim2SF 1))%Z) by (vm_compute; reflexivity).
    change (rank (Prim2SF 0)) with 0%Z. lia. }
  rewrite L0.
  rewrite (ltb_rank 1 (x / w) eq_refl Nq) in L1. apply Z.ltb_ge in L1.
  destruct (rank_inj (Prim2SF (x / w)) (Prim2SF 1) (Prim2SF_valid _)
              eq_refl ltac:(apply not_nan_SF; exact Nq)
              ltac:(discriminate) ltac:(lia))
    as [H|(s & s' & _ & H)]; [|discriminate].
  apply Prim2SF_inj. exact H.
Qed.

(** The position of a pointer at or before the left edge is 0. *)
Lemma position_left (x w : float) :
  (0 <? w) = true -> (w <? infinity) = true ->
  (x <=? 0) = true ->
  Math_max 0 (Math_min 1 (x / w)) = 0.
Proof.
  intros H0 H1 Hx.
  destruct (positive_finite_view w H0 H1) as (m & e & E).
  pose proof (Prim2SF_valid w) as V. rewrite E in V.
  apply leb_true in Hx. destruct Hx as (Nx & _ & Hx).
  change (rank (Prim2SF 0)) with 0%Z in Hx.
  assert (Nq : Prim2SF (x / w) <> S754_nan).
  { rewrite div_spec, E.
    apply SFdiv_finite_not_nan;
      [apply Prim2SF_valid | apply not_nan_SF; exact Nx | exact V]. }
  assert (Hq : (rank (Prim2SF (x / w)) <= 0)%Z).
  { change 0%Z with (rank (SF64div (S754_zero false) (S754_finite false m e))).
    rewrite div_spec, E.
    apply SFdiv_mono; try exact V; try apply Prim2SF_valid;
      try reflexivity.
    - pose proof (finite_rank_bounds _ _ _ V). cbn [rank cond_Zopp]. lia.
    - rewrite <- E, <- div_spec. exact Nq.
    - discriminate.
    - exact Hx. }
  apply not_nan_SF in Nq.
  assert (R1 : (0 < rank (Prim2SF 1))%Z) by (vm_compute; reflexivity).
  rewrite position_cases, Nq.
  rewrite (ltb_rank 1 (x / w) eq_refl Nq), (ltb_rank 0 (x / w) eq_refl Nq).
  change (rank (Prim2SF 0)) with 0%Z.
  destruct (Z.ltb_spec (rank (Prim2SF 1)) (rank (Prim2SF (x / w))));
    [lia|].
  destruct (Z.ltb_spec 0 (rank (Prim2SF (x / w)))); [lia | reflexivity].
Qed.

(** Zero times a finite number that is not negative is zero. *)
Lemma mul_zero_l (d : float) :
  (0 <=? d) = true -> (d <? infinity) = true -> (0 * d =? 0) = true.
Proof.
  intros H0 H1. apply leb_true in H0. apply ltb_true in H1.
  destruct H0 as (_ & N & H0), H1 as (_ & _ & H1).
  change (rank (Prim2SF 0)) with 0%Z in H0.
  change (Prim2SF infinity) with (S754_infinity false) in H1.
  apply not_nan_SF in N.
  rewrite FloatAxioms.eqb_spec, mul_spec.
  change (Prim2SF 0) with (S754_zero false).
  pose proof (weight_pos 971 ltac:(lia)).
  pose proof (Prim2SF_valid d) as V.
  destruct (Prim2SF d) as [s|s| |s m e]; cbn [rank cond_Zopp] in *.
  - reflexivity.
  - exfalso. change (2 ^ 53)%Z with 9007199254740992%Z in *.
    destruct s; cbn [cond_Zopp] in *; [lia | exact (Z.lt_irrefl _ H1)].
  - congruence.
  - pose proof (finite_rank_bounds _ _ _ V).
    destruct s; cbn [cond_Zopp] in *; [lia | reflexivity].
Qed.

(** ** Whole numbers and their decimal form *)

Local Open Scope Z_scope.

(** A mantissa below [2^53] at an exponent of the format has a canonical
    form of the same value. *)
Lemma normalise (k : nat) (M E : Z) :
  0 < M < 2 ^ 53 -> E = -1074 + Z.of_nat k -> E <= 971 ->
  exists (mf : positive) (ef : Z),
    valid_binary (S754_finite false mf ef) = true
    /\ Zpos mf * weight ef = M * weight E.
Proof.
  revert M E. induction k as [|k IH]; intros M E HM HE Hmax.
  - destruct M as [|p|p]; try lia. exists p, E. split; [|reflexivity].
    pose proof (digits_le_53 p ltac:(lia)) as Hd.
    unfold SpecFloat.valid_binary, bounded, canonical_mantissa.
    rewrite fexp_eq. change (emax - prec) with 971.
    apply andb_true_intro. split; [apply Z.eqb_eq | apply Z.leb_le]; lia.
  - destruct (Z.le_gt_cases (2 ^ 52) M) as [L|L].
    + destruct M as [|p|p]; try lia. exists p, E. split; [|reflexivity].
      pose proof (digits_le_53 p ltac:(lia)) as Hd.
      pose proof (digits_ge p 52 ltac:(lia) L) as Hd'.
      unfold SpecFloat.valid_binary, bounded, canonical_mantissa.
      rewrite fexp_eq. change (emax - prec) with 971.
      apply andb_true_intro. split; [apply Z.eqb_eq | apply Z.leb_le]; lia.
    + destruct (IH (2 * M) (E - 1)) as (mf & ef & V & H).
      * change (2 ^ 53) with (2 * 2 ^ 52). lia.
      * lia.
      * lia.
      * exists mf, ef. split; [exact V|]. rewrite H.
        replace E with (E - 1 + 1) at 2 by lia.
        rewrite weight_succ by lia. ring.
Qed.

(** The same without the offset. *)
Lemma representable (M E : Z) :
  0 < M < 2 ^ 53 -> -1074 <= E <= 971 ->
  exists (mf : positive) (ef : Z),
    valid_binary (S754_finite false mf ef) = true
    /\ Zpos mf * weight ef = M * weight E.
Proof.
  intros HM HE.
  apply (normalise (Z.to_nat (E + 1074)) M E HM); lia.
Qed.

(** A quantity that has the value of a number of the format is not
    changed by rounding. *)
Lemma binary_normalize_exact (k e : Z) (mf : positive) (ef : Z) :
  0 < k -> -1200 <= e ->
  valid_binary (S754_finite false mf ef) = true ->
  Zpos mf * weight ef = k * weight e ->
  let r := binary_normalize prec emax k e false in
  valid_binary r = true /\ r <> S754_nan /\ rank r = k * weight e.
Proof.
  intros Hk He Vf Hf r. unfold r, binary_normalize.
  destruct k as [|p|p]; try lia.
  destruct (binary_round_valid false p e He) as (V & N & _).
  destruct (binary_round_sandwich p mf e ef He Vf) as (S1 & S2).
  split; [exact V|]. split; [exact N|].
  rewrite <- Hf. apply Z.le_antisymm; [apply S1 | apply S2]; lia.
Qed.

(** The conversion of an integer below [2^53] is that integer. *)
Lemma of_Z_whole (k : Z) :
  0 <= k < 2 ^ 53 -> whole (of_uint63 (Uint63.of_Z k)) k.
Proof.
  intros Hk. unfold whole. split; [apply of_uint63_not_nan|].
  rewrite of_uint63_spec.
  assert (Hz : Uint63Axioms.to_Z (Uint63.of_Z k) = k).
  { rewrite Uint63.of_Z_spec. apply Z.mod_small.
    split; [lia|]. apply Z.lt_trans with (2 ^ 53); [lia | reflexivity]. }
  rewrite Hz.
  destruct (Z.eq_dec k 0) as [->|Hne]; [reflexivity|].
  destruct (representable k 0 ltac:(lia) ltac:(lia)) as (mf & ef & Vf & Hf).
  exact (proj2 (proj2 (binary_normalize_exact k 0 mf ef ltac:(lia)
                         ltac:(lia) Vf Hf))).
Qed.

(** The [spec_float] view of an integer of magnitude below [2^53]. *)
Lemma whole_view (x : float) (k : Z) :
  whole x k -> Z.abs k < 2 ^ 53 ->
  match Prim2SF x with
  | S754_zero _ => k = 0
  | S754_finite s m e =>
      k = cond_Zopp s (Z.abs k) /\ k <> 0
      /\ ((e = 0 /\ Zpos m = Z.abs k)
          \/ (e < 0 /\ Zpos m = Z.abs k * 2 ^ (- e)))
  | _ => False
  end.
Proof.
  intros (N & R) Hk. pose proof (Prim2SF_valid x) as V.
  pose proof (weight_pos 0 ltac:(lia)) as Hw0.
  apply not_nan_SF in N.
  destruct (Prim2SF x) as [s|s| |s m e]; cbn [rank] in R.
  - nia.
  - pose proof (weight_mono 0 971 ltac:(lia) ltac:(lia)).
    change (2 ^ 53) with 9007199254740992 in *.
    destruct s; cbn [cond_Zopp] in R; nia.
  - congruence.
  - destruct (valid_finite _ _ _ V) as (Be & Bm & Cm).
    pose proof (weight_pos e ltac:(lia)) as Hwe.
    assert (Ha : Zpos m * weight e = Z.abs k * weight 0)
      by (destruct s; cbn [cond_Zopp] in R; nia).
    split; [destruct s; cbn [cond_Zopp] in *; nia|].
    split; [nia|].
    destruct (Z.lt_trichotomy e 0) as [L|[L|L]].
    + right. split; [exact L|].
      assert (Hw : weight 0 = 2 ^ (- e) * weight e).
      { replace 0 with (e + - e) at 1 by lia. apply weight_add; lia. }
      rewrite Hw in Ha. nia.
    + left. split; [exact L|]. subst e. nia.
    + exfalso. specialize (Cm ltac:(lia)).
      pose proof (weight_lt 0 e ltac:(lia) L).
      change (2 ^ 53) with 9007199254740992 in *.
      change (2 ^ 52) with 4503599627370496 in *. nia.
Qed.

(** An integer of magnitude below [2^53] prints as its decimal digits. *)
Lemma Number_toString_whole (x : float) (k : Z) :
  whole x k -> Z.abs k < 2 ^ 53 -> Number_toString x = Some (decimal k).
Proof.
  intros W Hk. pose proof (whole_view x k W Hk) as H.
  unfold Number_toString.
  destruct (Prim2SF x) as [s|s| |s m e]; try contradiction.
  - subst k. reflexivity.
  - destruct H as (Hs & _ & [(He & Hm)|(He & Hm)]).
    + subst e. simpl. rewrite Hm, <- Hs. reflexivity.
    + assert (HT : 0 < 2 ^ (- e)) by (apply Z.pow_pos_nonneg; lia).
      destruct (Z.eqb_spec e 0) as [E|_]; [lia|].
      destruct (Z.ltb_spec e 0) as [_|E]; [|lia].
      rewrite Hm, Z.mod_mul, Z.div_mul by lia. simpl. rewrite <- Hs.
      reflexivity.
Qed.

(** [Math.floor] of a number between the integers [q] and [q + 1]. *)
Lemma Math_floor_whole (y : float) (q : Z) :
  is_nan y = false -> 0 <= q < 2 ^ 53 ->
  q * weight 0 <= rank (Prim2SF y) < (q + 1) * weight 0 ->
  whole (Math_floor y) q.
Proof.
  intros N Hq (R1 & R2). pose proof (Prim2SF_valid y) as V.
  pose proof (weight_pos 0 ltac:(lia)) as Hw0.
  unfold Math_floor.
  destruct (Prim2SF y) as [s|s| |s m e] eqn:E; cbn [rank] in R1, R2.
  - split; [exact N|]. rewrite E. cbn [rank]. nia.
  - exfalso. pose proof (weight_mono 0 971 ltac:(lia) ltac:(lia)).
    change (2 ^ 53) with 9007199254740992 in *.
    destruct s; cbn [cond_Zopp] in *; nia.
  - split; [exact N|]. rewrite E. cbn [rank]. nia.
  - destruct (valid_finite _ _ _ V) as (Be & Bm & Cm).
    pose proof (weight_pos e ltac:(lia)) as Hwe.
    destruct s; cbn [cond_Zopp] in R1, R2; [nia|].
    destruct (Z.leb_spec 0 e) as [L|L].
    + split; [exact N|]. rewrite E. cbn [rank cond_Zopp].
      assert (Hw : weight e = 2 ^ e * weight 0).
      { replace e with (0 + e) at 1 by lia. apply weight_add; lia. }
      rewrite Hw in *.
      assert (HT : 0 < 2 ^ e) by (apply Z.pow_pos_nonneg; lia).
      assert (q = Zpos m * 2 ^ e) by nia. nia.
    + assert (Hw : weight 0 = 2 ^ (- e) * weight e).
      { replace 0 with (e + - e) at 1 by lia. apply weight_add; lia. }
      assert (HT : 0 < 2 ^ (- e)) by (apply Z.pow_pos_nonneg; lia).
      rewrite Hw in R1, R2.
      assert (Hdiv : Zpos m / 2 ^ (- e) = q).
      { symmetry. apply Z.div_unique with (Zpos m - q * 2 ^ (- e)); nia. }
      rewrite Hdiv. apply of_Z_whole. exact Hq.
Qed.

(** The [spec_float] view of a number between the integers [n] and
    [n + 1], for an [n] that is not negative. *)
Lemma wholePart_view (x : float) (n : Z) :
  wholePart x n -> 0 <= n < 2 ^ 52 ->
  match Prim2SF x with
  | S754_zero _ => n = 0
  | S754_finite false m e =>
      e < 0 /\ n * weight 0 <= Zpos m * weight e < (n + 1) * weight 0
  | _ => False
  end.
Proof.
  intros (N & R) Hn. pose proof (Prim2SF_valid x) as V.
  pose proof (weight_pos 0 ltac:(lia)) as Hw0.
  apply not_nan_SF in N.
  destruct (Prim2SF x) as [s|s| |s m e]; cbn [rank] in R.
  - nia.
  - pose proof (weight_mono 0 971 ltac:(lia) ltac:(lia)).
    change (2 ^ 53) with 9007199254740992 in *.
    change (2 ^ 52) with 4503599627370496 in *.
    destruct s; cbn [cond_Zopp] in R; nia.
  - congruence.
  - destruct (valid_finite _ _ _ V) as (Be & Bm & Cm).
    pose proof (weight_pos e ltac:(lia)) as Hwe.
    destruct s; cbn [cond_Zopp] in R; [nia|].
    split; [|exact R].
    destruct (Z.lt_ge_cases e 0) as [L|L]; [exact L|exfalso].
    specialize (Cm ltac:(lia)).
    pose proof (weight_mono 0 e ltac:(lia) L).
    change (2 ^ 52) with 4503599627370496 in *. nia.
Qed.

(** The arithmetic of a quotient by 60 that is rounded up to a multiple
    [(q + 1) * W0] of the unit: the dividend [mm * we], below
    [60 * (q + 1) * W0] and, like it, a multiple of [we], is below it by
    [we] at least; being at or above the midpoint, it is within [30 * G]
    of it, where [G] is the unit of the last place of the quotient; and
    [we] is more than [30 * G], since the quotient has 53 bits. *)
Lemma quotient_never_rounds_up (mm d we G W0 q m1 : Z) :
  0 < we -> 0 < G -> 0 < d ->
  0 < mm < 2 ^ 53 ->
  W0 = d * we ->
  mm * we < 60 * (q + 1) * W0 ->
  (m1 + 1) * G = (q + 1) * W0 ->
  2 ^ 52 <= m1 ->
  m1 * G * 60 <= mm * we ->
  (2 * m1 + 1) * G * 60 <= 2 * (mm * we) ->
  False.
Proof.
  intros Hwe HG Hd Hmm HW Hlt HT Hm1 P1 Hup. subst W0.
  assert (S1 : mm < 60 * (q + 1) * d).
  { apply Z.mul_lt_mono_pos_r with (p := we); [exact Hwe|]. lia. }
  assert (S2 : (mm + 1) * we <= 60 * (q + 1) * d * we)
    by (apply Z.mul_le_mono_nonneg_r; lia).
  assert (S3 : 2 ^ 52 * G <= m1 * G)
    by (apply Z.mul_le_mono_nonneg_r; lia).
  assert (S4 : mm * we < 2 ^ 53 * we)
    by (apply Z.mul_lt_mono_pos_r; lia).
  change (2 ^ 53) with 9007199254740992 in *.
  change (2 ^ 52) with 4503599627370496 in *. lia.
Qed.

(** Seconds divided by 60, rounded down: the whole minutes.  The quotient
    is rounded, but never up to the next integer: a number below
    [60 * (q + 1)] is below it by one unit of its last place at least, and
    that is more than half a unit of the last place of the quotient. *)
Lemma minutes_whole (x : float) (n : Z) :
  wholePart x n -> 0 <= n < 2 ^ 52 -> whole (Math_floor (x / 60)) (n / 60).
Proof.
  intros W Hn. pose proof (wholePart_view x n W Hn) as Hv.
  destruct W as (Nx & Rx). pose proof (Prim2SF_valid x) as V.
  pose proof (weight_pos 0 ltac:(lia)) as Hw0.
  set (q := n / 60).
  pose proof (Z.div_mod n 60 ltac:(lia)) as Hdm.
  pose proof (Z.mod_pos_bound n 60 ltac:(lia)) as Hrem.
  fold q in Hdm.
  assert (Hq : 0 <= q < 2 ^ 47).
  { split; [apply Z.div_pos; lia|].
    apply Z.div_lt_upper_bound; [lia|].
    change (2 ^ 52) with (32 * 2 ^ 47) in Hn. lia. }
  assert (Hnan : is_nan (x / 60) = false
                 /\ q * weight 0 <= rank (Prim2SF (x / 60))
                    < (q + 1) * weight 0).
  { rewrite is_nan_SF, div_spec.
    change (Prim2SF 60) with (S754_finite false 8444249301319680 (-47)).
    destruct (Prim2SF x) as [s|s| |s m e] eqn:E; try contradiction.
    - subst n. replace q with 0 by (unfold q; reflexivity).
      destruct s; simpl; split; try reflexivity; lia.
    - destruct s; [contradiction|]. destruct Hv as (He & Hx).
      destruct (valid_finite _ _ _ V) as (Be & Bm & Cm).
      pose proof (weight_pos e ltac:(lia)) as Hwe.
      pose proof (div_rounds m 8444249301319680 e (-47) V eq_refl) as R.
      destruct (rounds_valid _ _ _ R) as (_ & N & _).
      assert (HB : 8444249301319680 * weight (-47) = 60 * weight 0)
        by reflexivity.
      assert (H12 : 2 ^ 1200 = weight 0) by reflexivity.
      change (Zpos 8444249301319680) with 8444249301319680 in R.
      rewrite HB, H12 in R.
      split; [destruct (SF64div _ _); try reflexivity; congruence|].
      set (W0 := weight 0) in *. set (a := Zpos m * weight e) in *.
      assert (Hlo : 60 * q * W0 <= a).
      { assert (60 * q * W0 <= n * W0)
          by (apply Z.mul_le_mono_nonneg_r; lia).
        lia. }
      assert (Hlt : a < 60 * (q + 1) * W0).
      { assert ((n + 1) * W0 <= 60 * (q + 1) * W0)
          by (apply Z.mul_le_mono_nonneg_r; lia).
        lia. }
      split.
      + (* not below the whole minutes *)
        destruct (Z.eq_dec q 0) as [Hq0|Hq0];
          [destruct (rounds_valid _ _ _ R) as (_ & _ & P); rewrite Hq0; lia|].
        destruct (representable q 0
                    ltac:(change (2 ^ 53) with (64 * 2 ^ 47); lia)
                    ltac:(lia)) as (ml & el & Vl & Hl).
        destruct (rounds_sandwich _ _ _ ml el R ltac:(lia) Vl) as (_ & S2).
        rewrite Hl in S2. apply S2. fold W0.
        assert (60 * q * W0 * W0 <= a * W0)
          by (apply Z.mul_le_mono_nonneg_r; lia).
        lia.
      + (* below the next minute *)
        destruct (representable (q + 1) 0
                    ltac:(change (2 ^ 53) with (64 * 2 ^ 47); lia)
                    ltac:(lia)) as (mu & eu & Vu & Hu).
        destruct (rounds_sandwich _ _ _ mu eu R ltac:(lia) Vu) as (S1 & _).
        rewrite Hu in S1. fold W0 in S1.
        assert (Hle : rank (SF64div (S754_finite false m e)
                              (S754_finite false 8444249301319680 (-47)))
                      <= (q + 1) * W0).
        { apply S1.
          assert (a * W0 <= 60 * (q + 1) * W0 * W0)
            by (apply Z.mul_le_mono_nonneg_r; lia).
          lia. }
        destruct (Z.eq_dec (rank (SF64div (S754_finite false m e)
                                    (S754_finite false 8444249301319680
                                       (-47))))
                    ((q + 1) * W0)) as [Heq|Hne]; [exfalso|lia].
        destruct R as (m1 & m2 & e1 & He1 & Hm1 & Hcanon & Hr & (P1 & P2)
                       & Hcases).
        assert (Hm2 : m1 <= m2 <= m1 + 1)
          by (destruct Hcases as [(-> & _)|(-> & _)]; lia).
        rewrite Hr in Heq.
        destruct (finish_rank false m2 e1 ltac:(lia) He1 ltac:(lia))
          as (_ & _ & Hrank).
        rewrite Hrank in Heq. cbn [cond_Zopp] in Heq.
        pose proof (weight_pos e1 ltac:(lia)) as HG.
        set (G := weight e1) in *.
        assert (HT : m2 * G = (q + 1) * W0).
        { pose proof (weight_mono 0 971 ltac:(lia) ltac:(lia)) as H971.
          fold W0 in H971.
          assert ((q + 1) * W0 <= 2 ^ 47 * W0)
            by (apply Z.mul_le_mono_nonneg_r; lia).
          change (2 ^ 53) with 9007199254740992 in *.
          change (2 ^ 47) with 140737488355328 in *. lia. }
        assert (P1' : m1 * G * 60 <= a).
        { apply Z.mul_le_mono_pos_r with (p := W0); [exact Hw0|]. lia. }
        (* the quotient was rounded up *)
        destruct Hcases as [(-> & _)|(-> & Hup & _)]; [lia|].
        assert (H1 : (2 * m1 + 1) * G * 60 <= 2 * a).
        { apply Z.mul_le_mono_pos_r with (p := W0); [exact Hw0|]. lia. }
        (* the quotient has 53 bits *)
        assert (Hnorm : 2 ^ 52 <= m1).
        { apply Hcanon.
          destruct (Z.eq_dec e1 (-1074)) as [E1|E1]; [exfalso|lia].
          assert (Hsmall : 2 ^ 53 * weight (-1074) < W0)
            by (vm_compute; reflexivity).
          rewrite <- E1 in Hsmall. fold G in Hsmall.
          assert ((m1 + 1) * G <= 2 ^ 53 * G)
            by (apply Z.mul_le_mono_nonneg_r; lia).
          pose proof (Z.mul_nonneg_nonneg q W0 ltac:(lia) ltac:(lia)).
          lia. }
        assert (HW : W0 = 2 ^ (- e) * weight e).
        { unfold W0. replace 0 with (e + - e) at 1 by lia.
          apply weight_add; lia. }
        exact (quotient_never_rounds_up (Zpos m) (2 ^ (- e)) (weight e) G
                 W0 q m1 Hwe HG ltac:(apply Z.pow_pos_nonneg; lia)
                 ltac:(lia) HW Hlt HT Hnorm P1' H1). }
  destruct Hnan as (Nd & Rd).
  apply Math_floor_whole; [exact Nd | | exact Rd].
  change (2 ^ 53) with (64 * 2 ^ 47). lia.
Qed.

(** Seconds modulo 60, rounded down: the seconds of the minute.  The
    remainder is exact. *)
Lemma seconds_whole (x : float) (n : Z) :
  wholePart x n -> 0 <= n < 2 ^ 52 ->
  whole (Math_floor (Number_remainder x 60)) (n mod 60).
Proof.
  intros W Hn. pose proof (wholePart_view x n W Hn) as Hv.
  pose proof W as (Nx & Rx). pose proof (Prim2SF_valid x) as V.
  pose proof (weight_pos 0 ltac:(lia)) as Hw0.
  pose proof (Z.div_mod n 60 ltac:(lia)) as Hdm.
  pose proof (Z.mod_pos_bound n 60 ltac:(lia)) as Hrem.
  assert (Hz : is_nan (Number_remainder x 60) = false
               /\ n mod 60 * weight 0
                  <= rank (Prim2SF (Number_remainder x 60))
                  < (n mod 60 + 1) * weight 0).
  { unfold Number_remainder.
    change (Prim2SF 60) with (S754_finite false 8444249301319680 (-47)).
    destruct (Prim2SF x) as [s|s| |s m e] eqn:E; try contradiction.
    - subst n. split; [exact Nx|]. rewrite E. cbn [rank].
      change (0 mod 60) with 0. lia.
    - destruct s; [contradiction|]. destruct Hv as (He & Hx).
      destruct (valid_finite _ _ _ V) as (Be & Bm & Cm).
      set (e0 := Z.min e (-47)).
      assert (He0 : -1074 <= e0 <= -47) by (unfold e0; lia).
      pose proof (weight_pos e0 ltac:(lia)) as Hwe0.
      set (X := Zpos m * 2 ^ (e - e0)).
      set (Y := Zpos 8444249301319680 * 2 ^ (-47 - e0)).
      assert (HX : X * weight e0 = Zpos m * weight e).
      { unfold X. rewrite <- Z.mul_assoc. f_equal.
        replace e with (e0 + (e - e0)) at 2 by lia.
        rewrite weight_add by (unfold e0; lia). reflexivity. }
      assert (HY : Y * weight e0 = 60 * weight 0).
      { unfold Y. rewrite <- Z.mul_assoc.
        replace (2 ^ (-47 - e0) * weight e0) with (weight (-47))
          by (replace (-47) with (e0 + (-47 - e0)) at 1 by lia;
              apply weight_add; lia).
        reflexivity. }
      assert (HYpos : 0 < Y).
      { unfold Y. apply Z.mul_pos_pos; [lia|].
        apply Z.pow_pos_nonneg; lia. }
      assert (HXpos : 0 < X).
      { unfold X. apply Z.mul_pos_pos; [lia|].
        apply Z.pow_pos_nonneg; unfold e0; lia. }
      pose proof (Z.div_mod X Y ltac:(lia)) as HdX.
      pose proof (Z.mod_pos_bound X Y HYpos) as HrX.
      set (r := X mod Y) in *.
      cbn [cond_Zopp].
      (* the remainder has at most 53 bits *)
      assert (Hr53 : r < 2 ^ 53).
      { destruct (Z.le_gt_cases e (-47)) as [L|L].
        - assert (E0 : e0 = e) by (unfold e0; lia).
          assert (X = Zpos m) by (unfold X; rewrite E0, Z.sub_diag; lia).
          assert (r <= X) by (apply Z.mod_le; lia). lia.
        - assert (E0 : e0 = -47) by (unfold e0; lia).
          assert (Y = 8444249301319680) by (unfold Y; rewrite E0; reflexivity).
          change (2 ^ 53) with 9007199254740992. lia. }
      (* its value is the value of [x] modulo 60 *)
      assert (Hval : n mod 60 * weight 0 <= r * weight e0
                     < (n mod 60 + 1) * weight 0).
      { set (d := Zpos m * weight e - n * weight 0).
        assert (Hd : 0 <= d < weight 0) by (unfold d; lia).
        assert (Hr : r * weight e0 = n mod 60 * weight 0 + d).
        { assert (Hmod : (X * weight e0) mod (Y * weight e0)
                         = r * weight e0)
            by (apply Z.mul_mod_distr_r; lia).
          rewrite HX, HY in Hmod. rewrite <- Hmod.
          symmetry. apply Z.mod_unique_pos with (n / 60); [nia|].
          unfold d. set (q := n / 60) in *. set (rm := n mod 60) in *.
          rewrite Hdm. ring. }
        lia. }
      destruct (Z.eq_dec r 0) as [E0|E0].
      + rewrite E0 in *. simpl binary_normalize.
        split; [reflexivity|]. cbn [rank SF2Prim].
        change (Prim2SF zero) with (S754_zero false). cbn [rank]. lia.
      + destruct (representable r e0 ltac:(lia) ltac:(lia))
          as (mf & ef & Vf & Hf).
        destruct (binary_normalize_exact r e0 mf ef ltac:(lia) ltac:(lia)
                    Vf Hf) as (Vr & Nr & Rr).
        rewrite is_nan_SF, (Prim2SF_SF2Prim _ Vr).
        split; [|rewrite Rr; exact Hval].
        destruct (binary_normalize _ _ _ _ _); try reflexivity. congruence. }
  destruct Hz as (Nz & Rz).
  apply Math_floor_whole; [exact Nz | lia | exact Rz].
Qed.

(** The seconds of a label take two characters. *)
Lemma twoDigits_length (r : Z) :
  0 <= r < 60 -> String.length (twoDigits r) = 2%nat.
Proof.
  intros Hr.
  assert (H : forallb (fun i => Nat.eqb (String.length
                                           (twoDigits (Z.of_nat i))) 2)
                (seq 0 60) = true) by (vm_compute; reflexivity).
  rewrite forallb_forall in H.
  specialize (H (Z.to_nat r)). rewrite Z2Nat.id in H by lia.
  apply Nat.eqb_eq. apply H. apply in_seq. lia.
Qed.

(** The label of a number between the integers [n] and [n + 1]. *)
Lemma formatTime_wholePart :
  forall (x : float) (n : Z),
    wholePart x n ->
    0 <= n < 2 ^ 52 ->
    formatTime x
    = Some (String.append (decimal (n / 60))
              (String.append ":" (twoDigits (n mod 60))))
    /\ String.length (twoDigits (n mod 60)) = 2%nat.
Proof.
  intros x n W Hn.
  pose proof (Z.mod_pos_bound n 60 ltac:(lia)) as Hrem.
  split; [|apply twoDigits_length; exact Hrem].
  pose proof (minutes_whole x n W Hn) as Wm.
  pose proof (seconds_whole x n W Hn) as Ws.
  assert (Hq : 0 <= n / 60 < 2 ^ 53).
  { split; [apply Z.div_pos; lia|].
    apply Z.div_lt_upper_bound; [lia|].
    change (2 ^ 53) with (2 * 2 ^ 52). lia. }
  unfold formatTime.
  rewrite (Number_toString_whole _ _ Wm ltac:(lia)).
  rewrite (Number_toString_whole _ _ Ws ltac:(lia)).
  destruct Ws as (Ns & Rs).
  rewrite (ltb_rank _ 10 Ns eq_refl), Rs.
  change (rank (Prim2SF 10)) with (10 * weight 0).
  unfold twoDigits.
  pose proof (weight_pos 0 ltac:(lia)) as Hw0.
  destruct (Z.ltb_spec (n mod 60 * weight 0) (10 * weight 0));
    destruct (Z.ltb_spec (n mod 60) 10); try reflexivity; nia.
Qed.

Local Close Scope Z_scope.

(** A number between two consecutive integers, as the comparison of
    numbers has it. *)
Lemma wholeNumber_wholePart (x : float) (n : Z) :
  (0 <= n < 2 ^ 52)%Z ->
  (wholeNumber n <=? x) = true ->
  (x <? wholeNumber (n + 1)) = true ->
  wholePart x n.
Proof.
  intros Hn H1 H2. apply leb_true in H1. apply ltb_true in H2.
  destruct H1 as (_ & Nx & H1), H2 as (_ & _ & H2).
  destruct (of_Z_whole n ltac:(change (2 ^ 53)%Z with (2 * 2 ^ 52)%Z; lia))
    as (_ & R1).
  destruct (of_Z_whole (n + 1)
              ltac:(change (2 ^ 53)%Z with (2 * 2 ^ 52)%Z; lia))
    as (_ & R2).
  unfold wholeNumber in *. rewrite R1 in H1. rewrite R2 in H2.
  split; [exact Nx|]. split; assumption.
Qed.

(** ** The placeholder counts in exact arithmetic *)

Local Open Scope Z_scope.

(** The ceiling of a whole number of units is that number. *)
Lemma ceiling_of_multiple (K : Z) :
  - ((- (K * weight 0)) / weight 0) * weight 0 = K * weight 0.
Proof.
  pose proof (weight_pos 0 ltac:(lia)).
  rewrite <- Z.mul_opp_l, Z.div_mul by lia. ring.
Qed.

(** [Math.ceil] of a number, as a value: the least multiple of the unit
    that is not below the value of the number. *)
Lemma Math_ceil_rank (x : float) :
  is_nan x = false ->
  rank (Prim2SF (Math_ceil x))
  = - ((- rank (Prim2SF x)) / weight 0) * weight 0.
Proof.
  intros N. pose proof (Prim2SF_valid x) as V.
  pose proof (weight_pos 0 ltac:(lia)) as Hw0.
  unfold Math_ceil. destruct (Prim2SF x) as [s|s| |s m e] eqn:E.
  - rewrite E. reflexivity.
  - rewrite E. cbn [rank].
    replace (cond_Zopp s (2 ^ 53 * weight 971))
      with (cond_Zopp s (2 ^ 53 * 2 ^ 971) * weight 0).
    + symmetry. apply ceiling_of_multiple.
    + change (weight 971) with (weight (0 + 971)).
      rewrite (weight_add 0 971) by lia. destruct s; cbn [cond_Zopp]; ring.
  - rewrite E. reflexivity.
  - destruct (valid_finite _ _ _ V) as (Be & Bm & _).
    pose proof (weight_pos e ltac:(lia)) as Hwe.
    destruct (Z.leb_spec 0 e) as [He|He].
    + rewrite E. cbn [rank].
      replace (cond_Zopp s (Zpos m * weight e))
        with (cond_Zopp s (Zpos m * 2 ^ e) * weight 0).
      * symmetry. apply ceiling_of_multiple.
      * replace (weight e) with (weight (0 + e)) by (f_equal; lia).
        rewrite (weight_add 0 e) by lia. destruct s; cbn [cond_Zopp]; ring.
    + assert (HW : weight 0 = 2 ^ (- e) * weight e).
      { replace 0 with (e + - e) at 1 by lia. apply weight_add; lia. }
      set (d := 2 ^ (- e)) in *.
      assert (Hd : 2 <= d).
      { unfold d. change 2 with (2 ^ 1) at 1.
        apply Z.pow_le_mono_r; lia. }
      pose proof (Z.div_mod (Zpos m) d ltac:(lia)) as Hdm.
      pose proof (Z.mod_pos_bound (Zpos m) d ltac:(lia)) as Hrem.
      set (q := Zpos m / d) in *. set (rm := Zpos m mod d) in *.
      assert (Hq : 0 <= q < 2 ^ 52).
      { split; [apply Z.div_pos; lia|].
        apply Z.div_lt_upper_bound; [lia|].
        change (2 ^ 53) with (2 * 2 ^ 52) in Bm.
        assert (2 * 2 ^ 52 <= d * 2 ^ 52)
          by (apply Z.mul_le_mono_nonneg_r; lia).
        lia. }
      cbn [rank]. rewrite HW.
      destruct s; cbn [cond_Zopp].
      * rewrite opp_spec, rank_opp.
        destruct (of_Z_whole q ltac:(change (2 ^ 53) with (2 * 2 ^ 52); lia))
          as (_ & ->).
        rewrite Z.opp_involutive, Z.div_mul_cancel_r by lia.
        fold q. rewrite HW. ring.
      * assert (Hk : 0 <= (if rm =? 0 then q else q + 1) < 2 ^ 53)
          by (change (2 ^ 53) with (2 * 2 ^ 52); destruct (rm =? 0); lia).
        destruct (of_Z_whole _ Hk) as (_ & ->).
        rewrite <- Z.mul_opp_l, Z.div_mul_cancel_r by lia.
        rewrite <- HW. f_equal.
        destruct (Z.eqb_spec rm 0) as [R0|R0].
        -- rewrite Z.div_opp_l_z by (fold rm; lia). fold q. lia.
        -- rewrite Z.div_opp_l_nz by (fold rm; lia). fold q. lia.
Qed.

(** The value of a clamped number. *)
Lemma clamp_value (v lo hi : float) :
  is_nan v = false -> (lo <? hi)%float = true ->
  rank (Prim2SF (clamp v lo hi))
  = Z.max (rank (Prim2SF lo)) (Z.min (rank (Prim2SF hi)) (rank (Prim2SF v))).
Proof.
  intros Nv Hlh. destruct (ltb_not_nan lo hi Hlh) as (Nl & Nh).
  rewrite (ltb_rank lo hi Nl Nh) in Hlh. apply Z.ltb_lt in Hlh.
  unfold clamp. rewrite (ltb_rank v lo Nv Nl), (ltb_rank hi v Nh Nv).
  destruct (Z.ltb_spec (rank (Prim2SF v)) (rank (Prim2SF lo))); [lia|].
  destruct (Z.ltb_spec (rank (Prim2SF hi)) (rank (Prim2SF v))); lia.
Qed.

(** [ToLength] of a number between two positive integers below [2^52]:
    its integer part. *)
Lemma ToLength_rank (v : float) (lo hi : Z) :
  0 < lo -> hi < 2 ^ 52 ->
  lo * weight 0 <= rank (Prim2SF v) <= hi * weight 0 ->
  ToLength v = rank (Prim2SF v) / weight 0.
Proof.
  intros Hlo Hhi H. unfold ToLength.
  pose proof (Prim2SF_valid v) as V.
  pose proof (weight_pos 0 ltac:(lia)) as Hw0.
  destruct (Prim2SF v) as [s|s| |s m e]; cbn [rank cond_Zopp] in H;
    try nia.
  - exfalso. pose proof (weight_mono 0 971 ltac:(lia) ltac:(lia)).
    change (2 ^ 53) with 9007199254740992 in H.
    change (2 ^ 52) with 4503599627370496 in Hhi.
    destruct s; cbn [cond_Zopp] in H; nia.
  - destruct s; cbn [cond_Zopp] in H.
    + pose proof (finite_rank_bounds _ _ _ V). nia.
    + destruct (whole_part_range m e lo hi V Hlo Hhi H) as (He & Hq).
      destruct (valid_finite _ _ _ V) as (Be & _).
      pose proof (weight_pos e ltac:(lia)) as Hwe.
      destruct (Z.leb_spec 0 e) as [L|L]; [lia|].
      cbn [rank cond_Zopp].
      assert (HW : weight 0 = 2 ^ (- e) * weight e).
      { replace 0 with (e + - e) at 1 by lia. apply weight_add; lia. }
      rewrite HW, Z.div_mul_cancel_r
        by (try apply Z.pow_nonzero; lia).
      change (2 ^ 52) with 4503599627370496 in Hhi.
      change (2 ^ 53 - 1) with 9007199254740991. lia.
Qed.

(** The number of placeholders for a quantity [y] that is a number: the
    ceiling of [y], in exact arithmetic, brought between the bounds. *)
Lemma lane_count (y lo hi : float) (L H : Z) :
  is_nan y = false ->
  0 < L -> L < H -> H < 2 ^ 52 ->
  is_nan lo = false -> is_nan hi = false ->
  rank (Prim2SF lo) = L * weight 0 ->
  rank (Prim2SF hi) = H * weight 0 ->
  ToLength (clamp (Math_ceil y) lo hi)
  = Z.max L (Z.min H (- ((- rank (Prim2SF y)) / weight 0))).
Proof.
  intros Ny HL HLH HH Nlo Nhi Rlo Rhi.
  pose proof (weight_pos 0 ltac:(lia)) as Hw0.
  assert (Hlh : (lo <? hi)%float = true).
  { rewrite (ltb_rank lo hi Nlo Nhi), Rlo, Rhi. apply Z.ltb_lt.
    apply Z.mul_lt_mono_pos_r; assumption. }
  pose proof (clamp_value (Math_ceil y) lo hi (Math_ceil_not_nan y Ny) Hlh)
    as C.
  rewrite (Math_ceil_rank y Ny), Rlo, Rhi in C.
  set (k := - ((- rank (Prim2SF y)) / weight 0)) in *.
  assert (C' : rank (Prim2SF (clamp (Math_ceil y) lo hi))
               = Z.max L (Z.min H k) * weight 0).
  { rewrite C.
    rewrite Z.mul_min_distr_nonneg_r, Z.mul_max_distr_nonneg_r by lia.
    reflexivity. }
  rewrite (ToLength_rank _ L H HL HH).
  - rewrite C', Z.div_mul by lia. reflexivity.
  - rewrite C'. split; apply Z.mul_le_mono_nonneg_r; lia.
Qed.

(** Twice a negative number is not positive. *)
Lemma double_negative (D : float) :
  is_nan D = false -> rank (Prim2SF D) < 0 ->
  rank (Prim2SF (D * 2)) <= 0.
Proof.
  intros N H. pose proof (Prim2SF_valid D) as V. rewrite mul_spec.
  change (Prim2SF 2) with (S754_finite false 4503599627370496 (-51)).
  pose proof (weight_pos 971 ltac:(lia)).
  destruct (Prim2SF D) as [s|s| |s m e]; cbn [rank] in H; try lia.
  - destruct s; cbn [cond_Zopp] in H;
      [|change (2 ^ 53) with 9007199254740992 in H; lia].
    cbn. change (2 ^ 53) with 9007199254740992. lia.
  - pose proof (finite_rank_bounds _ _ _ V).
    destruct s; cbn [cond_Zopp] in H; [|lia].
    assert (V' : valid_binary (S754_finite false m e) = true) by exact V.
    pose proof (mul_rounds m 4503599627370496 e (-51) V' eq_refl) as R.
    destruct (rounds_valid _ _ _ R) as (_ & _ & P).
    unfold SF64mul, SFmul in *. cbn [xorb] in *.
    rewrite binary_round_aux_opp, rank_opp. lia.
Qed.

(** Doubling keeps the order of numbers that are not negative. *)
Lemma double_mono (D1 D2 : float) :
  is_nan D1 = false -> is_nan D2 = false ->
  0 <= rank (Prim2SF D1) <= rank (Prim2SF D2) ->
  rank (Prim2SF (D1 * 2)) <= rank (Prim2SF (D2 * 2)).
Proof.
  intros N1 N2 H. rewrite !mul_spec.
  apply SFmul_mono; try apply Prim2SF_valid; try lia.
  - rewrite <- mul_spec. apply not_nan_SF. apply mul_two_not_nan. exact N1.
  - rewrite <- mul_spec. apply not_nan_SF. apply mul_two_not_nan. exact N2.
  - vm_compute. discriminate.
Qed.

(** Dividing by three keeps the order. *)
Lemma third_mono (D1 D2 : float) :
  is_nan D1 = false -> is_nan D2 = false ->
  rank (Prim2SF D1) <= rank (Prim2SF D2) ->
  rank (Prim2SF (D1 / 3)) <= rank (Prim2SF (D2 / 3)).
Proof.
  intros N1 N2 H. rewrite !div_spec.
  apply SFdiv_mono; try apply Prim2SF_valid; try lia.
  - vm_compute. reflexivity.
  - rewrite <- div_spec. apply not_nan_SF. apply div_three_not_nan.
    exact N1.
  - rewrite <- div_spec. apply not_nan_SF. apply div_three_not_nan.
    exact N2.
Qed.

(** The ceiling is at most [k] exactly for the quantities up to [k]
    units. *)
Lemma ceiling_le (a k : Z) :
  - ((- a) / weight 0) <= k <-> a <= k * weight 0.
Proof.
  pose proof (weight_pos 0 ltac:(lia)) as Hw0. split; intros H.
  - destruct (Z.le_gt_cases a (k * weight 0)) as [L|L]; [exact L|exfalso].
    assert ((- a) / weight 0 < - k)
      by (apply Z.div_lt_upper_bound; lia).
    lia.
  - assert (- k <= (- a) / weight 0)
      by (apply Z.div_le_lower_bound; lia).
    lia.
Qed.

(** Twice a number between 0 and 2048 is exact. *)
Lemma double_rank (D : float) :
  is_nan D = false ->
  0 <= rank (Prim2SF D) <= 2048 * weight 0 ->
  rank (Prim2SF (D * 2)) = 2 * rank (Prim2SF D).
Proof.
  intros N H. pose proof (Prim2SF_valid D) as V. rewrite mul_spec.
  change (Prim2SF 2) with (S754_finite false 4503599627370496 (-51)).
  pose proof (weight_pos 0 ltac:(lia)) as Hw0.
  apply not_nan_SF in N.
  destruct (Prim2SF D) as [s|s| |s m e]; cbn [rank] in *.
  - reflexivity.
  - exfalso. pose proof (weight_mono 0 971 ltac:(lia) ltac:(lia)).
    change (2 ^ 53) with 9007199254740992 in H.
    destruct s; cbn [cond_Zopp] in H; lia.
  - congruence.
  - pose proof (finite_rank_bounds _ _ _ V) as Hb.
    destruct s; cbn [cond_Zopp] in *; [lia|].
    destruct (valid_finite _ _ _ V) as (Be & Bm & Cm).
    assert (He : e < 0).
    { destruct (Z.lt_ge_cases e 0) as [L|L]; [exact L|exfalso].
      specialize (Cm ltac:(lia)).
      pose proof (weight_mono 0 e ltac:(lia) L).
      assert (2 ^ 52 * weight 0 <= Zpos m * weight e).
      { apply Z.le_trans with (2 ^ 52 * weight e).
        - apply Z.mul_le_mono_nonneg_l; lia.
        - apply Z.mul_le_mono_nonneg_r; lia. }
      change (2 ^ 52) with 4503599627370496 in *. lia. }
    destruct (representable (Zpos m) (e + 1) ltac:(lia) ltac:(lia))
      as (mf & ef & Vf & Hf).
    pose proof (mul_rounds m 4503599627370496 e (-51) V eq_refl) as R.
    rewrite (rounds_to_exact _ _ _ mf ef R ltac:(reflexivity) Vf).
    + cbn [rank cond_Zopp]. rewrite Hf, weight_succ by lia. ring.
    + rewrite Hf, weight_succ by lia.
      change (Zpos 4503599627370496 * weight (-51)) with (2 * 2 ^ 1200).
      ring.
Qed.

(** Half of an integer below [2^53]. *)
Lemma half_whole (j : Z) :
  0 < j < 2 ^ 53 ->
  is_nan (wholeNumber j / 2) = false
  /\ 2 * rank (Prim2SF (wholeNumber j / 2)) = j * weight 0.
Proof.
  intros Hj. unfold wholeNumber.
  destruct (of_Z_whole j ltac:(lia)) as (N & R).
  pose proof (Prim2SF_valid (of_uint63 (Uint63.of_Z j))) as V.
  pose proof (weight_pos 0 ltac:(lia)) as Hw0.
  rewrite is_nan_SF, div_spec.
  change (Prim2SF 2) with (S754_finite false 4503599627370496 (-51)).
  apply not_nan_SF in N.
  destruct (Prim2SF (of_uint63 (Uint63.of_Z j))) as [s|s| |s m e];
    cbn [rank] in R.
  - nia.
  - exfalso. pose proof (weight_mono 0 971 ltac:(lia) ltac:(lia)).
    assert (j * weight 0 < 2 ^ 53 * weight 0)
      by (apply Z.mul_lt_mono_pos_r; lia).
    change (2 ^ 53) with 9007199254740992 in *.
    destruct s; cbn [cond_Zopp] in R; lia.
  - congruence.
  - pose proof (finite_rank_bounds _ _ _ V) as Hb.
    assert (0 < j * weight 0) by (apply Z.mul_pos_pos; lia).
    destruct s; cbn [cond_Zopp] in R; [lia|].
    destruct (representable j (-1) ltac:(lia) ltac:(lia))
      as (mf & ef & Vf & Hf).
    pose proof (div_rounds m 4503599627370496 e (-51) V eq_refl) as Rd.
    rewrite (rounds_to_exact _ _ _ mf ef Rd ltac:(reflexivity) Vf).
    + split; [reflexivity|]. cbn [rank cond_Zopp]. rewrite Hf.
      change (weight 0) with (2 * weight (-1)). ring.
    + rewrite Hf, R.
      change (Zpos 4503599627370496 * weight (-51)) with (2 * 2 ^ 1200).
      change (weight 0) with (2 * weight (-1)).
      change (2 ^ 1200) with (2 * weight (-1)). ring.
Qed.

(** A third of a number up to [3 * j] is at most [j]. *)
Lemma third_upper (D : float) (j : Z) :
  is_nan D = false -> 0 < j < 2 ^ 52 ->
  rank (Prim2SF D) <= 3 * j * weight 0 ->
  rank (Prim2SF (D / 3)) <= j * weight 0.
Proof.
  intros N Hj H. pose proof (Prim2SF_valid D) as V.
  pose proof (weight_pos 0 ltac:(lia)) as Hw0.
  assert (0 < j * weight 0) by (apply Z.mul_pos_pos; lia).
  destruct (Z.le_gt_cases (rank (Prim2SF D)) 0) as [L|L].
  - pose proof (third_mono D 0 N eq_refl L) as M.
    change (rank (Prim2SF (0 / 3))) with 0 in M. lia.
  - rewrite div_spec.
    change (Prim2SF 3) with (S754_finite false 6755399441055744 (-51)).
    destruct (Prim2SF D) as [s|s| |s m e]; cbn [rank] in *; try lia.
    + exfalso. pose proof (weight_lt 0 971 ltac:(lia) ltac:(lia)).
      assert (3 * j * weight 0 < 3 * 2 ^ 52 * weight 0)
        by (apply Z.mul_lt_mono_pos_r; lia).
      change (2 ^ 53) with 9007199254740992 in *.
      change (2 ^ 52) with 4503599627370496 in *.
      destruct s; cbn [cond_Zopp] in *; lia.
    + pose proof (finite_rank_bounds _ _ _ V) as Hb.
      destruct s; cbn [cond_Zopp] in *; [lia|].
      destruct (representable j 0
                  ltac:(change (2 ^ 53) with (2 * 2 ^ 52); lia) ltac:(lia))
        as (mf & ef & Vf & Hf).
      pose proof (div_rounds m 6755399441055744 e (-51) V eq_refl) as R.
      destruct (rounds_sandwich _ _ _ mf ef R ltac:(reflexivity) Vf)
        as (S1 & _).
      rewrite Hf in S1. apply S1.
      change (Zpos 6755399441055744 * weight (-51)) with (3 * weight 0).
      change (2 ^ 1200) with (weight 0).
      assert (Zpos m * weight e * weight 0 <= 3 * j * weight 0 * weight 0)
        by (apply Z.mul_le_mono_nonneg_r; lia).
      lia.
Qed.

(** The arithmetic of a quotient by 3 that is rounded down to a multiple
    [j * W0] of the unit: the dividend [mm * we], above [3 * j * W0] and,
    like it, a multiple of [we], is above it by [we] at least; being at or
    below the midpoint, it is within [3 * G / 2] of it, where [G] is the
    unit of the last place of the quotient; and [we] is more than that,
    since the quotient has 53 bits. *)
Lemma quotient_never_rounds_down (mm d we G W0 j m1 : Z) :
  0 < we -> 0 < G -> 0 < d ->
  0 < mm < 2 ^ 53 ->
  W0 = d * we ->
  3 * j * W0 < mm * we ->
  m1 * G = j * W0 ->
  2 ^ 52 <= m1 ->
  2 * (mm * we) <= (2 * m1 + 1) * G * 3 ->
  False.
Proof.
  intros Hwe HG Hd Hmm HW Hgt HT Hm1 Hdn. subst W0.
  assert (S1 : 3 * j * d < mm).
  { apply Z.mul_lt_mono_pos_r with (p := we); [exact Hwe|]. lia. }
  assert (S2 : (3 * j * d + 1) * we <= mm * we)
    by (apply Z.mul_le_mono_nonneg_r; lia).
  assert (S3 : 2 ^ 52 * G <= m1 * G)
    by (apply Z.mul_le_mono_nonneg_r; lia).
  assert (S4 : mm * we < 2 ^ 53 * we)
    by (apply Z.mul_lt_mono_pos_r; lia).
  change (2 ^ 53) with 9007199254740992 in *.
  change (2 ^ 52) with 4503599627370496 in *. lia.
Qed.

(** A third of a number above [3 * j], for [j] from 50 on, is above [j]:
    the quotient is rounded, but never down to [j]. *)
Lemma third_lower (D : float) (j : Z) :
  is_nan D = false -> 50 <= j < 2 ^ 50 ->
  3 * j * weight 0 < rank (Prim2SF D) ->
  j * weight 0 < rank (Prim2SF (D / 3)).
Proof.
  intros N Hj H. pose proof (Prim2SF_valid D) as V.
  pose proof (weight_pos 0 ltac:(lia)) as Hw0.
  assert (Hjw : 0 < j * weight 0) by (apply Z.mul_pos_pos; lia).
  assert (Hj50 : j * weight 0 < 2 ^ 50 * weight 0)
    by (apply Z.mul_lt_mono_pos_r; lia).
  pose proof (weight_mono 0 971 ltac:(lia) ltac:(lia)) as H971.
  rewrite div_spec.
  change (Prim2SF 3) with (S754_finite false 6755399441055744 (-51)).
  destruct (Prim2SF D) as [s|s| |s m e]; cbn [rank] in H; try lia.
  - destruct s; cbn [cond_Zopp] in H.
    + change (2 ^ 53) with 9007199254740992 in *. lia.
    + cbn. change (2 ^ 53) with 9007199254740992 in *.
      change (2 ^ 50) with 1125899906842624 in *. lia.
  - pose proof (finite_rank_bounds _ _ _ V) as Hb.
    destruct s; cbn [cond_Zopp] in H; [lia|].
    destruct (valid_finite _ _ _ V) as (Be & Bm & Cm).
    pose proof (weight_pos e ltac:(lia)) as Hwe.
    pose proof (div_rounds m 6755399441055744 e (-51) V eq_refl) as R.
    change (Zpos 6755399441055744 * weight (-51)) with (3 * weight 0) in R.
    change (2 ^ 1200) with (weight 0) in R.
    set (W0 := weight 0) in *. set (a := Zpos m * weight e) in *.
    destruct (Z.le_gt_cases 0 e) as [He|He].
    + (* a number from [2^52] on *)
      specialize (Cm ltac:(lia)).
      pose proof (weight_mono 0 e ltac:(lia) He) as Hwe0. fold W0 in Hwe0.
      assert (Ha : 2 ^ 52 * W0 <= a).
      { apply Z.le_trans with (2 ^ 52 * weight e).
        - apply Z.mul_le_mono_nonneg_l; lia.
        - apply Z.mul_le_mono_nonneg_r; lia. }
      destruct (representable (2 ^ 50) 0 ltac:(lia) ltac:(lia))
        as (mf & ef & Vf & Hf).
      destruct (rounds_sandwich _ _ _ mf ef R ltac:(lia) Vf) as (_ & S2).
      rewrite Hf in S2. fold W0 in S2.
      assert (2 ^ 50 * W0 <= rank (SF64div (S754_finite false m e)
                                     (S754_finite false 6755399441055744
                                        (-51)))).
      { apply S2.
        assert (2 ^ 52 * W0 * W0 <= a * W0)
          by (apply Z.mul_le_mono_nonneg_r; lia).
        change (2 ^ 52) with (4 * 2 ^ 50) in *. lia. }
      lia.
    + destruct (representable j 0
                  ltac:(change (2 ^ 53) with (8 * 2 ^ 50); lia) ltac:(lia))
        as (mf & ef & Vf & Hf).
      destruct (rounds_sandwich _ _ _ mf ef R ltac:(lia) Vf) as (_ & S2).
      rewrite Hf in S2. fold W0 in S2.
      assert (Hle : j * W0 <= rank (SF64div (S754_finite false m e)
                                      (S754_finite false 6755399441055744
                                         (-51)))).
      { apply S2.
        assert (3 * j * W0 * W0 <= a * W0)
          by (apply Z.mul_le_mono_nonneg_r; lia).
        lia. }
      destruct (Z.eq_dec (rank (SF64div (S754_finite false m e)
                                  (S754_finite false 6755399441055744
                                     (-51))))
                  (j * W0)) as [Heq|Hne]; [exfalso|lia].
      destruct R as (m1 & m2 & e1 & He1 & Hm1 & Hcanon & Hr & (P1 & P2)
                     & Hcases).
      assert (Hm2 : m1 <= m2 <= m1 + 1)
        by (destruct Hcases as [(-> & _)|(-> & _)]; lia).
      rewrite Hr in Heq.
      destruct (finish_rank false m2 e1 ltac:(lia) He1 ltac:(lia))
        as (_ & _ & Hrank).
      rewrite Hrank in Heq. cbn [cond_Zopp] in Heq.
      pose proof (weight_pos e1 ltac:(lia)) as HG.
      set (G := weight e1) in *.
      assert (HT : m2 * G = j * W0).
      { change (2 ^ 53) with 9007199254740992 in *.
        change (2 ^ 50) with 1125899906842624 in *. lia. }
      assert (P2' : a < (m1 + 1) * G * 3).
      { apply Z.mul_lt_mono_pos_r with (p := W0); [exact Hw0|]. lia. }
      (* the quotient was rounded down *)
      destruct Hcases as [(-> & Hdn & _)|(-> & _)]; [|lia].
      assert (H1 : 2 * a <= (2 * m1 + 1) * G * 3).
      { apply Z.mul_le_mono_pos_r with (p := W0); [exact Hw0|]. lia. }
      (* the quotient has 53 bits *)
      assert (Hnorm : 2 ^ 52 <= m1).
      { apply Hcanon.
        destruct (Z.eq_dec e1 (-1074)) as [E1|E1]; [exfalso|lia].
        assert (Hsmall : 2 ^ 53 * weight (-1074) < W0)
          by (vm_compute; reflexivity).
        rewrite <- E1 in Hsmall. fold G in Hsmall.
        assert (m1 * G <= 2 ^ 53 * G)
          by (apply Z.mul_le_mono_nonneg_r; lia).
        assert (50 * W0 <= j * W0)
          by (apply Z.mul_le_mono_nonneg_r; lia).
        lia. }
      assert (HW : W0 = 2 ^ (- e) * weight e).
      { unfold W0. replace 0 with (e + - e) at 1 by lia.
        apply weight_add; lia. }
      exact (quotient_never_rounds_down (Zpos m) (2 ^ (- e)) (weight e) G
               W0 j m1 Hwe HG ltac:(apply Z.pow_pos_nonneg; lia)
               ltac:(lia) HW H HT Hnorm H1).
Qed.

Local Close Scope Z_scope.

(** The number of placeholder bars for a duration that is a number. *)
Lemma waveform_count (D : float) :
  is_nan D = false ->
  ToLength (clamp (Math_ceil (D * 2)) 100 1000)
  = Z.max 100 (Z.min 1000 (- ((- rank (Prim2SF (D * 2))) / weight 0)))%Z.
Proof.
  intros N.
  apply lane_count; try reflexivity. apply mul_two_not_nan. exact N.
Qed.

(** The number of placeholder thumbnails for a duration that is a
    number. *)
Lemma thumbnail_count (D : float) :
  is_nan D = false ->
  ToLength (clamp (Math_ceil (D / 3)) 50 300)
  = Z.max 50 (Z.min 300 (- ((- rank (Prim2SF (D / 3))) / weight 0)))%Z.
Proof.
  intros N.
  apply lane_count; try reflexivity. apply div_three_not_nan. exact N.
Qed.

(** The ceiling keeps the order. *)
Lemma ceiling_mono (a b : Z) :
  (a <= b)%Z ->
  (- ((- a) / weight 0) <= - ((- b) / weight 0))%Z.
Proof.
  intros H. pose proof (weight_pos 0 ltac:(lia)).
  assert ((- b) / weight 0 <= (- a) / weight 0)%Z
    by (apply Z.div_le_mono; lia).
  lia.
Qed.

(** The ceiling of a quantity that is not positive is not positive. *)
Lemma ceiling_nonpos (a : Z) :
  (a <= 0)%Z -> (- ((- a) / weight 0) <= 0)%Z.
Proof.
  intros H. pose proof (weight_pos 0 ltac:(lia)).
  assert (0 <= (- a) / weight 0)%Z by (apply Z.div_pos; lia).
  lia.
Qed.

(** The number of placeholder bars, from the duration: [k] bars for a
    duration above [(k - 1) / 2] and up to [k / 2]. *)
Lemma waveform_count_exact (D : float) (k : Z) :
  (100 <= k <= 1000)%Z ->
  ((100 < k)%Z -> (wholeNumber (k - 1) / 2 <? D) = true) ->
  ((k < 1000)%Z -> (D <=? wholeNumber k / 2) = true) ->
  ToLength (clamp (Math_ceil (D * 2)) 100 1000) = k.
Proof.
  intros Hk Hlo Hhi.
  pose proof (weight_pos 0 ltac:(lia)) as Hw0.
  assert (N : is_nan D = false).
  { destruct (Z.eq_dec k 100) as [E|E].
    - apply leb_true in Hhi; [|lia]. tauto.
    - apply ltb_true in Hlo; [|lia]. tauto. }
  assert (F1 : (100 < k -> (k - 1) * weight 0 < 2 * rank (Prim2SF D))%Z).
  { intros H. specialize (Hlo H). apply ltb_true in Hlo.
    destruct (half_whole (k - 1)
                ltac:(change (2 ^ 53)%Z with 9007199254740992%Z; lia))
      as (_ & R).
    lia. }
  assert (F2 : (k < 1000 -> 2 * rank (Prim2SF D) <= k * weight 0)%Z).
  { intros H. specialize (Hhi H). apply leb_true in Hhi.
    destruct (half_whole k
                ltac:(change (2 ^ 53)%Z with 9007199254740992%Z; lia))
      as (_ & R).
    lia. }
  assert (Hkw : (100 * weight 0 <= k * weight 0 <= 1000 * weight 0)%Z)
    by (split; apply Z.mul_le_mono_nonneg_r; lia).
  rewrite (waveform_count D N).
  set (r := rank (Prim2SF (D * 2))).
  pose proof (ceiling_le r k) as Ck.
  pose proof (ceiling_le r (k - 1)) as Ck1.
  destruct (Z.lt_ge_cases (rank (Prim2SF D)) 0) as [L|L].
  - pose proof (ceiling_nonpos _ (double_negative D N L)). fold r in H.
    lia.
  - destruct (Z.le_gt_cases (rank (Prim2SF D)) (2048 * weight 0))
      as [S|S].
    + pose proof (double_rank D N (conj L S)) as E. fold r in E. lia.
    + pose proof (double_mono 2048 D eq_refl N) as M. fold r in M.
      assert (R2048 : rank (Prim2SF 2048) = (2048 * weight 0)%Z)
        by reflexivity.
      assert (R4096 : rank (Prim2SF (2048 * 2)) = (4096 * weight 0)%Z)
        by reflexivity.
      rewrite R2048, R4096 in M. specialize (M ltac:(lia)).
      pose proof (ceiling_le r 1000) as C1000. lia.
Qed.

(** The number of placeholder thumbnails, from the duration: [k]
    thumbnails for a duration above [3 * (k - 1)] and up to [3 * k]. *)
Lemma thumbnail_count_exact (D : float) (k : Z) :
  (50 <= k <= 300)%Z ->
  ((50 < k)%Z -> (wholeNumber (3 * (k - 1)) <? D) = true) ->
  ((k < 300)%Z -> (D <=? wholeNumber (3 * k)) = true) ->
  ToLength (clamp (Math_ceil (D / 3)) 50 300) = k.
Proof.
  intros Hk Hlo Hhi.
  pose proof (weight_pos 0 ltac:(lia)) as Hw0.
  assert (N : is_nan D = false).
  { destruct (Z.eq_dec k 50) as [E|E].
    - apply leb_true in Hhi; [|lia]. tauto.
    - apply ltb_true in Hlo; [|lia]. tauto. }
  assert (Hkw : (50 * weight 0 <= k * weight 0 <= 300 * weight 0)%Z)
    by (split; apply Z.mul_le_mono_nonneg_r; lia).
  rewrite (thumbnail_count D N).
  set (r := rank (Prim2SF (D / 3))).
  pose proof (ceiling_le r k) as Ck.
  pose proof (ceiling_le r (k - 1)) as Ck1.
  assert (F1 : (50 < k -> (k - 1) * weight 0 < r)%Z).
  { intros H. specialize (Hlo H). apply ltb_true in Hlo.
    destruct Hlo as (_ & _ & Hlo). unfold wholeNumber in Hlo.
    destruct (of_Z_whole (3 * (k - 1))
                ltac:(change (2 ^ 53)%Z with 9007199254740992%Z; lia))
      as (_ & R).
    rewrite R in Hlo.
    apply (third_lower D (k - 1) N);
      [change (2 ^ 50)%Z with 1125899906842624%Z; lia | lia]. }
  assert (F2 : (k < 300 -> r <= k * weight 0)%Z).
  { intros H. specialize (Hhi H). apply leb_true in Hhi.
    destruct Hhi as (_ & _ & Hhi). unfold wholeNumber in Hhi.
    destruct (of_Z_whole (3 * k)
                ltac:(change (2 ^ 53)%Z with 9007199254740992%Z; lia))
      as (_ & R).
    rewrite R in Hhi.
    apply (third_upper D k N);
      [change (2 ^ 52)%Z with 4503599627370496%Z; lia | lia]. }
  lia.
Qed.

(** ** More facts about the handlers *)

(** Two filters in a row are one. *)
Lemma filter_filter {A : Type} (f g : A -> bool) (l : list A) :
  filter f (filter g l) = filter (fun x => g x && f x) l.
Proof.
  induction l as [|a l IH]; simpl; [reflexivity|].
  destruct (g a); simpl; [destruct (f a)|]; rewrite IH; reflexivity.
Qed.

(** Running the pointer-up listeners of [l] removes from [document] the
    listeners that [l] holds. *)
Lemma mouseUps_listeners (l : list Render) (c : Component) :
  documentListeners (fold_left (fun c r => handleMarkerMouseUp r c) l c)
  = filter (fun r' => forallb (fun r => negb (Render_eqb r r')) l)
      (documentListeners c).
Proof.
  revert c. induction l as [|r l IH]; intros c; simpl.
  - induction (documentListeners c) as [|a L IHL]; simpl; congruence.
  - rewrite IH. unfold handleMarkerMouseUp, removeEventListener. simpl.
    apply filter_filter.
Qed.

(** A filter that rejects every element leaves nothing. *)
Lemma filter_none {A : Type} (f : A -> bool) (l : list A) :
  (forall x, In x l -> f x = false) -> filter f l = [].
Proof.
  induction l as [|a l IH]; intros H; simpl; [reflexivity|].
  rewrite (H a (or_introl eq_refl)). apply IH.
  intros x Hx. apply H. right. exact Hx.
Qed.

(** A pointer-up calls every registered listener, and each one removes
    itself: none is left. *)
Lemma mouseUp_clears (c : Component) :
  documentListeners (step DocumentMouseUp c) = [].
Proof.
  simpl. rewrite mouseUps_listeners. apply filter_none.
  intros r' Hr'. apply not_true_is_false. intros H.
  rewrite forallb_forall in H. specialize (H r' Hr').
  rewrite Render_eqb_refl in H. discriminate.
Qed.

(** Pointer-up listeners change the two ref cells of a drag and nothing
    else of the component. *)
Lemma mouseUps_fields (l : list Render) (c : Component) :
  let c' := fold_left (fun c r => handleMarkerMouseUp r c) l c in
  cropMode c' = cropMode c
  /\ cropStartTime c' = cropStartTime c
  /\ cropEndTime c' = cropEndTime c
  /\ videoDuration c' = videoDuration c
  /\ videoRef c' = videoRef c
  /\ timelineRef c' = timelineRef c
  /\ componentValues c' = componentValues c
  /\ (l <> [] -> isDraggingRef c' = false /\ activeMarkerRef c' = None).
Proof.
  revert c. induction l as [|r l IH]; intros c; simpl.
  - repeat split; congruence.
  - destruct (IH (handleMarkerMouseUp r c))
      as (H1 & H2 & H3 & H4 & H5 & H6 & H7 & H8).
    simpl in *. repeat split; try assumption.
    + destruct l as [|r' l]; [reflexivity|].
      apply H8. discriminate.
    + destruct l as [|r' l]; [reflexivity|].
      apply H8. discriminate.
Qed.

(** Drag listeners leave the ref cells, the listeners and the mode as they
    are. *)
Lemma drags_fields (e : MouseEvent) (l : list Render) (c : Component) :
  let c' := fold_left (fun c r => handleMarkerDrag r e c) l c in
  isDraggingRef c' = isDraggingRef c
  /\ activeMarkerRef c' = activeMarkerRef c
  /\ documentListeners c' = documentListeners c
  /\ cropMode c' = cropMode c.
Proof.
  revert c. induction l as [|r l IH]; intros c; simpl.
  - repeat split.
  - destruct (IH (handleMarkerDrag r e c)) as (H1 & H2 & H3 & H4).
    assert (H : isDraggingRef (handleMarkerDrag r e c) = isDraggingRef c
                /\ activeMarkerRef (handleMarkerDrag r e c)
                   = activeMarkerRef c
                /\ documentListeners (handleMarkerDrag r e c)
                   = documentListeners c
                /\ cropMode (handleMarkerDrag r e c) = cropMode c).
    { unfold handleMarkerDrag.
      destruct (isDraggingRef c) eqn:Ed; [|repeat split; assumption].
      destruct (timelineRef c) as [timeline|];
        [|repeat split; assumption].
      destruct (activeMarkerRef c) as [[|]|] eqn:Ea;
        [| |repeat split; assumption].
      - destruct (_ <? _); [|repeat split; assumption].
        destruct (seek_fields (newTime r timeline e)
                    (setCropStartTime (newTime r timeline e) c))
          as (F1 & _ & _ & F4 & F5 & F6 & _).
        rewrite F1, F4, F5, F6. repeat split; assumption.
      - destruct (_ <? _); [|repeat split; assumption].
        destruct (seek_fields (newTime r timeline e)
                    (setCropEndTime (newTime r timeline e) c))
          as (F1 & _ & _ & F4 & F5 & F6 & _).
        rewrite F1, F4, F5, F6. repeat split; assumption. }
    destruct H as (G1 & G2 & G3 & G4).
    rewrite H1, H2, H3, H4. repeat split; assumption.
Qed.

(** Every event keeps the ref cells in agreement with the listeners. *)
Lemma step_keeps_dragConsistent (ev : Event) (c : Component) :
  dragConsistent c -> dragConsistent (step ev c).
Proof.
  intros (H1 & H2).
  destruct ev as [d|rect| | | |m|m|e| ].
  - simpl. destruct (videoRef c); split; assumption.
  - split; assumption.
  - simpl. destruct (cropMode c) eqn:Hm; [split; assumption|].
    unfold handleToggleCrop. simpl. rewrite Hm. split; assumption.
  - simpl. destruct (cropMode c); split; assumption.
  - simpl. destruct (cropMode c); split; assumption.
  - simpl. destruct (cropMode c); [|split; assumption].
    unfold handleMarkerMouseDown, addEventListener. simpl.
    destruct (existsb (Render_eqb (render c)) (documentListeners c)) eqn:E.
    + assert (Hne : documentListeners c <> []).
      { intros H. rewrite H in E. discriminate. }
      unfold dragConsistent. simpl. split; split; intros _;
        try exact Hne; try reflexivity; discriminate.
    + unfold dragConsistent. simpl. split; split; intros _;
        try reflexivity; try discriminate;
        intros H; apply app_eq_nil in H; destruct H; discriminate.
  - simpl. destruct (cropMode c); [|split; assumption].
    unfold handleMarkerDoubleClick.
    destruct (seek_fields (match m with
                           | marker_start => cropStartTime c
                           | marker_end => cropEndTime c
                           end) c)
      as (_ & _ & _ & F4 & F5 & F6 & _).
    unfold dragConsistent. rewrite F4, F5, F6. split; assumption.
  - simpl. destruct (drags_fields e (documentListeners c) c)
      as (F1 & F2 & F3 & _).
    unfold dragConsistent. rewrite F1, F2, F3. split; assumption.
  - pose proof (mouseUp_clears c) as Hl.
    destruct (mouseUps_fields (documentListeners c) c)
      as (_ & _ & _ & _ & _ & _ & _ & H8).
    change (fold_left (fun c r => handleMarkerMouseUp r c)
              (documentListeners c) c) with (step DocumentMouseUp c) in H8.
    unfold dragConsistent. rewrite Hl.
    destruct (documentListeners c) as [|r l] eqn:El.
    + simpl. rewrite El in *. split; assumption.
    + destruct (H8 ltac:(discriminate)) as (G1 & G2). rewrite G1, G2.
      split; split; intros H; try discriminate; congruence.
Qed.

(** An event leaves the values sent to Streamlit as they are, unless it is
    a click on the apply button in crop mode, which sends the interval. *)
Lemma step_componentValues (ev : Event) (c : Component) :
  componentValues (step ev c) = componentValues c
  \/ (isClickAplicarCorte ev = true /\ cropMode c = true
      /\ cropMode (step ev c) = false
      /\ componentValues (step ev c)
         = componentValues c
           ++ [ {| cv_start := cropStartTime c;
                   cv_end := cropEndTime c;
                   shouldRefreshTaskList := true |} ]).
Proof.
  destruct ev as [d|rect| | | |m|m|e| ]; simpl.
  - left. destruct (videoRef c); reflexivity.
  - left. reflexivity.
  - left. destruct (cropMode c) eqn:Hm; [reflexivity|].
    unfold handleToggleCrop. simpl. rewrite Hm. reflexivity.
  - destruct (cropMode c) eqn:Hm; [right|left; reflexivity].
    repeat split.
  - left. destruct (cropMode c); reflexivity.
  - left. destruct (cropMode c); [|reflexivity].
    unfold handleMarkerMouseDown, addEventListener.
    destruct (existsb _ _); reflexivity.
  - left. destruct (cropMode c); [|reflexivity].
    unfold handleMarkerDoubleClick.
    destruct (seek_fields (match m with
                           | marker_start => cropStartTime c
                           | marker_end => cropEndTime c
                           end) c)
      as (_ & _ & _ & _ & _ & _ & F & _).
    exact F.
  - left. apply (fold_left_keeps componentValues). intros c0 r.
    apply handleMarkerDrag_componentValues.
  - left. apply (fold_left_keeps componentValues). intros c0 r. reflexivity.
Qed.

(** Events other than clicks on the apply button send nothing. *)
Lemma run_without_apply (evs : list Event) (c : Component) :
  filter isClickAplicarCorte evs = [] ->
  componentValues (run evs c) = componentValues c.
Proof.
  revert c. induction evs as [|ev evs IH]; intros c H; [reflexivity|].
  change (run (ev :: evs) c) with (run evs (step ev c)).
  simpl in H. destruct (isClickAplicarCorte ev) eqn:E; [discriminate|].
  rewrite (IH _ H).
  destruct (step_componentValues ev c) as [G|(Ea & _)];
    [exact G | congruence].
Qed.

(** Seeking leaves the duration as it is. *)
Lemma seek_videoDuration (t : float) (c : Component) :
  videoDuration (seek t c) = videoDuration c.
Proof. unfold seek. destruct (videoRef c); reflexivity. Qed.

(** So does a drag. *)
Lemma handleMarkerDrag_videoDuration (r : Render) (e : MouseEvent)
    (c : Component) :
  videoDuration (handleMarkerDrag r e c) = videoDuration c.
Proof.
  unfold handleMarkerDrag.
  destruct (isDraggingRef c); [|reflexivity].
  destruct (timelineRef c) as [timeline|]; [|reflexivity].
  destruct (activeMarkerRef c) as [[|]|]; [| |reflexivity];
    (destruct (_ <? _); [|reflexivity]);
    rewrite seek_videoDuration; reflexivity.
Qed.

(** In an interval in order and in range the duration is not negative. *)
Lemma within_duration (c : Component) :
  ordered c -> within c -> (0 <=? videoDuration c) = true.
Proof.
  unfold ordered, within. intros Ho (H0 & H1).
  apply ltb_true in Ho. apply leb_true in H0, H1. apply leb_true.
  destruct Ho as (_ & _ & Ho), H0 as (_ & _ & H0), H1 as (_ & N & H1).
  repeat split; try assumption; lia.
Qed.

(** A drag keeps an open session and the interval in range. *)
Lemma drag_keeps_within (m : MarkerType) (r : Render) (e : MouseEvent)
    (c : Component) :
  graspedWithin m r c -> graspedWithin m r (handleMarkerDrag r e c).
Proof.
  intros (G & Hd & W).
  split; [exact (drag_keeps_grasp m r e c G)|].
  rewrite handleMarkerDrag_videoDuration. split; [exact Hd|].
  pose proof G as (Hm & Ho & Hl & Hg & Ha & Hs).
  pose proof (within_duration c Ho W) as HD. rewrite <- Hd in HD.
  destruct W as (W0 & W1).
  unfold handleMarkerDrag. rewrite Hg, Ha.
  destruct (timelineRef c) as [timeline|]; [|split; assumption].
  pose proof (newTime_range r timeline e HD) as R. simpl in R.
  destruct m.
  - destruct (newTime r timeline e <? r_cropEndTime r) eqn:E;
      [|split; assumption].
    destruct (seek_fields (newTime r timeline e)
                (setCropStartTime (newTime r timeline e) c))
      as (_ & F2 & F3 & _).
    unfold within. rewrite F2, F3, seek_videoDuration. simpl.
    split; [|exact W1].
    destruct (ltb_not_nan _ _ E) as (N & _).
    destruct R as [R|(R & _)]; [congruence | exact R].
  - destruct (r_cropStartTime r <? newTime r timeline e) eqn:E;
      [|split; assumption].
    destruct (seek_fields (newTime r timeline e)
                (setCropEndTime (newTime r timeline e) c))
      as (_ & F2 & F3 & _).
    unfold within. rewrite F2, F3, seek_videoDuration. simpl.
    split; [exact W0|].
    destruct (ltb_not_nan _ _ E) as (_ & N).
    destruct R as [R|(_ & R)]; [congruence|]. rewrite <- Hd. exact R.
Qed.

(** So does every event of a session. *)
Lemma sessionEvent_keeps_within (m : MarkerType) (r : Render)
    (s : SessionEvent) (c : Component) :
  graspedWithin m r c -> graspedWithin m r (step (sessionEvent s) c).
Proof.
  intros G. destruct s as [e|rect]; simpl.
  - pose proof G as ((_ & _ & Hl & _) & _). rewrite Hl. simpl.
    apply drag_keeps_within. exact G.
  - exact G.
Qed.

(** And so do the events of a session one after another; the interval is
    ordered and in range after each of them. *)
Lemma moves_keep_within (m : MarkerType) (r : Render)
    (evs : list SessionEvent) (c : Component) :
  graspedWithin m r c ->
  Forall (fun c' => ordered c' /\ within c'
                    /\ videoDuration c' = videoDuration c)
    (runStates (map sessionEvent evs) c)
  /\ graspedWithin m r (run (map sessionEvent evs) c)
  /\ videoDuration (run (map sessionEvent evs) c) = videoDuration c.
Proof.
  revert c. induction evs as [|s evs IH]; intros c G; simpl.
  - split; [constructor|]. split; [exact G | reflexivity].
  - pose proof (sessionEvent_keeps_within m r s c G) as G'.
    assert (Hv : videoDuration (step (sessionEvent s) c) = videoDuration c).
    { destruct G as (_ & Hd & _), G' as (_ & Hd' & _). congruence. }
    destruct (IH _ G') as (IH1 & IH2 & IH3).
    change (run (sessionEvent s :: map sessionEvent evs) c)
      with (run (map sessionEvent evs) (step (sessionEvent s) c)).
    split; [|split; [exact IH2 | congruence]].
    constructor.
    + destruct G' as ((_ & Ho & _) & _ & W).
      split; [exact Ho|]. split; [exact W | exact Hv].
    + rewrite Hv in IH1. exact IH1.
Qed.

(** A whole session, from rest to rest. *)
Lemma session_keeps_within (s : Session) (c : Component) :
  atRest c -> within c ->
  let c' := run (sessionTrace s) c in
  Forall (fun c' => ordered c' /\ within c'
                    /\ videoDuration c' = videoDuration c)
    (runStates (sessionTrace s) c)
  /\ atRest c' /\ within c' /\ videoDuration c' = videoDuration c.
Proof.
  intros R W. destruct s as [m evs]. unfold sessionTrace.
  simpl fst. simpl snd.
  pose proof (mouseDown_grasps m c R) as G.
  assert (Hv : videoDuration (step (MarkerMouseDown m) c) = videoDuration c).
  { simpl. destruct R as (-> & _).
    unfold handleMarkerMouseDown, addEventListener.
    destruct (existsb _ _); reflexivity. }
  assert (W' : within (step (MarkerMouseDown m) c)).
  { simpl. destruct R as (-> & _).
    unfold handleMarkerMouseDown, addEventListener.
    destruct (existsb _ _); exact W. }
  assert (GW : graspedWithin m (render c) (step (MarkerMouseDown m) c)).
  { split; [exact G|]. split; [symmetry; exact Hv | exact W']. }
  destruct (moves_keep_within m (render c) evs _ GW) as (M1 & M2 & M3).
  destruct M2 as (M2 & _ & M4).
  pose proof (mouseUp_releases m (render c) _ M2) as R'.
  destruct (mouseUps_fields
              (documentListeners (run (map sessionEvent evs)
                                    (step (MarkerMouseDown m) c)))
              (run (map sessionEvent evs) (step (MarkerMouseDown m) c)))
    as (_ & U2 & U3 & U4 & _).
  change (MarkerMouseDown m :: map sessionEvent evs ++ [DocumentMouseUp])
    with ([MarkerMouseDown m] ++ map sessionEvent evs ++ [DocumentMouseUp]).
  rewrite !runStates_app, !run_app. simpl runStates. simpl run.
  set (c2 := run (map sessionEvent evs) (step (MarkerMouseDown m) c)) in *.
  change (fold_left (fun c r => handleMarkerMouseUp r c)
            (documentListeners c2) c2) with (step DocumentMouseUp c2)
    in U2, U3, U4.
  assert (W2 : within (step DocumentMouseUp c2)).
  { unfold within. rewrite U2, U3, U4. exact M4. }
  assert (V2 : videoDuration (step DocumentMouseUp c2) = videoDuration c)
    by congruence.
  split; [|split; [exact R'|split; [exact W2 | exact V2]]].
  constructor.
  - destruct G as (_ & Ho & _).
    split; [exact Ho|]. split; [exact W' | exact Hv].
  - apply Forall_app. split.
    + rewrite Hv in M1. exact M1.
    + constructor; [|constructor].
      destruct R' as (_ & Ho & _).
      split; [exact Ho|]. split; [exact W2 | exact V2].
Qed.

(** Sessions that follow one another. *)
Lemma sessions_keep_within (ss : list Session) (c : Component) :
  atRest c -> within c ->
  let c' := run (sessionsTrace ss) c in
  Forall (fun c' => ordered c' /\ within c'
                    /\ videoDuration c' = videoDuration c)
    (runStates (sessionsTrace ss) c)
  /\ atRest c' /\ within c' /\ videoDuration c' = videoDuration c.
Proof.
  revert c. induction ss as [|s ss IH]; intros c R W.
  - simpl. split; [constructor|].
    split; [exact R|]. split; [exact W | reflexivity].
  - destruct (session_keeps_within s c R W) as (S1 & S2 & S3 & S4).
    destruct (IH _ S2 S3) as (I1 & I2 & I3 & I4).
    change (sessionsTrace (s :: ss)) with (sessionTrace s ++ sessionsTrace ss).
    rewrite runStates_app, run_app.
    split; [|split; [exact I2|split; [exact I3 | congruence]]].
    apply Forall_app. split; [exact S1|].
    rewrite S4 in I1. exact I1.
Qed.

(** Drag sessions hold no click on the apply button. *)
Lemma sessionsTrace_no_apply (ss : list Session) :
  filter isClickAplicarCorte (sessionsTrace ss) = [].
Proof.
  induction ss as [|[m evs] ss IH]; [reflexivity|].
  change (sessionsTrace ((m, evs) :: ss))
    with (sessionTrace (m, evs) ++ sessionsTrace ss).
  rewrite filter_app, IH, app_nil_r. unfold sessionTrace. simpl.
  rewrite filter_app. simpl. rewrite app_nil_r.
  induction evs as [|[e|rect] evs IHe]; simpl; try assumption. reflexivity.
Qed.

(** The two counts after metadata with duration [D], until other metadata
    arrive. *)
Lemma counts_after_metadata (D : float) (video : HTMLVideoElement)
    (evs : list Event) (c : Component) :
  videoRef c = Some video ->
  forallb (fun ev => negb (isLoadedMetadata ev)) evs = true ->
  counts (run (LoadedMetadata D :: evs) c)
  = (clamp (Math_ceil (D / 3)) 50 300, clamp (Math_ceil (D * 2)) 100 1000).
Proof.
  intros Hv Hevs.
  change (run (LoadedMetadata D :: evs) c)
    with (run evs (step (LoadedMetadata D) c)).
  rewrite (run_keeps_counts evs _ Hevs). simpl. rewrite Hv.
  unfold counts, onLoadedMetadata. simpl.
  rewrite !min_max_clamp by reflexivity. reflexivity.
Qed.

(** The lengths of the lanes without supplied data after metadata with
    duration [D], until other metadata arrive. *)
Lemma placeholder_lengths (D : float) (video : HTMLVideoElement)
    (args : Args) (evs : list Event) (c : Component) :
  videoRef c = Some video ->
  forallb (fun ev => negb (isLoadedMetadata ev)) evs = true ->
  let c' := run (LoadedMetadata D :: evs) c in
  (waveform_data args = None \/ waveform_data args = Some [] ->
   List.length (audioWaveform args c')
   = Z.to_nat (ToLength (clamp (Math_ceil (D * 2)) 100 1000)))
  /\ (frame_data args = None \/ frame_data args = Some [] ->
      List.length (frameThumbnails args c')
      = Z.to_nat (ToLength (clamp (Math_ceil (D / 3)) 50 300))).
Proof.
  intros Hv Hevs c'.
  pose proof (counts_after_metadata D video evs c Hv Hevs) as Hc.
  fold c' in Hc. injection Hc as Ht Hw.
  split; intros H.
  - unfold audioWaveform, Array_from_length.
    destruct H as [-> | ->]; rewrite length_map, length_seq, Hw;
      reflexivity.
  - unfold frameThumbnails, Array_from_length.
    destruct H as [-> | ->]; rewrite length_map, length_seq, Ht;
      reflexivity.
Qed.

(** The empty list is the one of length zero. *)
Lemma length_zero_nil {A : Type} (l : list A) : l = [] <-> List.length l = 0%nat.
Proof. destruct l; split; intros H; try reflexivity; discriminate. Qed.

(** ** The claims *)

(** C1 fails on the code: a pointer-down on the end marker while the drag
    of the start marker is still open (no pointer-up in between) leaves the
    listener of the first drag registered.  With the start marker dragged
    to 118, the candidate 60 for the end marker is not above the start;
    but the first listener compares it with the start of its own render,
    which is 1, and accepts it: the interval becomes start = 118,
    end = 60. *)
Lemma overlapping_drags_invert_interval :
  let c3 := run [MarkerMouseDown marker_start;
                 DocumentMouseMove (mkMouseEvent 590);
                 MarkerMouseDown marker_end] cropping120 in
  let c4 := step (DocumentMouseMove (mkMouseEvent 300)) c3 in
  ordered cropping120
  /\ cropMode c3 = true /\ ordered c3
  /\ activeMarkerRef c3 = Some marker_end
  /\ cropStartTime c3 = 118 /\ cropEndTime c3 = 119
  /\ Forall (fun r => newTime r timeline600 (mkMouseEvent 300) = 60)
       (documentListeners c3)
  /\ (cropStartTime c3 <? 60) = false
  /\ cropStartTime c4 = 118 /\ cropEndTime c4 = 60
  /\ ~ ordered c4.
Proof.
  cbv zeta.
  split; [reflexivity|]. split; [reflexivity|]. split; [reflexivity|].
  split; [reflexivity|]. split; [reflexivity|]. split; [reflexivity|].
  split; [repeat constructor|]. split; [reflexivity|].
  split; [reflexivity|]. split; [reflexivity|].
  unfold ordered. discriminate.
Qed.

(** C1, as the code has it.  The listener of a drag compares the candidate
    with the interval of the render that registered it.  While that render
    holds the current value of the other marker, a candidate [t] for the
    start marker is accepted (start becomes [t]) exactly when [t < end], a
    candidate for the end marker exactly when [t > start], and the other
    marker stays put; and along drag sessions that follow one another,
    each pointer-down after the pointer-up of the session before, from an
    interval with [start < end], every state has [start < end] and every
    listener holds the current value of the other marker. *)
Theorem drag_accept_rule_keeps_order :
  (forall (r : Render) (e : MouseEvent) (timeline : DOMRect) (c : Component),
      isDraggingRef c = true ->
      timelineRef c = Some timeline ->
      ordered c ->
      let t := newTime r timeline e in
      let c' := handleMarkerDrag r e c in
      (activeMarkerRef c = Some marker_start ->
       r_cropEndTime r = cropEndTime c ->
       (cropStartTime c' = t <-> (t <? cropEndTime c) = true)
       /\ cropEndTime c' = cropEndTime c)
      /\ (activeMarkerRef c = Some marker_end ->
          r_cropStartTime r = cropStartTime c ->
          (cropEndTime c' = t <-> (cropStartTime c <? t) = true)
          /\ cropStartTime c' = cropStartTime c))
  /\ (forall (ss : list Session) (c : Component),
         cropMode c = true ->
         documentListeners c = [] ->
         ordered c ->
         Forall (fun c' => ordered c' /\ inSync c')
           (runStates (sessionsTrace ss) c)).
Proof.
  split.
  - intros r e timeline c Hd Ht Ho t c'. subst c'.
    unfold handleMarkerDrag. rewrite Hd, Ht. fold t. split.
    + intros Ha Hs. rewrite Ha, Hs.
      destruct (t <? cropEndTime c) eqn:E.
      * destruct (seek_fields t (setCropStartTime t c))
          as (_ & F2 & F3 & _).
        rewrite F2, F3. simpl. split; [|reflexivity].
        split; reflexivity.
      * split; [|reflexivity].
        split; [|discriminate].
        intros Hst. unfold ordered in Ho. rewrite Hst, E in Ho.
        discriminate.
    + intros Ha Hs. rewrite Ha, Hs.
      destruct (cropStartTime c <? t) eqn:E.
      * destruct (seek_fields t (setCropEndTime t c))
          as (_ & F2 & F3 & _).
        rewrite F2, F3. simpl. split; [|reflexivity].
        split; reflexivity.
      * split; [|reflexivity].
        split; [|discriminate].
        intros Hst. unfold ordered in Ho. rewrite Hst, E in Ho.
        discriminate.
  - intros ss c Hm Hl Ho. apply sessions_keep_order.
    repeat split; assumption.
Qed.

Lemma drag_accept_rule_keeps_order_witness :
  (cropStartTime
     (handleMarkerDrag (render cropping120) (mkMouseEvent 300) graspedStart120)
   = 60
   <-> (60 <? 119) = true)
  /\ Forall (fun c' => ordered c' /\ inSync c')
       (runStates (sessionsTrace sampleSessions) cropping120).
Proof.
  split.
  - apply (proj1 drag_accept_rule_keeps_order (render cropping120)
             (mkMouseEvent 300) timeline600 graspedStart120);
      reflexivity.
  - apply (proj2 drag_accept_rule_keeps_order sampleSessions cropping120);
      reflexivity.
Defined.

(** C2 fails on the code: for a one-second video the markers are put at
    start = 1 and end = 0.75. *)
Lemma short_video_crop_is_inverted :
  (0 <? videoDuration cropping1) = true
  /\ cropStartTime cropping1 = 1
  /\ cropEndTime cropping1 = 0.75
  /\ (cropStartTime cropping1 <? cropEndTime cropping1) = false.
Proof. repeat split. Qed.

(** C2, as the code has it.  Entering crop mode sets start = 1.0 and
    end = [Math.max(D - 1.0, D * 0.75)] for every duration [D]; for every
    [D > 0] this gives [0 <= start] and [end <= D], and [start < end]
    holds exactly when [D] is above [0x1.5555555555556p+0]
    (1.3333333333333335, the number of the format next above 4/3). *)
Theorem enter_crop_interval :
  forall c : Component,
    cropMode c = false ->
    let D := videoDuration c in
    let c' := step ClickModoDeCorte c in
    cropMode c' = true
    /\ cropStartTime c' = 1
    /\ cropEndTime c' = Math_max (D - 1) (D * 0.75)
    /\ ((0 <? D) = true ->
        (0 <=? cropStartTime c') = true
        /\ (cropEndTime c' <=? D) = true
        /\ (cropStartTime c' <? cropEndTime c')
           = (0x1.5555555555556p+0 <? D)).
Proof.
  intros c Hm D c'. subst c'. simpl. rewrite Hm.
  unfold handleToggleCrop. simpl. rewrite Hm. simpl. fold D.
  split; [reflexivity|]. split; [reflexivity|]. split; [reflexivity|].
  intros Hpos. destruct (default_end_bounds D Hpos) as (H1 & H2).
  split; [reflexivity|]. split; assumption.
Qed.

Lemma enter_crop_interval_witness :
  cropEndTime cropping120 = 119
  /\ (cropEndTime cropping120 <=? 120) = true
  /\ (cropStartTime cropping120 <? cropEndTime cropping120) = true.
Proof.
  destruct (enter_crop_interval (step (LoadedMetadata 120) (mount timeline600))
              eq_refl) as (_ & _ & H1 & H2).
  destruct (H2 eq_refl) as (_ & H3 & H4).
  split; [exact H1|]. split; [exact H3 | exact H4].
Defined.

(** C3.  The candidate time of the drag handler is
    [clamp((pointerX - leftEdge) / width, 0, 1) * duration]: the two are the
    same number for all inputs, and the very same value unless the fraction
    is [-0] (where the handler's zero is [+0]).  The candidate depends on
    the pointer position, the left edge, the width and the duration only,
    and it is the value an accepted drag stores. *)
Theorem drag_time_is_clamped_fraction :
  forall (r : Render) (timeline : DOMRect) (e : MouseEvent),
    let p := (clientX e - rect_left timeline) / rect_width timeline in
    let t := specTime (clientX e) (rect_left timeline) (rect_width timeline)
               (r_videoDuration r) in
    same_number (newTime r timeline e) t = true
    /\ (is_neg_zero p = false -> newTime r timeline e = t)
    /\ (forall (r' : Render) (timeline' : DOMRect) (e' : MouseEvent),
           clientX e' = clientX e ->
           rect_left timeline' = rect_left timeline ->
           rect_width timeline' = rect_width timeline ->
           r_videoDuration r' = r_videoDuration r ->
           newTime r' timeline' e' = newTime r timeline e)
    /\ (forall c : Component,
           isDraggingRef c = true ->
           timelineRef c = Some timeline ->
           (activeMarkerRef c = Some marker_start ->
            (newTime r timeline e <? r_cropEndTime r) = true ->
            cropStartTime (handleMarkerDrag r e c) = newTime r timeline e)
           /\ (activeMarkerRef c = Some marker_end ->
               (r_cropStartTime r <? newTime r timeline e) = true ->
               cropEndTime (handleMarkerDrag r e c) = newTime r timeline e)).
Proof.
  intros r timeline e p t.
  assert (Hnz : is_neg_zero p = false -> newTime r timeline e = t).
  { intros Hz. unfold newTime, dragPosition, t, specTime. fold p.
    rewrite (position_clamp p Hz). reflexivity. }
  split; [|split; [exact Hnz|split]].
  - destruct (is_neg_zero p) eqn:Hz.
    + unfold newTime, dragPosition, t, specTime. fold p.
      destruct (position_clamp_neg_zero p Hz) as (H1 & H2).
      rewrite H1, H2. apply mul_zeros_same_number.
    + rewrite (Hnz eq_refl). apply same_number_refl.
  - intros r' timeline' e' Hx Hl Hw Hd.
    unfold newTime, dragPosition. rewrite Hx, Hl, Hw, Hd. reflexivity.
  - intros c Hd Ht. unfold handleMarkerDrag. rewrite Hd, Ht. split.
    + intros Ha E. rewrite Ha, E.
      destruct (seek_fields (newTime r timeline e)
                  (setCropStartTime (newTime r timeline e) c))
        as (_ & F & _).
      rewrite F. reflexivity.
    + intros Ha E. rewrite Ha, E.
      destruct (seek_fields (newTime r timeline e)
                  (setCropEndTime (newTime r timeline e) c))
        as (_ & _ & F & _).
      rewrite F. reflexivity.
Qed.

Lemma drag_time_is_clamped_fraction_witness :
  newTime (render cropping120) timeline600 (mkMouseEvent 300)
  = specTime 300 0 600 120
  /\ cropStartTime
       (handleMarkerDrag (render cropping120) (mkMouseEvent 300)
          graspedStart120)
     = 60.
Proof.
  destruct (drag_time_is_clamped_fraction (render cropping120) timeline600
              (mkMouseEvent 300)) as (_ & H1 & _ & H2).
  split.
  - exact (H1 eq_refl).
  - exact (proj1 (H2 graspedStart120 eq_refl eq_refl) eq_refl eq_refl).
Defined.



(** C5.  In crop mode the apply button sends exactly one value, the
    current interval as it is together with [shouldRefreshTaskList: true],
    and crop mode is left. *)
Theorem apply_emits_interval :
  forall c : Component,
    cropMode c = true ->
    let c' := step ClickAplicarCorte c in
    componentValues c'
    = componentValues c
      ++ [ {| cv_start := cropStartTime c;
              cv_end := cropEndTime c;
              shouldRefreshTaskList := true |} ]
    /\ cropMode c' = false.
Proof.
  intros c Hm. simpl. rewrite Hm. split; reflexivity.
Qed.

Lemma apply_emits_interval_witness :
  componentValues (step ClickAplicarCorte cropping120)
  = [ {| cv_start := 1; cv_end := 119; shouldRefreshTaskList := true |} ]
  /\ cropMode (step ClickAplicarCorte cropping120) = false.
Proof.
  apply (apply_emits_interval cropping120). reflexivity.
Defined.

(** C6 fails on the code: with the timeline collapsed to width 0, a move
    of the pointer to x = 50 takes the grasped end marker from 119 to the
    duration, 120. *)
Lemma zero_width_drag_moves_end_marker :
  timelineRef graspedEndCollapsed = Some timelineCollapsed
  /\ rect_width timelineCollapsed = 0
  /\ cropMode graspedEndCollapsed = true
  /\ cropEndTime graspedEndCollapsed = 119
  /\ cropEndTime (step (DocumentMouseMove (mkMouseEvent 50))
                    graspedEndCollapsed) = 120
  /\ step (DocumentMouseMove (mkMouseEvent 50)) graspedEndCollapsed
     <> graspedEndCollapsed.
Proof.
  repeat split; try reflexivity.
  intros H. apply (f_equal (fun c => cropEndTime c <? 120)) in H.
  vm_compute in H. discriminate.
Qed.

(** C6, as the code has it.  With a rendered width of 0 the handler is not
    guarded: the fraction is an infinity or NaN, so the clamped position is
    1 for a pointer right of the left edge, 0 for a pointer left of it and
    NaN for a pointer on it (or at NaN).  Only in the last case is the move
    bound to change nothing; in the others the candidate is the position
    times the duration and goes through the accept rule. *)
Theorem zero_width_drag_position :
  forall (r : Render) (e : MouseEvent) (timeline : DOMRect) (c : Component),
    rect_width timeline = 0 ->
    timelineRef c = Some timeline ->
    let d := clientX e - rect_left timeline in
    dragPosition timeline e
    = (if 0 <? d then 1 else if d <? 0 then 0 else nan)
    /\ ((0 <? d) = false -> (d <? 0) = false -> handleMarkerDrag r e c = c).
Proof.
  intros r e timeline c Hw Ht d.
  assert (Hp : dragPosition timeline e
               = if 0 <? d then 1 else if d <? 0 then 0 else nan).
  { unfold dragPosition. rewrite Hw. fold d. rewrite div_zero_cases.
    destruct (0 <? d); [reflexivity|]. destruct (d <? 0); reflexivity. }
  split; [exact Hp|].
  intros E0 E1. unfold handleMarkerDrag, newTime. rewrite Ht, Hp, E0, E1.
  rewrite mul_nan_l.
  rewrite (ltb_nan_l nan (r_cropEndTime r) eq_refl).
  rewrite (ltb_nan_r (r_cropStartTime r) nan eq_refl).
  destruct (isDraggingRef c); [|reflexivity].
  destruct (activeMarkerRef c) as [[|]|]; reflexivity.
Qed.

Lemma zero_width_drag_position_witness :
  dragPosition timelineCollapsed (mkMouseEvent 50) = 1
  /\ handleMarkerDrag (render cropping120) (mkMouseEvent 0)
       graspedEndCollapsed
     = graspedEndCollapsed.
Proof.
  split.
  - exact (proj1 (zero_width_drag_position (render cropping120)
                    (mkMouseEvent 50) timelineCollapsed graspedEndCollapsed
                    eq_refl eq_refl)).
  - exact (proj2 (zero_width_drag_position (render cropping120)
                    (mkMouseEvent 0) timelineCollapsed graspedEndCollapsed
                    eq_refl eq_refl) eq_refl eq_refl).
Defined.

(** C7 fails on the code: with duration 0 the start marker is put at 1,
    not at 0, and start and end differ. *)
Lemma zero_duration_start_is_one :
  cropMode (mount timeline600) = false
  /\ videoDuration (mount timeline600) = 0
  /\ cropStartTime cropping0 = 1
  /\ cropEndTime cropping0 = 0
  /\ cropStartTime cropping0 <> 0
  /\ (cropStartTime cropping0 =? cropEndTime cropping0) = false.
Proof.
  repeat split; try reflexivity.
  intros H. apply (f_equal (fun x => x <? 1)) in H.
  vm_compute in H. discriminate.
Qed.

(** C7, as the code has it.  Entering crop mode with duration 0 (the value
    before the metadata arrives) puts the start marker at 1.0 and the end
    marker at [Math.max(-1, 0) = 0]: the interval is inverted, not
    degenerate.  The position mapping then gives time 0 for every position
    that is a number, and NaN for a NaN position. *)
Theorem zero_duration_crop :
  forall c : Component,
    cropMode c = false ->
    videoDuration c = 0 ->
    let c' := step ClickModoDeCorte c in
    cropMode c' = true
    /\ cropStartTime c' = 1
    /\ cropEndTime c' = 0
    /\ (cropEndTime c' <? cropStartTime c') = true
    /\ (forall (timeline : DOMRect) (e : MouseEvent),
           newTime (render c') timeline e
           = if is_nan (dragPosition timeline e) then nan else 0).
Proof.
  intros c Hm Hd. simpl. rewrite Hm. unfold handleToggleCrop. simpl.
  rewrite Hm, Hd. simpl. repeat split.
  intros timeline e. unfold newTime. simpl. rewrite Hd.
  unfold dragPosition. apply position_times_zero.
Qed.

Lemma zero_duration_crop_witness :
  cropStartTime cropping0 = 1
  /\ cropEndTime cropping0 = 0
  /\ newTime (render cropping0) timeline600 (mkMouseEvent 300) = 0.
Proof.
  destruct (zero_duration_crop (mount timeline600) eq_refl eq_refl)
    as (_ & H1 & H2 & _ & H3).
  split; [exact H1|]. split; [exact H2|].
  exact (H3 timeline600 (mkMouseEvent 300)).
Defined.

(** C8.  In crop mode the cancel button leads to the idle state and sends
    nothing: the markers are no longer rendered and the interval is
    discarded, the next entry into crop mode placing both markers afresh
    from the duration alone.  And no event whatever makes an idle component
    send a value. *)
Theorem cancel_and_idle_emit_nothing :
  (forall c : Component,
      cropMode c = true ->
      let c' := step ClickCancelar c in
      cropMode c' = false
      /\ componentValues c' = componentValues c
      /\ cropMarkers c' = []
      /\ cropStartTime (step ClickModoDeCorte c') = 1
      /\ cropEndTime (step ClickModoDeCorte c')
         = Math_max (videoDuration c - 1) (videoDuration c * 0.75))
  /\ (forall (ev : Event) (c : Component),
         cropMode c = false ->
         componentValues (step ev c) = componentValues c).
Proof.
  split.
  - intros c Hm. simpl. rewrite Hm. simpl. repeat split.
  - intros ev c Hm.
    destruct ev as [d|rect| | | |m|m|e| ]; simpl; rewrite ?Hm;
      try reflexivity.
    + destruct (videoRef c); reflexivity.
    + unfold handleToggleCrop. simpl. rewrite Hm. reflexivity.
    + apply (fold_left_keeps componentValues). intros c0 r.
      apply handleMarkerDrag_componentValues.
    + apply (fold_left_keeps componentValues). intros c0 r. reflexivity.
Qed.

Lemma cancel_and_idle_emit_nothing_witness :
  (cropMode (step ClickCancelar cropping120) = false
   /\ componentValues (step ClickCancelar cropping120) = []
   /\ cropMarkers (step ClickCancelar cropping120) = []
   /\ cropStartTime (step ClickModoDeCorte (step ClickCancelar cropping120))
      = 1
   /\ cropEndTime (step ClickModoDeCorte (step ClickCancelar cropping120))
      = 119)
  /\ componentValues (step ClickAplicarCorte (mount timeline600)) = [].
Proof.
  split.
  - apply (proj1 cancel_and_idle_emit_nothing cropping120). reflexivity.
  - apply (proj2 cancel_and_idle_emit_nothing ClickAplicarCorte
             (mount timeline600)).
    reflexivity.
Defined.

(** C9.  Once the metadata has given duration [D], and until other metadata
    arrive, the waveform lane without supplied data (absent or empty) shows
    [clamp(ceil(D * 2), 100, 1000)] placeholder bars and the thumbnail lane
    without supplied data shows [clamp(ceil(D / 3), 50, 300)] placeholder
    images, the ceiling and the bounds taken in exact arithmetic: [k] bars,
    for [k] from 100 to 1000, when [(k - 1) / 2 < D <= k / 2], where the
    lower bound is dropped for [k = 100] and the upper one for [k = 1000];
    and [k] images, for [k] from 50 to 300, when
    [3 * (k - 1) < D <= 3 * k], where the lower bound is dropped for
    [k = 50] and the upper one for [k = 300].  For [D = 50] the waveform
    lane has 100 bars. *)
Theorem placeholder_lane_lengths :
  forall (D : float) (video : HTMLVideoElement) (args : Args)
         (evs : list Event) (c : Component),
    videoRef c = Some video ->
    forallb (fun ev => negb (isLoadedMetadata ev)) evs = true ->
    let c' := run (LoadedMetadata D :: evs) c in
    (waveform_data args = None \/ waveform_data args = Some [] ->
     (forall k : Z,
         (100 <= k <= 1000)%Z ->
         ((100 < k)%Z -> (wholeNumber (k - 1) / 2 <? D) = true) ->
         ((k < 1000)%Z -> (D <=? wholeNumber k / 2) = true) ->
         List.length (audioWaveform args c') = Z.to_nat k)
     /\ (D = 50 -> List.length (audioWaveform args c') = 100%nat))
    /\ (frame_data args = None \/ frame_data args = Some [] ->
        forall k : Z,
          (50 <= k <= 300)%Z ->
          ((50 < k)%Z -> (wholeNumber (3 * (k - 1)) <? D) = true) ->
          ((k < 300)%Z -> (D <=? wholeNumber (3 * k)) = true) ->
          List.length (frameThumbnails args c') = Z.to_nat k).
Proof.
  intros D video args evs c Hv Hevs c'.
  destruct (placeholder_lengths D video args evs c Hv Hevs) as (W & T).
  fold c' in W, T. split.
  - intros H. split.
    + intros k Hk Hlo Hhi.
      rewrite (W H), (waveform_count_exact D k Hk Hlo Hhi). reflexivity.
    + intros ->. rewrite (W H).
      rewrite (waveform_count_exact 50 100); [reflexivity | lia | lia|].
      intros _. reflexivity.
  - intros H k Hk Hlo Hhi.
    rewrite (T H), (thumbnail_count_exact D k Hk Hlo Hhi). reflexivity.
Qed.

Lemma placeholder_lane_lengths_witness :
  List.length (audioWaveform (mkArgs "clip.mp4" None (Some []))
                 (run [LoadedMetadata 60.25; ClickModoDeCorte]
                    (mount timeline600)))
  = 121%nat
  /\ List.length (frameThumbnails (mkArgs "clip.mp4" None (Some []))
                    (run [LoadedMetadata 180.5; ClickModoDeCorte]
                       (mount timeline600)))
     = 61%nat.
Proof.
  split.
  - apply (proj1 (proj1 (placeholder_lane_lengths 60.25 (mkVideo 0 nan)
                           (mkArgs "clip.mp4" None (Some []))
                           [ClickModoDeCorte] (mount timeline600)
                           eq_refl eq_refl)
                    (or_introl eq_refl)) 121%Z);
      [lia | reflexivity | reflexivity].
  - apply (proj2 (placeholder_lane_lengths 180.5 (mkVideo 0 nan)
                    (mkArgs "clip.mp4" None (Some []))
                    [ClickModoDeCorte] (mount timeline600)
                    eq_refl eq_refl)
             (or_intror eq_refl) 61%Z);
      [lia | reflexivity | reflexivity].
Defined.

(** C10.  A pointer move that arrives while the dragging flag is off, while
    no marker is recorded as active, or while the timeline element is
    missing, changes nothing at all: not the markers, not the playback
    position. *)
Theorem drag_without_session_changes_nothing :
  forall (r : Render) (e : MouseEvent) (c : Component),
    isDraggingRef c = false \/ timelineRef c = None
    \/ activeMarkerRef c = None ->
    handleMarkerDrag r e c = c.
Proof.
  intros r e c [H|[H|H]]; unfold handleMarkerDrag; rewrite H.
  - reflexivity.
  - destruct (isDraggingRef c); reflexivity.
  - destruct (isDraggingRef c); [|reflexivity].
    destruct (timelineRef c); reflexivity.
Qed.

Lemma drag_without_session_changes_nothing_witness :
  handleMarkerDrag (render cropping120) (mkMouseEvent 300) cropping120
  = cropping120.
Proof.
  apply (drag_without_session_changes_nothing (render cropping120)
           (mkMouseEvent 300) cropping120).
  left. reflexivity.
Defined.

(** ** More sample values *)

(** Labels, as [formatTime] writes them: the fraction of a second is
    dropped, an hour is sixty minutes, and what is not a time of day is
    printed as JavaScript prints it. *)
Example formatTime_samples :
  formatTime 0 = Some "0:00"%string
  /\ formatTime 1 = Some "0:01"%string
  /\ formatTime 119.5 = Some "1:59"%string
  /\ formatTime 3600 = Some "60:00"%string
  /\ formatTime neg_zero = Some "0:00"%string
  /\ formatTime (-1) = Some "-1:0-1"%string
  /\ formatTime nan = Some "NaN:NaN"%string
  /\ formatTime infinity = Some "Infinity:NaN"%string.
Proof. repeat split; vm_compute; reflexivity. Qed.

(** Heights of bars, in percent. *)
Example effectiveHeight_samples :
  effectiveHeight 0 = 20
  /\ effectiveHeight 0.5 = 50
  /\ effectiveHeight 1 = 100
  /\ effectiveHeight (-3) = 20
  /\ is_nan (effectiveHeight nan) = true.
Proof. repeat split; vm_compute; reflexivity. Qed.

(** ** Further properties of the component *)

(** X1.  [formatTime] of a time of [n] whole seconds and a fraction, with
    [0 <= n < 2^52], is the decimal form of [n / 60], a colon, and
    [n mod 60] in two digits: the division and the remainder of the format
    lose nothing that the label shows. *)
Theorem formatTime_shows_minutes_and_seconds :
  forall (seconds : float) (n : Z),
    (0 <= n < 2 ^ 52)%Z ->
    (wholeNumber n <=? seconds) = true ->
    (seconds <? wholeNumber (n + 1)) = true ->
    formatTime seconds
    = Some (String.append (decimal (n / 60))
              (String.append ":" (twoDigits (n mod 60))))
    /\ String.length (twoDigits (n mod 60)) = 2%nat.
Proof.
  intros seconds n Hn H1 H2.
  exact (formatTime_wholePart seconds n
           (wholeNumber_wholePart seconds n Hn H1 H2) Hn).
Qed.

Lemma formatTime_shows_minutes_and_seconds_witness :
  formatTime 119.5 = Some "1:59"%string
  /\ String.length (twoDigits (119 mod 60)) = 2%nat.
Proof.
  apply (formatTime_shows_minutes_and_seconds 119.5 119);
    [split; [lia | reflexivity] | reflexivity | reflexivity].
Defined.

(** X2.  Whatever the events, the values sent to Streamlit only grow at the
    end, by at most one value for each click on the apply button, and every
    value asks for the task list to be refreshed: [handleCropApply] is the
    only sender. *)
Theorem values_are_sent_by_apply_only :
  forall (evs : list Event) (c : Component),
  exists vs : list ComponentValue,
    componentValues (run evs c) = componentValues c ++ vs
    /\ (List.length vs <= List.length (filter isClickAplicarCorte evs))%nat
    /\ Forall (fun v => shouldRefreshTaskList v = true) vs.
Proof.
  induction evs as [|ev evs IH]; intros c.
  - exists []. simpl. rewrite app_nil_r. repeat split; constructor.
  - destruct (IH (step ev c)) as (vs & H1 & H2 & H3).
    change (run (ev :: evs) c) with (run evs (step ev c)).
    destruct (step_componentValues ev c) as [E|(Ea & _ & _ & E)].
    + exists vs. rewrite H1, E. split; [reflexivity|]. split; [|exact H3].
      simpl. destruct (isClickAplicarCorte ev); simpl; lia.
    + exists ({| cv_start := cropStartTime c;
                 cv_end := cropEndTime c;
                 shouldRefreshTaskList := true |} :: vs).
      rewrite H1, E, <- app_assoc. split; [reflexivity|]. split.
      * simpl. rewrite Ea. simpl. lia.
      * constructor; [reflexivity | exact H3].
Qed.

(** X3.  From the mount on, whatever the events: [isDraggingRef] is set
    exactly when listeners are registered on [document], and
    [activeMarkerRef] holds a marker exactly then. *)
Theorem dragging_flag_follows_listeners :
  forall (timeline : DOMRect) (evs : list Event),
    let c := run evs (mount timeline) in
    (isDraggingRef c = true <-> documentListeners c <> [])
    /\ (activeMarkerRef c <> None <-> documentListeners c <> []).
Proof.
  intros timeline evs.
  assert (H : forall c, dragConsistent c -> dragConsistent (run evs c)).
  { induction evs as [|ev evs IH]; intros c Hc; [exact Hc|].
    apply IH. apply step_keeps_dragConsistent. exact Hc. }
  apply H. unfold dragConsistent. simpl.
  split; split; intros G; try discriminate; congruence.
Qed.

(** X4.  A pointer-up anywhere on the document ends every open drag: no
    listener stays registered, the two ref cells are cleared if any was,
    the mode, the interval, the video and the values sent are as before,
    and a pointer move that follows changes nothing. *)
Theorem pointer_up_ends_every_session :
  forall c : Component,
    let c' := step DocumentMouseUp c in
    documentListeners c' = []
    /\ (documentListeners c <> [] ->
        isDraggingRef c' = false /\ activeMarkerRef c' = None)
    /\ cropMode c' = cropMode c
    /\ cropStartTime c' = cropStartTime c
    /\ cropEndTime c' = cropEndTime c
    /\ videoRef c' = videoRef c
    /\ componentValues c' = componentValues c
    /\ (forall e : MouseEvent, step (DocumentMouseMove e) c' = c').
Proof.
  intros c c'. pose proof (mouseUp_clears c) as Hl. fold c' in Hl.
  destruct (mouseUps_fields (documentListeners c) c)
    as (H1 & H2 & H3 & H4 & H5 & H6 & H7 & H8).
  split; [exact Hl|]. split; [exact H8|].
  repeat (split; [assumption|]).
  intros e. simpl step at 1. rewrite Hl. reflexivity.
Qed.

(** X5.  With a duration that is a number and not negative, the time that
    [handleMarkerDrag] computes from a pointer position is NaN or lies in
    [0, duration]; a drag that changes the component has computed a time in
    [0, duration]. *)
Theorem drag_candidate_in_range :
  forall (r : Render) (timeline : DOMRect) (e : MouseEvent),
    (0 <=? r_videoDuration r) = true ->
    let t := newTime r timeline e in
    (is_nan t = true
     \/ ((0 <=? t) = true /\ (t <=? r_videoDuration r) = true))
    /\ (forall c : Component,
           timelineRef c = Some timeline ->
           handleMarkerDrag r e c <> c ->
           (0 <=? t) = true /\ (t <=? r_videoDuration r) = true).
Proof.
  intros r timeline e HD t.
  pose proof (newTime_range r timeline e HD) as R. fold t in R.
  split; [exact R|].
  intros c Ht Hc. unfold handleMarkerDrag in Hc. rewrite Ht in Hc. fold t in Hc.
  destruct (isDraggingRef c); [|congruence].
  destruct (activeMarkerRef c) as [[|]|]; [| |congruence].
  - destruct (t <? r_cropEndTime r) eqn:E; [|congruence].
    destruct (ltb_not_nan _ _ E) as (N & _).
    destruct R as [R|R]; [congruence | exact R].
  - destruct (r_cropStartTime r <? t) eqn:E; [|congruence].
    destruct (ltb_not_nan _ _ E) as (_ & N).
    destruct R as [R|R]; [congruence | exact R].
Qed.

Lemma drag_candidate_in_range_witness :
  (0 <=? newTime (render cropping120) timeline600 (mkMouseEvent 900)) = true
  /\ (newTime (render cropping120) timeline600 (mkMouseEvent 900) <=? 120)
     = true.
Proof.
  destruct (drag_candidate_in_range (render cropping120) timeline600
              (mkMouseEvent 900) eq_refl) as ([H|H] & _).
  - discriminate H.
  - exact H.
Defined.

(** X6.  On a timeline of positive width and with a duration that is not
    negative, a pointer further to the right never gives an earlier time:
    the subtraction, the division, the clamping and the multiplication of
    [handleMarkerDrag] keep the order, roundings included. *)
Theorem drag_time_is_monotone :
  forall (r : Render) (timeline : DOMRect) (e1 e2 : MouseEvent),
    (clientX e1 <=? clientX e2) = true ->
    (0 <? rect_width timeline) = true ->
    (0 <=? r_videoDuration r) = true ->
    is_nan (newTime r timeline e1) = false ->
    is_nan (newTime r timeline e2) = false ->
    (newTime r timeline e1 <=? newTime r timeline e2) = true.
Proof.
  intros r timeline e1 e2 Hx Hw HD N1 N2.
  unfold newTime, dragPosition in *.
  set (p1 := (clientX e1 - rect_left timeline) / rect_width timeline) in *.
  set (p2 := (clientX e2 - rect_left timeline) / rect_width timeline) in *.
  pose proof (mul_not_nan_l _ _ N1) as C1.
  pose proof (mul_not_nan_l _ _ N2) as C2.
  pose proof (proj1 (position_rank p1) C1) as P1.
  pose proof (proj1 (position_rank p2) C2) as P2.
  pose proof (div_not_nan_l _ _ P1) as D1.
  pose proof (div_not_nan_l _ _ P2) as D2.
  pose proof (sub_mono _ _ _ Hx D1 D2) as Hd.
  pose proof (div_mono _ _ _ Hd Hw P1 P2) as Hp. fold p1 p2 in Hp.
  destruct (position_mono p1 p2 Hp) as (Hc0 & Hc).
  exact (mul_mono _ _ _ Hc0 Hc HD N1 N2).
Qed.

Lemma drag_time_is_monotone_witness :
  (newTime (render cropping120) timeline600 (mkMouseEvent 300)
   <=? newTime (render cropping120) timeline600 (mkMouseEvent 450)) = true.
Proof.
  apply (drag_time_is_monotone (render cropping120) timeline600
           (mkMouseEvent 300) (mkMouseEvent 450)); reflexivity.
Defined.

(** X7.  On a timeline of finite positive width, while a marker is
    dragged: a pointer at or beyond the right edge (its offset from the
    left edge is the width or more) gives the duration itself, and the end
    marker is put there if the start of the render is below it; a pointer
    at or before the left edge gives zero, for a finite duration that is
    not negative, and the start marker is put there if the end of the
    render is above zero. *)
Theorem drag_beyond_the_edges :
  forall (r : Render) (timeline : DOMRect) (e : MouseEvent) (c : Component),
    (0 <? rect_width timeline) = true ->
    (rect_width timeline <? infinity) = true ->
    isDraggingRef c = true ->
    timelineRef c = Some timeline ->
    ((rect_width timeline <=? clientX e - rect_left timeline) = true ->
     newTime r timeline e = r_videoDuration r
     /\ (activeMarkerRef c = Some marker_end ->
         (r_cropStartTime r <? r_videoDuration r) = true ->
         cropEndTime (handleMarkerDrag r e c) = r_videoDuration r))
    /\ ((clientX e - rect_left timeline <=? 0) = true ->
        (0 <=? r_videoDuration r) = true ->
        (r_videoDuration r <? infinity) = true ->
        (newTime r timeline e =? 0) = true
        /\ (activeMarkerRef c = Some marker_start ->
            (0 <? r_cropEndTime r) = true ->
            (cropStartTime (handleMarkerDrag r e c) =? 0) = true)).
Proof.
  intros r timeline e c W0 W1 Hd Ht. split.
  - intros Hx.
    assert (E : newTime r timeline e = r_videoDuration r).
    { unfold newTime, dragPosition.
      rewrite (position_right _ _ W0 W1 Hx). apply mul_one_l. }
    split; [exact E|]. intros Hm Hs.
    unfold handleMarkerDrag. rewrite Hd, Ht, Hm, E, Hs.
    destruct (seek_fields (r_videoDuration r)
                (setCropEndTime (r_videoDuration r) c))
      as (_ & _ & F & _).
    rewrite F. reflexivity.
  - intros Hx D0 D1.
    assert (E : (newTime r timeline e =? 0) = true).
    { unfold newTime, dragPosition.
      rewrite (position_left _ _ W0 W1 Hx). exact (mul_zero_l _ D0 D1). }
    split; [exact E|]. intros Hm He.
    set (t := newTime r timeline e) in *.
    assert (Nt : is_nan t = false).
    { destruct (is_nan t) eqn:N; [|reflexivity].
      rewrite (nan_unique t N) in E. discriminate E. }
    assert (R : rank (Prim2SF t) = 0%Z).
    { rewrite FloatAxioms.eqb_spec in E.
      pose proof (rank_compare (Prim2SF t) (Prim2SF 0) (Prim2SF_valid _)
                    eq_refl ltac:(apply not_nan_SF; exact Nt)
                    ltac:(discriminate)) as C.
      unfold SFeqb in E. rewrite C in E.
      change (rank (Prim2SF 0)) with 0%Z in E.
      destruct (Z.compare_spec (rank (Prim2SF t)) 0);
        [assumption | discriminate | discriminate]. }
    assert (Hlt : (t <? r_cropEndTime r) = true).
    { apply ltb_true in He. destruct He as (_ & Ne & He).
      change (rank (Prim2SF 0)) with 0%Z in He.
      apply ltb_true. split; [exact Nt|]. split; [exact Ne|]. lia. }
    unfold handleMarkerDrag. rewrite Hd, Ht, Hm. fold t. rewrite Hlt.
    destruct (seek_fields t (setCropStartTime t c)) as (_ & F & _).
    rewrite F. exact E.
Qed.

Lemma drag_beyond_the_edges_witness :
  cropEndTime (handleMarkerDrag (render graspedEnd120) (mkMouseEvent 900)
                 graspedEnd120) = 120
  /\ (cropStartTime (handleMarkerDrag (render graspedStart120)
                       (mkMouseEvent (-50)) graspedStart120) =? 0) = true.
Proof.
  split.
  - exact (proj2 (proj1 (drag_beyond_the_edges (render graspedEnd120)
                           timeline600 (mkMouseEvent 900) graspedEnd120
                           eq_refl eq_refl eq_refl eq_refl) eq_refl)
             eq_refl eq_refl).
  - exact (proj2 (proj2 (drag_beyond_the_edges (render graspedStart120)
                           timeline600 (mkMouseEvent (-50)) graspedStart120
                           eq_refl eq_refl eq_refl eq_refl)
                    eq_refl eq_refl eq_refl)
             eq_refl eq_refl).
Defined.

(** X8.  In crop mode, from rest, with [start < end], [0 <= start] and
    [end <= duration]: after every event of drag sessions that follow one
    another the interval is still ordered and within [0, duration], and
    the duration is the same. *)
Theorem drag_sessions_keep_interval_in_range :
  forall (ss : list Session) (c : Component),
    cropMode c = true ->
    documentListeners c = [] ->
    ordered c ->
    within c ->
    Forall (fun c' => ordered c' /\ within c'
                      /\ videoDuration c' = videoDuration c)
      (runStates (sessionsTrace ss) c).
Proof.
  intros ss c Hm Hl Ho W.
  apply sessions_keep_within; [|exact W]. repeat split; assumption.
Qed.

Lemma drag_sessions_keep_interval_in_range_witness :
  Forall (fun c' => ordered c' /\ within c'
                    /\ videoDuration c' = videoDuration cropping120)
    (runStates (sessionsTrace sampleSessions) cropping120).
Proof.
  apply (drag_sessions_keep_interval_in_range sampleSessions cropping120);
    [reflexivity | reflexivity | reflexivity | split; reflexivity].
Defined.

(** X9.  A video of duration [D] above [0x1.5555555555556p+0] seconds
    (1.3333333333333335, the number of the format next above four thirds)
    is loaded, crop mode is entered, markers are dragged in sessions that
    follow one another, and the crop is applied: the component leaves crop
    mode and has sent exactly one value, an interval with
    [0 <= start < end <= D]. *)
Theorem crop_of_a_loaded_video_sends_interval_in_range :
  forall (D : float) (timeline : DOMRect) (ss : list Session),
    (0x1.5555555555556p+0 <? D) = true ->
    let c := run ([LoadedMetadata D; ClickModoDeCorte]
                  ++ sessionsTrace ss ++ [ClickAplicarCorte])
               (mount timeline) in
    cropMode c = false
    /\ exists s e : float,
         componentValues c
         = [ {| cv_start := s; cv_end := e; shouldRefreshTaskList := true |} ]
         /\ (0 <=? s) = true /\ (s <? e) = true /\ (e <=? D) = true.
Proof.
  intros D timeline ss HD c.
  assert (Hpos : (0 <? D) = true).
  { apply ltb_true in HD. destruct HD as (_ & N & HD). apply ltb_true.
    split; [reflexivity|]. split; [exact N|].
    assert ((0 < rank (Prim2SF 0x1.5555555555556p+0))%Z)
      by (vm_compute; reflexivity).
    change (rank (Prim2SF 0)) with 0%Z. lia. }
  destruct (default_end_bounds D Hpos) as (B1 & B2). rewrite HD in B2.
  set (c0 := run [LoadedMetadata D; ClickModoDeCorte] (mount timeline)).
  assert (F : cropMode c0 = true /\ cropStartTime c0 = 1
              /\ cropEndTime c0 = Math_max (D - 1) (D * 0.75)
              /\ videoDuration c0 = D /\ documentListeners c0 = []
              /\ componentValues c0 = []).
  { unfold c0. repeat split; reflexivity. }
  destruct F as (F1 & F2 & F3 & F4 & F5 & F6).
  assert (R0 : atRest c0).
  { split; [exact F1|]. split; [|exact F5].
    unfold ordered. rewrite F2, F3. exact B2. }
  assert (W0 : within c0).
  { unfold within. rewrite F2, F3, F4. split; [reflexivity | exact B1]. }
  destruct (sessions_keep_within ss c0 R0 W0) as (_ & R1 & W1 & V1).
  set (c1 := run (sessionsTrace ss) c0) in *.
  assert (Hc : c = step ClickAplicarCorte c1).
  { unfold c, c1, c0. rewrite !run_app. reflexivity. }
  assert (Hv : componentValues c1 = []).
  { unfold c1.
    rewrite (run_without_apply _ c0 (sessionsTrace_no_apply ss)).
    exact F6. }
  destruct R1 as (M1 & O1 & _). destruct W1 as (W10 & W11).
  rewrite Hc. simpl. rewrite M1. simpl. split; [reflexivity|].
  exists (cropStartTime c1), (cropEndTime c1).
  rewrite Hv. split; [reflexivity|]. split; [exact W10|].
  split; [exact O1|]. rewrite V1, F4 in W11. exact W11.
Qed.

Lemma crop_of_a_loaded_video_sends_interval_in_range_witness :
  exists s e : float,
    componentValues
      (run ([LoadedMetadata 120; ClickModoDeCorte]
            ++ sessionsTrace sampleSessions ++ [ClickAplicarCorte])
         (mount timeline600))
    = [ {| cv_start := s; cv_end := e; shouldRefreshTaskList := true |} ]
    /\ (0 <=? s) = true /\ (s <? e) = true /\ (e <=? 120) = true.
Proof.
  exact (proj2 (crop_of_a_loaded_video_sends_interval_in_range 120
                  timeline600 sampleSessions eq_refl)).
Defined.

(** X10.  In crop mode, with [start < end], [0 <= start],
    [end <= duration] and a finite duration, the two markers are rendered
    at percentages [left] with [0 <= left(start) <= left(end) <= 100]: both
    are on the timeline, the start marker not to the right of the end
    marker. *)
Theorem crop_markers_stay_on_timeline :
  forall c : Component,
    cropMode c = true ->
    ordered c ->
    within c ->
    (videoDuration c <? infinity) = true ->
    exists ps pe : float,
      cropMarkers c = [(marker_start, ps); (marker_end, pe)]
      /\ (0 <=? ps) = true /\ (ps <=? pe) = true /\ (pe <=? 100) = true.
Proof.
  intros c Hm Ho (W0 & W1) Hfin. unfold cropMarkers. rewrite Hm.
  unfold ordered in Ho.
  set (s := cropStartTime c) in *. set (e := cropEndTime c) in *.
  set (D := videoDuration c) in *.
  pose proof (ltb_leb _ _ Ho) as Hse.
  pose proof (leb_trans _ _ _ Hse W1) as HsD.
  pose proof (leb_trans _ _ _ W0 Hse) as H0e.
  assert (HD : (0 <? D) = true).
  { apply ltb_true in Ho. apply leb_true in W0, W1. apply ltb_true.
    destruct Ho as (_ & _ & Ho), W0 as (_ & _ & W0), W1 as (_ & N & W1).
    repeat split; try assumption; try reflexivity. lia. }
  destruct (marker_left_range s D W0 HsD HD Hfin) as (S0 & S1).
  destruct (marker_left_range e D H0e W1 HD Hfin) as (E0 & E1).
  destruct (div_fraction s D W0 HsD HD Hfin) as (Ps0 & _).
  destruct (div_fraction e D H0e W1 HD Hfin) as (Pe0 & _).
  exists (s / D * 100), (e / D * 100).
  split; [reflexivity|]. split; [exact S0|]. split; [|exact E1].
  apply mul_mono; try assumption; try reflexivity.
  - apply div_mono; try assumption.
    + apply leb_true in Ps0. tauto.
    + apply leb_true in Pe0. tauto.
  - apply leb_true in S0. tauto.
  - apply leb_true in E0. tauto.
Qed.

Lemma crop_markers_stay_on_timeline_witness :
  exists ps pe : float,
    cropMarkers cropping120 = [(marker_start, ps); (marker_end, pe)]
    /\ (0 <=? ps) = true /\ (ps <=? pe) = true /\ (pe <=? 100) = true.
Proof.
  apply (crop_markers_stay_on_timeline cropping120);
    [reflexivity | reflexivity | split; reflexivity | reflexivity].
Defined.

(** X11.  Supplied waveform samples, if not empty, give one bar each, in
    their order.  The height [Math.max(value, 0.2) * 100] of a bar is NaN
    exactly for a sample that is NaN; for every other sample it is at
    least 20 percent, exactly 20 for a sample up to [0.2], and at most 100
    for a sample up to 1. *)
Theorem supplied_waveform_bar_heights :
  forall (args : Args) (values : list float),
    waveform_data args = Some values ->
    values <> [] ->
    exists heights : list float,
      waveformHeights args = Some heights
      /\ Forall2 (fun v h =>
                    (is_nan h = true <-> is_nan v = true)
                    /\ (is_nan v = false ->
                        (20 <=? h) = true
                        /\ ((v <=? 0x1.999999999999ap-3) = true -> h = 20)
                        /\ ((v <=? 1) = true -> (h <=? 100) = true)))
           values heights.
Proof.
  intros args values Hw Hne. exists (map effectiveHeight values). split.
  - unfold waveformHeights. rewrite Hw.
    destruct values as [|v values]; [congruence | reflexivity].
  - clear Hw Hne. induction values as [|v values IH]; constructor;
      [|exact IH].
    split.
    + split; intros N.
      * destruct (is_nan v) eqn:Nv; [reflexivity|].
        destruct (effectiveHeight_range v Nv) as (H & _).
        destruct (leb_not_nan _ _ H) as (_ & N'). congruence.
      * exact (effectiveHeight_nan v N).
    + exact (effectiveHeight_range v).
Qed.

Lemma supplied_waveform_bar_heights_witness :
  exists heights : list float,
    waveformHeights (mkArgs "clip.mp4" (Some [0.5; 0; 1; nan]) None)
    = Some heights
    /\ Forall2 (fun v h =>
                  (is_nan h = true <-> is_nan v = true)
                  /\ (is_nan v = false ->
                      (20 <=? h) = true
                      /\ ((v <=? 0x1.999999999999ap-3) = true -> h = 20)
                      /\ ((v <=? 1) = true -> (h <=? 100) = true)))
         [0.5; 0; 1; nan] heights.
Proof.
  apply (supplied_waveform_bar_heights
           (mkArgs "clip.mp4" (Some [0.5; 0; 1; nan]) None)
           [0.5; 0; 1; nan]); [reflexivity | discriminate].
Defined.

(** X12.  After metadata with duration [D], and until other metadata
    arrive, a lane without supplied data is empty if and only if [D] is
    NaN. *)
Theorem placeholder_lanes_are_empty_only_for_nan :
  forall (D : float) (video : HTMLVideoElement) (args : Args)
         (evs : list Event) (c : Component),
    videoRef c = Some video ->
    forallb (fun ev => negb (isLoadedMetadata ev)) evs = true ->
    let c' := run (LoadedMetadata D :: evs) c in
    (waveform_data args = None \/ waveform_data args = Some [] ->
     (audioWaveform args c' = [] <-> is_nan D = true))
    /\ (frame_data args = None \/ frame_data args = Some [] ->
        (frameThumbnails args c' = [] <-> is_nan D = true)).
Proof.
  intros D video args evs c Hv Hevs c'.
  destruct (placeholder_lengths D video args evs c Hv Hevs) as (W & T).
  fold c' in W, T.
  split; intros H.
  - rewrite length_zero_nil, (W H).
    destruct (is_nan D) eqn:N.
    + rewrite (nan_unique D N). split; reflexivity.
    + rewrite (waveform_count D N). split; intros E; [lia | discriminate].
  - rewrite length_zero_nil, (T H).
    destruct (is_nan D) eqn:N.
    + rewrite (nan_unique D N). split; reflexivity.
    + rewrite (thumbnail_count D N). split; intros E; [lia | discriminate].
Qed.

Lemma placeholder_lanes_are_empty_only_for_nan_witness :
  audioWaveform (mkArgs "clip.mp4" None None)
    (run [LoadedMetadata nan] (mount timeline600)) = []
  /\ frameThumbnails (mkArgs "clip.mp4" None None)
       (run [LoadedMetadata nan] (mount timeline600)) = [].
Proof.
  destruct (placeholder_lanes_are_empty_only_for_nan nan (mkVideo 0 nan)
              (mkArgs "clip.mp4" None None) [] (mount timeline600)
              eq_refl eq_refl) as (H1 & H2).
  split.
  - exact (proj2 (H1 (or_introl eq_refl)) eq_refl).
  - exact (proj2 (H2 (or_introl eq_refl)) eq_refl).
Defined.

(** X13.  After metadata with duration [D], and until other metadata
    arrive, the lanes without supplied data hold the numbers of
    placeholders that [clamp(ceil(D * 2), 100, 1000)] and
    [clamp(ceil(D / 3), 50, 300)] give in exact arithmetic: [k] bars, for
    [k] from 100 to 1000, if [(k - 1) / 2 < D <= k / 2], where the lower
    bound is dropped for [k = 100] and the upper one for [k = 1000]; and
    [k] thumbnails, for [k] from 50 to 300, if [3 * (k - 1) < D <= 3 * k],
    where the lower bound is dropped for [k = 50] and the upper one for
    [k = 300].  The rounding of the division by three never changes the
    count. *)
Theorem placeholder_counts_are_exact :
  forall (D : float) (video : HTMLVideoElement) (args : Args)
         (evs : list Event) (c : Component) (k : Z),
    videoRef c = Some video ->
    forallb (fun ev => negb (isLoadedMetadata ev)) evs = true ->
    let c' := run (LoadedMetadata D :: evs) c in
    (waveform_data args = None \/ waveform_data args = Some [] ->
     (100 <= k <= 1000)%Z ->
     ((100 < k)%Z -> (wholeNumber (k - 1) / 2 <? D) = true) ->
     ((k < 1000)%Z -> (D <=? wholeNumber k / 2) = true) ->
     List.length (audioWaveform args c') = Z.to_nat k)
    /\ (frame_data args = None \/ frame_data args = Some [] ->
        (50 <= k <= 300)%Z ->
        ((50 < k)%Z -> (wholeNumber (3 * (k - 1)) <? D) = true) ->
        ((k < 300)%Z -> (D <=? wholeNumber (3 * k)) = true) ->
        List.length (frameThumbnails args c') = Z.to_nat k).
Proof.
  intros D video args evs c k Hv Hevs c'.
  destruct (placeholder_lengths D video args evs c Hv Hevs) as (W & T).
  fold c' in W, T. split.
  - intros H Hk Hlo Hhi.
    rewrite (W H), (waveform_count_exact D k Hk Hlo Hhi). reflexivity.
  - intros H Hk Hlo Hhi.
    rewrite (T H), (thumbnail_count_exact D k Hk Hlo Hhi). reflexivity.
Qed.

Lemma placeholder_counts_are_exact_witness :
  List.length (audioWaveform (mkArgs "clip.mp4" None None)
                 (run [LoadedMetadata 60.25] (mount timeline600)))
  = 121%nat
  /\ List.length (frameThumbnails (mkArgs "clip.mp4" None None)
                    (run [LoadedMetadata 180.5] (mount timeline600)))
     = 61%nat.
Proof.
  split.
  - apply (proj1 (placeholder_counts_are_exact 60.25 (mkVideo 0 nan)
                    (mkArgs "clip.mp4" None None) [] (mount timeline600)
                    121 eq_refl eq_refl));
      [left; reflexivity | lia | reflexivity | reflexivity].
  - apply (proj2 (placeholder_counts_are_exact 180.5 (mkVideo 0 nan)
                    (mkArgs "clip.mp4" None None) [] (mount timeline600)
                    61 eq_refl eq_refl));
      [left; reflexivity | lia | reflexivity | reflexivity].
Defined.

(** X14.  Of two durations that are numbers, the longer one never gives
    fewer placeholder bars or fewer placeholder thumbnails. *)
Theorem longer_video_has_no_fewer_placeholders :
  forall (D1 D2 : float) (video : HTMLVideoElement) (args : Args)
         (evs1 evs2 : list Event) (c : Component),
    videoRef c = Some video ->
    forallb (fun ev => negb (isLoadedMetadata ev)) evs1 = true ->
    forallb (fun ev => negb (isLoadedMetadata ev)) evs2 = true ->
    (D1 <=? D2) = true ->
    let c1 := run (LoadedMetadata D1 :: evs1) c in
    let c2 := run (LoadedMetadata D2 :: evs2) c in
    (waveform_data args = None \/ waveform_data args = Some [] ->
     (List.length (audioWaveform args c1)
      <= List.length (audioWaveform args c2))%nat)
    /\ (frame_data args = None \/ frame_data args = Some [] ->
        (List.length (frameThumbnails args c1)
         <= List.length (frameThumbnails args c2))%nat).
Proof.
  intros D1 D2 video args evs1 evs2 c Hv H1 H2 HD c1 c2.
  apply leb_true in HD. destruct HD as (N1 & N2 & HD).
  destruct (placeholder_lengths D1 video args evs1 c Hv H1) as (W1 & T1).
  destruct (placeholder_lengths D2 video args evs2 c Hv H2) as (W2 & T2).
  fold c1 in W1, T1. fold c2 in W2, T2.
  split; intros H.
  - rewrite (W1 H), (W2 H), (waveform_count D1 N1), (waveform_count D2 N2).
    apply Z2Nat.inj_le; [lia | lia |].
    destruct (Z.lt_ge_cases (rank (Prim2SF D1)) 0) as [L|L].
    + pose proof (ceiling_nonpos _ (double_negative D1 N1 L)). lia.
    + pose proof (ceiling_mono _ _
                    (double_mono D1 D2 N1 N2 (conj L HD))).
      lia.
  - rewrite (T1 H), (T2 H), (thumbnail_count D1 N1),
      (thumbnail_count D2 N2).
    apply Z2Nat.inj_le; [lia | lia |].
    pose proof (ceiling_mono _ _ (third_mono D1 D2 N1 N2 HD)). lia.
Qed.

Lemma longer_video_has_no_fewer_placeholders_witness :
  (List.length (audioWaveform (mkArgs "clip.mp4" None None)
                  (run [LoadedMetadata 60] (mount timeline600)))
   <= List.length (audioWaveform (mkArgs "clip.mp4" None None)
                     (run [LoadedMetadata 90.5] (mount timeline600))))%nat.
Proof.
  exact (proj1 (longer_video_has_no_fewer_placeholders 60 90.5
                  (mkVideo 0 nan) (mkArgs "clip.mp4" None None) [] []
                  (mount timeline600) eq_refl eq_refl eq_refl eq_refl)
           (or_introl eq_refl)).
Defined.
